(** * TempKlean: a verified model of the temp-folder cleaner

    A shallow embedding of [TempKlean.py] and the properties of its three
    components: the size probe ([get_folder_size]), the cleaner
    ([clean_temp_folder], with [handle_remove_readonly]) and the reporter
    ([format_size], [create_progress_bar], [display_cleanup_results],
    [display_system_info] with [get_disk_usage]).  [main] is not modelled:
    it is the console session around these functions ([os.system],
    [os.environ], [input], [msvcrt], [traceback]); Part III states what
    the calls it makes give when they follow one another.

    Modelling conventions.
    - A Python [int] is a [Z].  A Python [str] is the list of its Unicode
      code points ([str]); ASCII literals are written [py "..."].
    - A Python [float] is a sign bit and an exact rational magnitude
      ([pyfloat]): the sign bit keeps Python's negative zero, which
      [f"{x:.2f}"] prints as [-0.00].  The range of a float is modelled:
      [int / int] raises [OverflowError] when the quotient, rounded to a
      float, is not finite, that is from [2^1024 - 2^970] on
      ([FLOAT_LIMIT]).  The rounding of the magnitude to 53 bits is not:
      the theorems state digits only where the script's arithmetic is
      exact in binary floating point (byte counts below [2^53] divided by
      a power of 1024, whole percentages) and state elsewhere what
      rounding cannot change (the shape of the text, the range of a
      percentage, the number of glyphs of a bar).
    - Exceptions are values of [exn]; a Python function body is a
      computation over the [world] (file system and standard output) that
      either [Returns] a value or [Raises] an exception; the local
      variables a body assigns in a loop are part of its state ([Body]).
    - [print] appends a [printed] line: one constructor per format string,
      carrying the values it interpolates; colours and glyphs of the lines
      are not kept, those of the progress bar are.
    - The file system is a tree of [node]s addressed by lists of path
      components.  Removal follows Windows rules, the platform the script
      targets: a read-only or in-use entry refuses [unlink] and [rmdir],
      and [os.chmod(p, stat.S_IWRITE)] clears the read-only attribute.
      The library calls are those of CPython 3.11 on Windows, where
      [shutil.rmtree] works on paths and not on directory descriptors.
    - Links are nodes of the tree: an entry whose target cannot be stat'ed
      ([Dangling]: a dangling link, or a file that vanished after it was
      listed), and a live link to a directory ([DirLink]: a symbolic link
      or a junction), which [is_dir()] takes for a directory, [os.walk]
      enters only when it is a junction, [shutil.rmtree] refuses as its
      argument and unlinks when it meets it inside a tree.  A live link to
      a file behaves as the file.
    - [get_folder_size] is written over the three calls it makes into the
      [os] module ([os_module]); the script's function is the instance on
      the tree ([tree_os]).  The other instances answer as a file system
      would that changes between two calls.
    - The script is sequential; what other processes do to the file system
      meanwhile is the function [others] of the world, run once between the
      deletion loop and the final measurement ([others_run]).
    - [psutil] is not part of the script: what importing it and calling
      [psutil.disk_usage] give on the machine is a value of [psutil].  The
      two functions that use it only print, to a terminal of their own
      ([info_line]). *)

From Stdlib Require Import ZArith QArith Qround Qabs List String Ascii Bool Lia.
From Stdlib Require Import Lqa.
Import ListNotations.

Local Open Scope Z_scope.

(* ================================================================== *)
(** * Part I: definitions                                              *)
(* ================================================================== *)

(** ** Python strings *)

Definition str := list N.

(** An ASCII literal as a Python string. *)
Definition py (s : string) : str := map N_of_ascii (list_ascii_of_string s).

(** [s * k]: repetition, empty when [k <= 0]. *)
Definition str_mul (s : str) (k : Z) : str := List.concat (repeat s (Z.to_nat k)).

Definition digit (d : Z) : N := (48 + Z.to_N d)%N.

Fixpoint uint_str (u : Decimal.uint) : str :=
  match u with
  | Decimal.Nil => []
  | Decimal.D0 u => 48%N :: uint_str u
  | Decimal.D1 u => 49%N :: uint_str u
  | Decimal.D2 u => 50%N :: uint_str u
  | Decimal.D3 u => 51%N :: uint_str u
  | Decimal.D4 u => 52%N :: uint_str u
  | Decimal.D5 u => 53%N :: uint_str u
  | Decimal.D6 u => 54%N :: uint_str u
  | Decimal.D7 u => 55%N :: uint_str u
  | Decimal.D8 u => 56%N :: uint_str u
  | Decimal.D9 u => 57%N :: uint_str u
  end.

(** The decimal numeral of a natural number, as [str(n)] prints it. *)
Definition decimal (n : Z) : str := uint_str (N.to_uint (Z.to_N n)).

(** The [nd] digits of [f] below the decimal point, most significant first. *)
Fixpoint frac_digits (nd : nat) (f : Z) : str :=
  match nd with
  | O => []
  | S k => digit ((f / 10 ^ Z.of_nat k) mod 10) :: frac_digits k f
  end.

(** ** Exceptions and computations *)

Inductive exn :=
| FileNotFoundError
| NotADirectoryError
| PermissionError
| OSError             (* any other OS-level error, e.g. directory not empty *)
| ZeroDivisionError
| OverflowError.

(** [except (OSError, IOError, PermissionError)]: [IOError] is an alias of
    [OSError], the other three are its subclasses. *)
Definition is_OSError (e : exn) : bool :=
  match e with
  | ZeroDivisionError | OverflowError => false
  | _ => true
  end.

(** [except Exception] and a bare [except]. *)
Definition is_Exception (e : exn) : bool := true.

Inductive outcome (A : Type) : Type :=
| Returns (a : A)
| Raises (e : exn).
Arguments Returns {A} a.
Arguments Raises {A} e.

(** A pure computation that may raise, followed by another. *)
Definition and_then {A B} (r : outcome A) (k : A -> outcome B) : outcome B :=
  match r with
  | Returns a => k a
  | Raises e => Raises e
  end.

(** A computation over a state [St] that returns or raises. *)
Definition M (St A : Type) : Type := St -> outcome A * St.

Definition ret {St A} (a : A) : M St A := fun s => (Returns a, s).

Definition bind {St A B} (m : M St A) (k : A -> M St B) : M St B :=
  fun s =>
    match m s with
    | (Returns a, s') => k a s'
    | (Raises e, s') => (Raises e, s')
    end.

Definition raise {St A} (e : exn) : M St A := fun s => (Raises e, s).

(** A pure computation inside a stateful one. *)
Definition eval {St A} (r : outcome A) : M St A := fun s => (r, s).

(** [try: body except catches as e: handler e]. *)
Definition try_except {St A} (body : M St A) (catches : exn -> bool)
    (handler : exn -> M St A) : M St A :=
  fun s =>
    match body s with
    | (Raises e, s') => if catches e then handler e s' else (Raises e, s')
    | r => r
    end.

Declare Scope py_scope.
Delimit Scope py_scope with py.
Notation "x <- m ;; k" := (bind m (fun x => k))
  (at level 61, m at next level, right associativity) : py_scope.
Notation "m ;; k" := (bind m (fun _ => k))
  (at level 61, right associativity) : py_scope.
Local Open Scope py_scope.

(** [for x in l: body x]. *)
Fixpoint for_ {St A} (l : list A) (body : A -> M St unit) : M St unit :=
  match l with
  | [] => ret tt
  | x :: l' => body x ;; for_ l' body
  end.

(** ** Python floats *)

Record pyfloat := mkfloat { fsign : bool; fmag : Q }.

(** The real number a float denotes. *)
Definition fval (x : pyfloat) : Q :=
  if fsign x then Qopp (Qabs (fmag x)) else Qabs (fmag x).

Definition float_of_int (k : Z) : pyfloat :=
  mkfloat (k <? 0) (Qabs (inject_Z k)).

(** The quotients of two [int]s that a float can hold.  Python rounds the
    quotient to binary64 and raises [OverflowError] when the result would
    be [2^1024] or more, that is from [2^1024 - 2^970] on. *)
Definition FLOAT_LIMIT : Z := 2 ^ 1024 - 2 ^ 970.

Definition fits_float (a b : Z) : bool := Z.abs a <? FLOAT_LIMIT * Z.abs b.

(** [a / d] for an [int] [a] and a positive literal [d]: the divisor is
    not zero, the quotient may be too large for a float.  The quotient is
    kept exact; Python rounds it to 53 bits, which leaves it as it is when
    [a] is below [2^53] and [d] is a power of two. *)
Definition truediv_const (a : Z) (d : positive) : outcome pyfloat :=
  if fits_float a (Zpos d)
  then Returns (mkfloat (a <? 0) (Qmake (Z.abs a) d))
  else Raises OverflowError.

(** [x / d] for a float [x] and a positive literal [d]. *)
Definition fdiv_const (x : pyfloat) (d : positive) : pyfloat :=
  mkfloat (fsign x) (Qabs (fmag x) * Qmake 1 d).

(** [k * x] and [x * k] for an [int] [k] and a float [x]. *)
Definition fmul_int (k : Z) (x : pyfloat) : pyfloat :=
  mkfloat (xorb (k <? 0) (fsign x)) (Qabs (inject_Z k) * Qabs (fmag x)).

(** Nearest integer to a non-negative rational, ties to even. *)
Definition round_half_even (q : Q) : Z :=
  let n := Qnum q in
  let d := Zpos (Qden q) in
  let f := n / d in
  match (2 * (n mod d)) ?= d with
  | Lt => f
  | Gt => f + 1
  | Eq => if Z.even f then f else f + 1
  end.

(** [round(x, nd)]: the sign is kept, also on a zero result. *)
Definition py_round (x : pyfloat) (nd : nat) : pyfloat :=
  mkfloat (fsign x)
          (Qmake (round_half_even (Qabs (fmag x) * inject_Z (10 ^ Z.of_nat nd)))
                 (Z.to_pos (10 ^ Z.of_nat nd))).

(** [int(x)]: truncation toward zero. *)
Definition py_int (x : pyfloat) : Z :=
  let t := Qfloor (Qabs (fmag x)) in if fsign x then - t else t.

(** [x < k] for a float [x] and an integer literal [k]. *)
Definition flt (x : pyfloat) (k : Z) : bool :=
  negb (Qle_bool (inject_Z k) (fval x)).

(** [f"{x:.{nd}f}"]: sign, integer part, and [nd] decimals of the
    magnitude rounded half-even. *)
Definition format_f (nd : nat) (x : pyfloat) : str :=
  let h := round_half_even (Qabs (fmag x) * inject_Z (10 ^ Z.of_nat nd)) in
  (if fsign x then py "-" else []) ++
  decimal (h / 10 ^ Z.of_nat nd) ++
  match nd with
  | O => []
  | S _ => py "." ++ frac_digits nd h
  end.

(** ** Reporter *)

Module Colors.
Definition esc (s : string) : str := 27%N :: py s.
Definition RED := esc "[31m".
Definition GREEN := esc "[32m".
Definition YELLOW := esc "[33m".
Definition BLUE := esc "[34m".
Definition MAGENTA := esc "[35m".
Definition CYAN := esc "[36m".
Definition WHITE := esc "[37m".
Definition BRIGHT_RED := esc "[91m".
Definition BRIGHT_GREEN := esc "[92m".
Definition BRIGHT_YELLOW := esc "[93m".
Definition BRIGHT_BLUE := esc "[94m".
Definition BRIGHT_MAGENTA := esc "[95m".
Definition BRIGHT_CYAN := esc "[96m".
Definition BRIGHT_WHITE := esc "[97m".
Definition RESET := esc "[0m".
Definition BOLD := esc "[1m".
Definition DIM := esc "[2m".
End Colors.

Definition bytes_to_mb (bytes_size : Z) : outcome pyfloat :=
  and_then (truediv_const bytes_size (1024 * 1024))
           (fun x => Returns (py_round x 2)).

Definition bytes_to_gb (bytes_size : Z) : outcome pyfloat :=
  and_then (truediv_const bytes_size (1024 * 1024 * 1024))
           (fun x => Returns (py_round x 2)).

Definition format_size (bytes_size : Z) : outcome str :=
  if bytes_size >=? 1024 * 1024 * 1024
  then and_then (bytes_to_gb bytes_size)
                (fun x => Returns (format_f 2 x ++ py " GB"))
  else and_then (bytes_to_mb bytes_size)
                (fun x => Returns (format_f 2 x ++ py " MB")).

(** The glyphs U+2588 (full block) and U+2591 (light shade), the default
    [filled_char] and [empty_char]. *)
Definition FULL_BLOCK : N := 9608%N.
Definition LIGHT_SHADE : N := 9617%N.

Definition create_progress_bar (percentage : pyfloat) (width : Z)
    (filled_char empty_char : str) : str :=
  let filled_width := py_int (fdiv_const (fmul_int width percentage) 100) in
  let empty_width := width - filled_width in
  let color :=
    if flt percentage 25 then Colors.BRIGHT_GREEN
    else if flt percentage 50 then Colors.YELLOW
    else if flt percentage 75 then Colors.BRIGHT_YELLOW
    else Colors.BRIGHT_RED in
  let bar := color ++ str_mul filled_char filled_width ++ Colors.DIM
             ++ str_mul empty_char empty_width ++ Colors.RESET in
  py "[" ++ bar ++ py "] " ++ format_f 1 percentage ++ py "%".

(** The call with the default [filled_char] and [empty_char]. *)
Definition progress_bar (percentage : pyfloat) (width : Z) : str :=
  create_progress_bar percentage width [FULL_BLOCK] [LIGHT_SHADE].

(** ** The file system *)

Definition fspath := list string.

#[local] Set Warnings "-register-all".

(** A regular file with its size in bytes, a directory with its listing,
    an entry whose target cannot be stat'ed (a dangling link, or a file
    that vanished after the directory was listed): it is listed by its
    parent but [os.path.exists], [is_file] and [is_dir] are all false on
    it; or a live link to a directory: a symbolic link or, with
    [junction], a directory junction.  [read_only] and [in_use] make
    [unlink] and [rmdir] fail; a directory that is not [listable] refuses
    [scandir].  Of a link, [read_only] is the attribute of the link itself
    (on Windows [os.chmod] does not follow links), [listable] and [entries]
    are those of the directory it leads to, which lies outside the tree
    and is reached through the link only.  A live link to a regular file
    is a [File] of the size of its target. *)
Inductive node :=
| File (size : N) (read_only in_use : bool)
| Dir (read_only in_use listable : bool) (entries : list (string * node))
| Dangling
| DirLink (junction read_only listable : bool) (entries : list (string * node)).

(** The first entry called [name]. *)
Fixpoint assoc (name : string) (es : list (string * node)) : option node :=
  match es with
  | [] => None
  | (k, v) :: es' => if String.eqb name k then Some v else assoc name es'
  end.

(** The node a path leads to, from the root [n]. *)
Fixpoint lookup (n : node) (p : fspath) {struct p} : option node :=
  match p with
  | [] => Some n
  | c :: p' =>
      match n with
      | Dir _ _ _ es | DirLink _ _ _ es =>
          match assoc c es with
          | Some ch => lookup ch p'
          | None => None
          end
      | _ => None
      end
  end.

(** Rewrite ([Some]) or drop ([None]) the entry called [name]. *)
Fixpoint alter (f : node -> option node) (name : string)
    (es : list (string * node)) : list (string * node) :=
  match es with
  | [] => []
  | (k, v) :: es' =>
      if String.eqb name k
      then match f v with
           | Some v' => (k, v') :: es'
           | None => es'
           end
      else (k, v) :: alter f name es'
  end.

(** Rewrite or drop the node at path [p]; nothing changes when the path
    does not lead to a node. *)
Fixpoint update (p : fspath) (f : node -> option node) (n : node) {struct p}
    : node :=
  match p with
  | [] => match f n with Some n' => n' | None => n end
  | c :: p' =>
      match n with
      | Dir ro iu ls es =>
          Dir ro iu ls
              (alter (match p' with
                      | [] => f
                      | _ => fun ch => Some (update p' f ch)
                      end) c es)
      | DirLink j ro ls es =>
          DirLink j ro ls
              (alter (match p' with
                      | [] => f
                      | _ => fun ch => Some (update p' f ch)
                      end) c es)
      | _ => n
      end
  end.

(** What [print] writes, one constructor per format string of the script,
    carrying the interpolated values. *)
Inductive printed :=
| PathNotFound (folder_path : fspath)
| Cleaning (location_name : string)
| Skipped (name : string)
| ErrorAccessing (location_name : string) (e : exn)
| FilesDeleted (n : Z)
| FoldersDeleted (n : Z)
| ItemsSkipped (n : Z)
| ResultsBanner
| Blank
| Heading (title : string)
| Bar (bar : str)
| Recovered (amount : str)
| TotalRecovered (amount : str)
| SummaryHeading
| SummaryProcessed
| Efficiency (percent : str)
| SummaryComplete.

(** The file system, the standard output, and what the other processes
    of the machine do to the file system while the cleaner runs. *)
Record world := mkworld {
  fs : node;
  stdout : list printed;
  others : node -> node
}.

Definition Py := M world.

Definition set_fs (f : node -> node) (w : world) : world :=
  mkworld (f (fs w)) (stdout w) (others w).

Definition print (l : printed) : Py unit :=
  fun w => (Returns tt, mkworld (fs w) (stdout w ++ [l]) (others w)).

(** The point at which the other processes get to run: the cleaner is
    sequential, they are modelled as running once, between the deletion
    loop and the final measurement. *)
Definition others_run : Py unit :=
  fun w => (Returns tt, set_fs (others w) w).

(** *** [os] and [pathlib] primitives *)

Definition os_path_join (dirpath : fspath) (name : string) : fspath :=
  dirpath ++ [name].

Definition os_path_exists (p : fspath) : Py bool :=
  fun w =>
    (Returns match lookup (fs w) p with
             | Some (File _ _ _) | Some (Dir _ _ _ _)
             | Some (DirLink _ _ _ _) => true
             | Some Dangling | None => false
             end, w).

(** [os.path.getsize]; the size reported for a directory is never read by
    the script and is taken to be 0. *)
Definition os_path_getsize (p : fspath) : Py Z :=
  fun w =>
    match lookup (fs w) p with
    | Some (File size _ _) => (Returns (Z.of_N size), w)
    | Some (Dir _ _ _ _) | Some (DirLink _ _ _ _) => (Returns 0, w)
    | Some Dangling | None => (Raises FileNotFoundError, w)
    end.

Definition is_file (p : fspath) : Py bool :=
  fun w =>
    (Returns match lookup (fs w) p with
             | Some (File _ _ _) => true
             | _ => false
             end, w).

(** [Path.is_dir] follows links. *)
Definition is_dir (p : fspath) : Py bool :=
  fun w =>
    (Returns match lookup (fs w) p with
             | Some (Dir _ _ _ _) | Some (DirLink _ _ _ _) => true
             | _ => false
             end, w).

(** [os.path.islink]: true of a symbolic link, not of a junction. *)
Definition os_path_islink (p : fspath) : Py bool :=
  fun w =>
    (Returns match lookup (fs w) p with
             | Some (DirLink junction _ _ _) => negb junction
             | _ => false
             end, w).

Definition os_scandir (p : fspath) : Py (list string) :=
  fun w =>
    match lookup (fs w) p with
    | Some (Dir _ _ true es) | Some (DirLink _ _ true es) =>
        (Returns (map fst es), w)
    | Some (Dir _ _ false _) | Some (DirLink _ _ false _) =>
        (Raises PermissionError, w)
    | Some (File _ _ _) | Some Dangling => (Raises NotADirectoryError, w)
    | None => (Raises FileNotFoundError, w)
    end.

(** [Path(p).iterdir()], consumed by [list]. *)
Definition iterdir (p : fspath) : Py (list fspath) :=
  names <- os_scandir p ;;
  ret (map (os_path_join p) names).

(** [item.name]. *)
Definition path_name (p : fspath) : string := last p EmptyString.

Definition remove_entry (p : fspath) : Py unit :=
  fun w => (Returns tt, set_fs (update p (fun _ => None)) w).

(** [os.unlink] / [Path.unlink]: refused on a read-only or in-use file.
    On a link to a directory it removes the link, unless the link is
    read-only. *)
Definition os_unlink (p : fspath) : Py unit :=
  fun w =>
    match p, lookup (fs w) p with
    | [], _ => (Raises PermissionError, w)
    | _, None => (Raises FileNotFoundError, w)
    | _, Some (Dir _ _ _ _) => (Raises PermissionError, w)
    | _, Some (File _ ro iu) =>
        if ro || iu then (Raises PermissionError, w) else remove_entry p w
    | _, Some Dangling => remove_entry p w
    | _, Some (DirLink _ ro _ _) =>
        if ro then (Raises PermissionError, w) else remove_entry p w
    end.

(** [os.rmdir]: refused on a non-empty, read-only or in-use directory. *)
Definition os_rmdir (p : fspath) : Py unit :=
  fun w =>
    match p, lookup (fs w) p with
    | [], _ => (Raises PermissionError, w)
    | _, None => (Raises FileNotFoundError, w)
    | _, Some (Dir ro iu _ es) =>
        match es with
        | _ :: _ => (Raises OSError, w)
        | [] => if ro || iu then (Raises PermissionError, w)
                else remove_entry p w
        end
    | _, Some (File _ _ _) | _, Some Dangling => (Raises NotADirectoryError, w)
    | _, Some (DirLink _ ro _ _) =>
        if ro then (Raises PermissionError, w) else remove_entry p w
    end.

Inductive mode := S_IWRITE.

Definition clear_read_only (n : node) : option node :=
  match n with
  | File size _ iu => Some (File size false iu)
  | Dir _ iu ls es => Some (Dir false iu ls es)
  | Dangling => Some Dangling
  | DirLink j _ ls es => Some (DirLink j false ls es)
  end.

(** [os.chmod(p, stat.S_IWRITE)]: clears the read-only attribute. *)
Definition os_chmod (p : fspath) (m : mode) : Py unit :=
  fun w =>
    match lookup (fs w) p with
    | Some (File _ _ _) | Some (Dir _ _ _ _) | Some (DirLink _ _ _ _) =>
        (Returns tt, set_fs (update p clear_read_only) w)
    | Some Dangling | None => (Raises FileNotFoundError, w)
    end.

(** *** [os.walk] *)

(** A directory to [is_dir()], which follows links. *)
Definition is_dir_node (n : node) : bool :=
  match n with Dir _ _ _ _ | DirLink _ _ _ _ => true | _ => false end.

(** A subdirectory the walk goes into: with [followlinks=False] it does
    not enter a symbolic link; a junction is not a symbolic link to
    [os.path.islink] and is entered. *)
Definition walked_into (ch : node) : bool :=
  match ch with
  | Dir _ _ _ _ => true
  | DirLink junction _ _ _ => junction
  | _ => false
  end.

Definition dirnames_of (es : list (string * node)) : list string :=
  map fst (filter (fun e => is_dir_node (snd e)) es).

Definition filenames_of (es : list (string * node)) : list string :=
  map fst (filter (fun e => negb (is_dir_node (snd e))) es).

(** Top-down walk with the default [onerror=None]: a directory that
    cannot be listed yields nothing and is not an error.  The top of the
    walk is listed even when it is a link. *)
Fixpoint walk_node (dirpath : fspath) (n : node)
    : list (fspath * list string * list string) :=
  match n with
  | Dir _ _ true es | DirLink _ _ true es =>
      (dirpath, dirnames_of es, filenames_of es) ::
      (fix sub (l : list (string * node)) :=
         match l with
         | [] => []
         | (name, ch) :: l' =>
             (if walked_into ch
              then walk_node (os_path_join dirpath name) ch
              else []) ++ sub l'
         end) es
  | _ => []
  end.

(** The generator [os.walk] returns, as the [for] loop drives it: each
    resumption ends the iteration, raises, or yields a triple and waits
    in the state the loop body leaves. *)
Inductive walker :=
| StopIteration
| WalkError (e : exn)
| Yield (triple : fspath * list string * list string)
        (resume : world -> walker).

(** A generator that yields the triples of a list and then stops, or
    raises [failure]. *)
Definition walker_of (triples : list (fspath * list string * list string))
    (failure : option exn) : walker :=
  fold_right (fun triple rest => Yield triple (fun _ => rest))
             match failure with
             | Some e => WalkError e
             | None => StopIteration
             end triples.

(** The walk of the tree is the one of the tree as it is when the walk
    starts: nothing changes the tree while [get_folder_size] runs. *)
Definition os_walk (top : fspath) : Py walker :=
  fun w =>
    (Returns (walker_of match lookup (fs w) top with
                        | Some n => walk_node top n
                        | None => []
                        end None), w).

(** The three calls [get_folder_size] makes into the [os] module. *)
Record os_module := mk_os {
  path_exists : fspath -> Py bool;
  path_getsize : fspath -> Py Z;
  walk : fspath -> Py walker
}.

(** The [os] module on the tree of the world. *)
Definition tree_os : os_module := mk_os os_path_exists os_path_getsize os_walk.

(** *** Function bodies with mutable local variables *)

Definition Body (L : Type) := M (L * world).

Definition lift {L A} (m : Py A) : Body L A :=
  fun s => let (r, w') := m (snd s) in (r, (fst s, w')).

Definition locals {L} : Body L L := fun s => (Returns (fst s), s).

Definition assign {L} (f : L -> L) : Body L unit :=
  fun s => (Returns tt, (f (fst s), snd s)).

Definition run_body {L A} (init : L) (b : Body L A) : Py A :=
  fun w => let (r, s') := b (init, w) in (r, snd s').

(** ** SizeProbe *)

(** [for x in g: body x] over a generator. *)
Fixpoint for_walk {L} (g : walker)
    (body : fspath * list string * list string -> Body L unit)
    : Body L unit :=
  fun s =>
    match g with
    | StopIteration => (Returns tt, s)
    | WalkError e => (Raises e, s)
    | Yield triple resume =>
        match body triple s with
        | (Returns _, s') => for_walk (resume (snd s')) body s'
        | (Raises e, s') => (Raises e, s')
        end
    end.

(** The function, with the [os] module it calls as a parameter. *)
Definition get_folder_size_on (os : os_module) (folder_path : fspath) : Py Z :=
  run_body 0 (
    b <- lift (path_exists os folder_path) ;;
    if negb b then ret 0 else
    try_except
      (triples <- lift (walk os folder_path) ;;
       for_walk triples (fun triple =>
         let '(dirpath, dirnames, filenames) := triple in
         for_ filenames (fun filename =>
           try_except
             (let filepath := os_path_join dirpath filename in
              b <- lift (path_exists os filepath) ;;
              if b
              then size <- lift (path_getsize os filepath) ;;
                   assign (fun total_size => total_size + size)
              else ret tt)
             is_OSError (fun _ => ret tt))))
      is_OSError (fun _ => ret tt) ;;
    total_size <- locals ;;
    ret total_size).

Definition get_folder_size (folder_path : fspath) : Py Z :=
  get_folder_size_on tree_os folder_path.

(** ** Cleaner *)

Definition handle_remove_readonly (func : fspath -> Py unit) (path : fspath)
    (exc : exn) : Py unit :=
  b <- os_path_exists path ;;
  if b then os_chmod path S_IWRITE ;; func path else ret tt.

(** [shutil.rmtree(path, onerror=...)]: list the directory, remove each
    entry (recursively for a directory, with [os.unlink] for anything
    else, a link to a directory included), then the directory itself;
    every failing call is handed to [onerror] and the removal goes on
    unless [onerror] raises.  The entries and their kinds are those of the
    listing ([snapshot]). *)
Fixpoint rmtree_unsafe (snapshot : node) (path : fspath)
    (onerror : (fspath -> Py unit) -> fspath -> exn -> Py unit) {struct snapshot}
    : Py unit :=
  let scandir := fun p => _ <- os_scandir p ;; ret tt in
  match snapshot with
  | Dir _ _ _ es | DirLink _ _ _ es =>
      listed <- try_except (scandir path ;; ret true) is_OSError
                  (fun e => onerror scandir path e ;; ret false) ;;
      (if listed : bool
       then (fix each (l : list (string * node)) : Py unit :=
               match l with
               | [] => ret tt
               | (name, ch) :: l' =>
                   let fullname := os_path_join path name in
                   match ch with
                   | Dir _ _ _ _ => rmtree_unsafe ch fullname onerror
                   | _ => try_except (os_unlink fullname) is_OSError
                            (fun e => onerror os_unlink fullname e)
                   end ;;
                   each l'
               end) es
       else ret tt) ;;
      try_except (os_rmdir path) is_OSError
        (fun e => onerror os_rmdir path e)
  | _ =>
      try_except (scandir path) is_OSError
        (fun e => onerror scandir path e) ;;
      try_except (os_rmdir path) is_OSError
        (fun e => onerror os_rmdir path e)
  end.

(** [rmtree] refuses a path that is a symbolic link or a junction: the
    [OSError] it raises for it goes to [onerror] with [os.path.islink], and
    [rmtree] returns whatever [onerror] did. *)
Definition shutil_rmtree (path : fspath)
    (onerror : (fspath -> Py unit) -> fspath -> exn -> Py unit) : Py unit :=
  fun w =>
    match lookup (fs w) path with
    | Some (DirLink _ _ _ _) =>
        onerror (fun p => _ <- os_path_islink p ;; ret tt) path OSError w
    | Some n => rmtree_unsafe n path onerror w
    | None => rmtree_unsafe Dangling path onerror w
    end.

Record counters := mkcounters {
  files_deleted : Z;
  folders_deleted : Z;
  errors : Z
}.

Definition clean_temp_folder (folder_path : fspath) (location_name : string)
    : Py Z :=
  b <- os_path_exists folder_path ;;
  if negb b then print (PathNotFound folder_path) ;; ret 0 else
  print (Cleaning location_name) ;;
  initial_size <- get_folder_size folder_path ;;
  run_body (mkcounters 0 0 0) (
    aborted <- try_except
      (items <- lift (iterdir folder_path) ;;
       for_ items (fun item =>
         try_except
           (f <- lift (is_file item) ;;
            if f
            then lift (os_unlink item) ;;
                 assign (fun c => mkcounters (files_deleted c + 1)
                                             (folders_deleted c) (errors c))
            else
              d <- lift (is_dir item) ;;
              if d
              then lift (shutil_rmtree item handle_remove_readonly) ;;
                   assign (fun c => mkcounters (files_deleted c)
                                               (folders_deleted c + 1)
                                               (errors c))
              else ret tt)
           is_OSError
           (fun e =>
              lift (print (Skipped (path_name item))) ;;
              assign (fun c => mkcounters (files_deleted c)
                                          (folders_deleted c)
                                          (errors c + 1)))) ;;
       ret None)
      is_Exception
      (fun e =>
         lift (print (ErrorAccessing location_name e)) ;;
         ret (Some 0)) ;;
    match aborted with
    | Some r => ret r
    | None =>
        lift others_run ;;
        final_size <- lift (get_folder_size folder_path) ;;
        let space_freed := initial_size - final_size in
        c <- locals ;;
        lift (print (FilesDeleted (files_deleted c))) ;;
        lift (print (FoldersDeleted (folders_deleted c))) ;;
        (if errors c >? 0
         then lift (print (ItemsSkipped (errors c)))
         else ret tt) ;;
        ret space_freed
    end).

(** ** Summary *)

(** [a / b] for two [int]s: [ZeroDivisionError] for a zero divisor,
    [OverflowError] for a quotient too large for a float.  The quotient is
    kept exact. *)
Definition truediv {St} (a b : Z) : M St pyfloat :=
  if b =? 0 then raise ZeroDivisionError
  else if fits_float a b
  then ret (mkfloat (xorb (a <? 0) (b <? 0))
                    (Qabs (inject_Z a) / Qabs (inject_Z b)))
  else raise OverflowError.

Definition display_cleanup_results
    (user_temp_freed system_temp_freed user_temp_initial system_temp_initial : Z)
    : Py unit :=
  let total_freed := user_temp_freed + system_temp_freed in
  let total_initial := user_temp_initial + system_temp_initial in
  print ResultsBanner ;;
  print Blank ;;
  user_percentage <-
    (if user_temp_initial >? 0
     then q <- truediv user_temp_freed user_temp_initial ;; ret (fmul_int 100 q)
     else ret (float_of_int 0)) ;;
  print (Heading "User Temp Folder:") ;;
  print (Bar (progress_bar user_percentage 30)) ;;
  amount <- eval (format_size user_temp_freed) ;;
  print (Recovered amount) ;;
  print Blank ;;
  system_percentage <-
    (if system_temp_initial >? 0
     then q <- truediv system_temp_freed system_temp_initial ;;
          ret (fmul_int 100 q)
     else ret (float_of_int 0)) ;;
  print (Heading "System Temp Folder:") ;;
  print (Bar (progress_bar system_percentage 30)) ;;
  amount <- eval (format_size system_temp_freed) ;;
  print (Recovered amount) ;;
  print Blank ;;
  total_percentage <-
    (if total_initial >? 0
     then q <- truediv total_freed total_initial ;; ret (fmul_int 100 q)
     else ret (float_of_int 0)) ;;
  print (Heading "Total Cleanup:") ;;
  print (Bar (progress_bar total_percentage 40)) ;;
  amount <- eval (format_size total_freed) ;;
  print (TotalRecovered amount) ;;
  print Blank ;;
  print SummaryHeading ;;
  print SummaryProcessed ;;
  print (Efficiency (format_f 1 total_percentage)) ;;
  print SummaryComplete.

(** ** Vocabulary of the properties: formatting *)

(** A sign, an integer part and two decimals: the text of a number given
    in hundredths. *)
Definition two_decimals (negative : bool) (h : Z) : str :=
  (if negative then py "-" else []) ++ decimal (h / 100) ++ py "." ++
  [digit (h / 10 mod 10); digit (h mod 10)].

Definition ascii_only (s : str) : Prop := Forall (fun c => (c < 128)%N) s.

(** The percentage shown for a target, as an exact rational. *)
Definition summary_percentage (freed initial : Z) : Q :=
  if initial >? 0 then inject_Z freed / inject_Z initial * 100 else 0.

(** The expression [(freed / initial * 100) if initial > 0 else 0] of the
    summary. *)
Definition percentage_of {St} (freed initial : Z) : M St pyfloat :=
  if initial >? 0
  then q <- truediv freed initial ;; ret (fmul_int 100 q)
  else ret (float_of_int 0).

(** ** Induction on trees *)

Section node_induction.
Variable P : node -> Prop.
Hypothesis P_File : forall size ro iu, P (File size ro iu).
Hypothesis P_Dir : forall ro iu ls es,
    Forall (fun e => P (snd e)) es -> P (Dir ro iu ls es).
Hypothesis P_Dangling : P Dangling.
Hypothesis P_DirLink : forall j ro ls es,
    Forall (fun e => P (snd e)) es -> P (DirLink j ro ls es).

Fixpoint node_nested_ind (n : node) : P n :=
  match n with
  | File size ro iu => P_File size ro iu
  | Dir ro iu ls es =>
      P_Dir ro iu ls es
        ((fix all (l : list (string * node)) : Forall (fun e => P (snd e)) l :=
            match l with
            | [] => Forall_nil _
            | e :: l' => Forall_cons e (node_nested_ind (snd e)) (all l')
            end) es)
  | Dangling => P_Dangling
  | DirLink j ro ls es =>
      P_DirLink j ro ls es
        ((fix all (l : list (string * node)) : Forall (fun e => P (snd e)) l :=
            match l with
            | [] => Forall_nil _
            | e :: l' => Forall_cons e (node_nested_ind (snd e)) (all l')
            end) es)
  end.
End node_induction.

(** ** Vocabulary of the properties: sizes *)

(** The bytes one listed name adds to the total. *)
Definition entry_size (root : node) (filepath : fspath) : Z :=
  match lookup root filepath with
  | Some (File size _ _) => Z.of_N size
  | _ => 0
  end.

Definition triple_bytes (root : node)
    (triple : fspath * list string * list string) : Z :=
  let '(dirpath, _, filenames) := triple in
  fold_right (fun filename acc => entry_size root (os_path_join dirpath filename) + acc)
             0 filenames.

Definition walk_sum (root : node)
    (triples : list (fspath * list string * list string)) : Z :=
  fold_right (fun triple acc => triple_bytes root triple + acc) 0 triples.

(** An [os] module that answers by path, whatever the state: [present]
    for [os.path.exists], [size] for [os.path.getsize], and a walk that
    yields [triples] and then stops or raises [failure]. *)
Definition scripted (present : fspath -> bool) (size : fspath -> outcome Z)
    (triples : list (fspath * list string * list string))
    (failure : option exn) : os_module :=
  mk_os (fun p => ret (present p))
        (fun p => eval (size p))
        (fun _ => ret (walker_of triples failure)).

(** What one file name of a scripted walk adds to the total: its size
    when it is present and the lookup returns, nothing otherwise. *)
Definition scripted_size (present : fspath -> bool) (size : fspath -> outcome Z)
    (filepath : fspath) : Z :=
  if present filepath
  then match size filepath with
       | Returns bytes => bytes
       | Raises _ => 0
       end
  else 0.

Definition scripted_total (present : fspath -> bool) (size : fspath -> outcome Z)
    (triples : list (fspath * list string * list string)) : Z :=
  fold_right
    (fun triple acc =>
       let '(dirpath, _, filenames) := triple in
       fold_right (fun filename acc' =>
                     scripted_size present size (os_path_join dirpath filename)
                     + acc') 0 filenames + acc)
    0 triples.

(** Every exception a generator may raise is in the class [ok]. *)
Fixpoint walker_raises_only (ok : exn -> bool) (g : walker) : Prop :=
  match g with
  | StopIteration => True
  | WalkError e => ok e = true
  | Yield _ resume => forall w, walker_raises_only ok (resume w)
  end.

(** The calls fail as the [os] module does: [os.path.exists] returns
    (it answers [False] where the lookup fails), [os.path.getsize] and
    [os.walk] raise exceptions of the class [OSError] only. *)
Definition raises_OSError_only (os : os_module) : Prop :=
  (forall p w, exists b w', path_exists os p w = (Returns b, w')) /\
  (forall p w e w',
      path_getsize os p w = (Raises e, w') -> is_OSError e = true) /\
  (forall p w,
      match walk os p w with
      | (Returns g, _) => walker_raises_only is_OSError g
      | (Raises e, _) => is_OSError e = true
      end).

(** The value [get_folder_size] returns, as a function of the tree. *)
Definition folder_bytes (root : node) (folder_path : fspath) : Z :=
  match lookup root folder_path with
  | Some n => walk_sum root (walk_node folder_path n)
  | None => 0
  end.

(** Sum of [f] over the nodes of a listing. *)
Definition sum_entries (f : node -> Z) (es : list (string * node)) : Z :=
  fold_right (fun e acc => f (snd e) + acc) 0 es.

(** A child that is a symbolic link to a directory: the walk of its
    parent lists it and does not enter it. *)
Definition symlink (ch : node) : bool :=
  match ch with
  | DirLink false _ _ _ => true
  | _ => false
  end.

(** The bytes of the regular files the walk reaches from [n]: a directory
    that cannot be listed hides its subtree, and so does a symbolic link
    below the top. *)
Fixpoint reached_bytes (n : node) : Z :=
  match n with
  | File size _ _ => Z.of_N size
  | Dir _ _ true es | DirLink _ _ true es =>
      (fix sum (l : list (string * node)) : Z :=
         match l with
         | [] => 0
         | (_, ch) :: l' =>
             (if symlink ch then 0 else reached_bytes ch) + sum l'
         end) es
  | Dir _ _ false _ | DirLink _ _ false _ => 0
  | Dangling => 0
  end.

(** What a child adds to the walk of its parent. *)
Definition reached_in (ch : node) : Z :=
  if symlink ch then 0 else reached_bytes ch.

(** The bytes of all the regular files of a tree; what lies behind a
    symbolic link below the top is not part of the tree. *)
Fixpoint tree_bytes (n : node) : Z :=
  match n with
  | File size _ _ => Z.of_N size
  | Dir _ _ _ es | DirLink _ _ _ es =>
      (fix sum (l : list (string * node)) : Z :=
         match l with
         | [] => 0
         | (_, ch) :: l' =>
             (if symlink ch then 0 else tree_bytes ch) + sum l'
         end) es
  | Dangling => 0
  end.

Definition tree_in (ch : node) : Z :=
  if symlink ch then 0 else tree_bytes ch.

(** Every directory of the tree can be listed. *)
Fixpoint all_listable (n : node) : bool :=
  match n with
  | Dir _ _ ls es | DirLink _ _ ls es =>
      ls && (fix all (l : list (string * node)) : bool :=
               match l with
               | [] => true
               | (_, ch) :: l' => (symlink ch || all_listable ch) && all l'
               end) es
  | _ => true
  end.

Fixpoint distinct (l : list string) : bool :=
  match l with
  | [] => true
  | x :: l' => negb (existsb (String.eqb x) l') && distinct l'
  end.

(** No directory of the tree lists a name twice. *)
Fixpoint unique_names (n : node) : bool :=
  match n with
  | Dir _ _ _ es | DirLink _ _ _ es =>
      distinct (map fst es) &&
      (fix all (l : list (string * node)) : bool :=
         match l with
         | [] => true
         | (_, ch) :: l' => unique_names ch && all l'
         end) es
  | _ => true
  end.

(** The triples [os.walk] yields below a listable directory. *)
Definition walk_entries (dirpath : fspath) (es : list (string * node))
    : list (fspath * list string * list string) :=
  flat_map (fun e => if walked_into (snd e)
                     then walk_node (os_path_join dirpath (fst e)) (snd e)
                     else []) es.

(** ** Vocabulary of the properties: updates of the tree *)

(** Replace ([Some]) or remove ([None]) the subtree at [p]. *)
Definition put (p : fspath) (v : option node) (root : node) : node :=
  update p (fun _ => v) root.

(** An entry rewritten or removed at the head of a listing. *)
Definition keep (name : string) (remains : option node)
    (rest : list (string * node)) : list (string * node) :=
  match remains with
  | Some n => (name, n) :: rest
  | None => rest
  end.

Definition with_fs (root : node) (w : world) : world :=
  mkworld root (stdout w) (others w).

(** A world whose target [p] has become [target] and whose output grew
    by [out]. *)
Definition target_world (p : fspath) (target : node) (out : list printed)
    (w : world) : world :=
  mkworld (put p (Some target) (fs w)) (stdout w ++ out) (others w).

(** ** Vocabulary of the properties: recursive removal *)

(** The result of removing an entry from inside [rmtree] with
    [handle_remove_readonly]: how the call ends, and what is left of the
    entry ([None] when it is gone).  A link met inside the tree is
    unlinked, not followed. *)
Fixpoint rm_result (n : node) : outcome unit * option node :=
  match n with
  | File size ro iu =>
      if iu then (Raises PermissionError, Some (File size false iu))
      else (Returns tt, None)
  | Dangling => (Returns tt, None)
  | DirLink _ _ _ _ => (Returns tt, None)
  | Dir ro iu false es => (Raises PermissionError, Some (Dir false iu false es))
  | Dir ro iu true es =>
      match (fix each (l : list (string * node))
               : outcome unit * list (string * node) :=
               match l with
               | [] => (Returns tt, [])
               | (name, ch) :: l' =>
                   match rm_result ch with
                   | (Returns _, _) => each l'
                   | (Raises e, remains) => (Raises e, keep name remains l')
                   end
               end) es with
      | (Raises e, es') => (Raises e, Some (Dir ro iu true es'))
      | (Returns _, _) =>
          if iu then (Raises PermissionError, Some (Dir false iu true []))
          else (Returns tt, None)
      end
  end.

Fixpoint rm_entries (l : list (string * node))
    : outcome unit * list (string * node) :=
  match l with
  | [] => (Returns tt, [])
  | (name, ch) :: l' =>
      match rm_result ch with
      | (Returns _, _) => rm_entries l'
      | (Raises e, remains) => (Raises e, keep name remains l')
      end
  end.

(** The loop of [rmtree_unsafe] over the listing. *)
Definition rmtree_entries (path : fspath)
    (onerror : (fspath -> Py unit) -> fspath -> exn -> Py unit)
    : list (string * node) -> Py unit :=
  fix each (l : list (string * node)) : Py unit :=
    match l with
    | [] => ret tt
    | (name, ch) :: l' =>
        let fullname := os_path_join path name in
        match ch with
        | Dir _ _ _ _ => rmtree_unsafe ch fullname onerror
        | _ => try_except (os_unlink fullname) is_OSError
                 (fun e => onerror os_unlink fullname e)
        end ;;
        each l'
    end.

(** [rmtree] with the handler removes the whole tree: every directory can
    be listed and nothing is in use (a read-only attribute is cleared by
    the handler). *)
Fixpoint tree_removable (n : node) : bool :=
  match n with
  | File _ _ iu => negb iu
  | Dangling => true
  | DirLink _ _ _ _ => true
  | Dir _ iu ls es =>
      ls && (fix all (l : list (string * node)) : bool :=
               match l with
               | [] => true
               | (_, ch) :: l' => tree_removable ch && all l'
               end) es && negb iu
  end.

(** ** Vocabulary of the properties: the deletion loop *)

(** The body of the loop of [clean_temp_folder]. *)
Definition clean_item (item : fspath) : Body counters unit :=
  try_except
    (f <- lift (is_file item) ;;
     if f
     then lift (os_unlink item) ;;
          assign (fun c => mkcounters (files_deleted c + 1)
                                      (folders_deleted c) (errors c))
     else
       d <- lift (is_dir item) ;;
       if d
       then lift (shutil_rmtree item handle_remove_readonly) ;;
            assign (fun c => mkcounters (files_deleted c)
                                        (folders_deleted c + 1)
                                        (errors c))
       else ret tt)
    is_OSError
    (fun e =>
       lift (print (Skipped (path_name item))) ;;
       assign (fun c => mkcounters (files_deleted c)
                                   (folders_deleted c)
                                   (errors c + 1))).

(** One iteration, on the listing of the target directory: the listing
    afterwards, the counters, and what was printed. *)
Definition item_step (name : string)
    (st : list (string * node) * counters * list printed)
    : list (string * node) * counters * list printed :=
  let '(es, c, out) := st in
  match assoc name es with
  | Some (File _ ro iu) =>
      if ro || iu
      then (es,
            mkcounters (files_deleted c) (folders_deleted c) (errors c + 1),
            out ++ [Skipped name])
      else (alter (fun _ => None) name es,
            mkcounters (files_deleted c + 1) (folders_deleted c) (errors c),
            out)
  | Some (Dir ro iu ls sub) =>
      match rm_result (Dir ro iu ls sub) with
      | (Returns _, _) =>
          (alter (fun _ => None) name es,
           mkcounters (files_deleted c) (folders_deleted c + 1) (errors c),
           out)
      | (Raises _, remains) =>
          (alter (fun _ => remains) name es,
           mkcounters (files_deleted c) (folders_deleted c) (errors c + 1),
           out ++ [Skipped name])
      end
  | Some (DirLink j ro ls sub) =>
      (alter (fun _ => Some (DirLink j false ls sub)) name es,
       mkcounters (files_deleted c) (folders_deleted c + 1) (errors c),
       out)
  | Some Dangling | None => (es, c, out)
  end.

Definition items_loop (names : list string)
    (st : list (string * node) * counters * list printed)
    : list (string * node) * counters * list printed :=
  fold_left (fun st name => item_step name st) names st.

(** The lines printed after the loop. *)
Definition report (c : counters) : list printed :=
  [FilesDeleted (files_deleted c); FoldersDeleted (folders_deleted c)] ++
  (if errors c >? 0 then [ItemsSkipped (errors c)] else []).

(** A child that is a file and whose [unlink] succeeds. *)
Definition unlinked (ch : node) : bool :=
  match ch with
  | File _ ro iu => negb (ro || iu)
  | _ => false
  end.

(** A child that is a directory and whose removal succeeds. *)
Definition tree_removed (ch : node) : bool :=
  match ch with
  | Dir _ _ _ _ => tree_removable ch
  | _ => false
  end.

(** A child that is a link to a directory: [rmtree] refuses it, the
    handler takes the error, and the child stays. *)
Definition link_refused (ch : node) : bool :=
  match ch with
  | DirLink _ _ _ _ => true
  | _ => false
  end.

(** A child that is a file or a directory and whose removal raises. *)
Definition removal_fails (ch : node) : bool :=
  match ch with
  | File _ ro iu => ro || iu
  | Dir _ _ _ _ => negb (tree_removable ch)
  | Dangling | DirLink _ _ _ _ => false
  end.

(** A child that is neither a file nor a directory. *)
Definition untargeted (ch : node) : bool :=
  match ch with
  | Dangling => true
  | _ => false
  end.

(** What an iteration leaves of a child. *)
Definition left_over (ch : node) : option node :=
  match ch with
  | File _ ro iu => if ro || iu then Some ch else None
  | Dir _ _ _ _ => snd (rm_result ch)
  | Dangling => Some Dangling
  | DirLink j _ ls es => Some (DirLink j false ls es)
  end.

Definition leftovers (es : list (string * node)) : list (string * node) :=
  fold_right (fun e acc => keep (fst e) (left_over (snd e)) acc) [] es.

(** The number of children of a listing that satisfy [f]. *)
Definition count (f : node -> bool) (es : list (string * node)) : Z :=
  sum_entries (fun n => if f n then 1 else 0) es.

Definition skipped_lines (es : list (string * node)) : list printed :=
  map (fun e => Skipped (fst e)) (filter (fun e => removal_fails (snd e)) es).

(** ** Example trees *)

Definition plain (size : N) : node := File size false false.

Definition folder (es : list (string * node)) : node := Dir false false true es.

(** A volume whose only entry is the target directory [Temp]. *)
Definition volume (target : node) : node := folder [("Temp"%string, target)].

Definition Temp : fspath := ["Temp"%string].

(** A world in which no other process touches the file system. *)
Definition quiet (root : node) : world := mkworld root [] (fun n => n).

Definition three_files : node :=
  folder [("a.tmp"%string, plain 10); ("b.tmp"%string, plain 20);
          ("c.log"%string, plain 30)].

(** A subdirectory that cannot be listed, holding a 5-byte file. *)
Definition hidden_file : node :=
  folder [("locked"%string,
           Dir false false false [("secret.bin"%string, plain 5)])].

(** A listing in which [b.tmp] vanished between enumeration and lookup. *)
Definition vanished_file : node :=
  folder [("a.tmp"%string, plain 10); ("b.tmp"%string, Dangling);
          ("c.log"%string, plain 30)].

Definition one_file : node := folder [("a.tmp"%string, plain 10)].

Definition two_files : node :=
  folder [("a.tmp"%string, plain 5); ("b.tmp"%string, plain 5)].

(** A listing with a dangling link: neither a file nor a directory. *)
Definition stale_link : node := folder [("stale.lnk"%string, Dangling)].

(** A listing with a read-only junction to a directory that holds a
    7-byte file, next to a plain file. *)
Definition linked_folder : node :=
  folder [("a.tmp"%string, plain 10);
          ("elsewhere"%string,
           DirLink true true true [("x.bin"%string, plain 7)])].

(** Two files, the second one in use, and a subdirectory. *)
Definition one_locked : node :=
  folder [("a.tmp"%string, plain 10);
          ("locked.tmp"%string, File 20 false true);
          ("cache"%string, folder [("x.bin"%string, File 7 true false)])].

(** Another process that writes a 100-byte file into [Temp]. *)
Definition late_writer (root : node) : node :=
  update Temp
    (fun t => match t with
              | Dir ro iu ls es =>
                  Some (Dir ro iu ls (es ++ [("late.tmp"%string, plain 100)]))
              | _ => Some t
              end) root.

Definition busy (root : node) : world := mkworld root [] late_writer.

(** ** Vocabulary of the properties: paths *)

(** [p] is a prefix of [q]: [q] is [p] or lies below it. *)
Fixpoint prefixb (p q : fspath) : bool :=
  match p, q with
  | [], _ => true
  | _ :: _, [] => false
  | c :: p', d :: q' => String.eqb c d && prefixb p' q'
  end.

(** An [os] module for which [b.tmp] vanishes between [os.path.exists]
    and [os.path.getsize], and whose walk fails after the first
    directory. *)
Definition racing_os : os_module :=
  scripted (fun _ => true)
           (fun p => if prefixb ["Temp"%string; "b.tmp"%string] p
                     then Raises FileNotFoundError
                     else Returns 10)
           [(Temp, [], ["a.tmp"%string; "b.tmp"%string; "c.log"%string])]
           (Some PermissionError).

(** ** Vocabulary of the properties: measurements *)

(** The value a call of [get_folder_size] returns. *)
Definition measured (folder_path : fspath) (w : world) : Z :=
  match fst (get_folder_size folder_path w) with
  | Returns total_size => total_size
  | Raises _ => 0
  end.

(** What one entry of a directory adds to its size: the bytes of a file,
    the measured size of a subdirectory or of a junction, nothing for a
    symbolic link to a directory. *)
Definition child_bytes (folder_path : fspath) (w : world)
    (e : string * node) : Z :=
  match snd e with
  | File size _ _ => Z.of_N size
  | Dir _ _ _ _ | DirLink true _ _ _ =>
      measured (os_path_join folder_path (fst e)) w
  | DirLink false _ _ _ => 0
  | Dangling => 0
  end.

(** ** Vocabulary of the properties: bars *)

(** The number of filled and empty glyphs of a bar. *)
Definition glyphs (bar : str) : nat :=
  (count_occ N.eq_dec bar FULL_BLOCK + count_occ N.eq_dec bar LIGHT_SHADE)%nat.

(** ** System information *)

(** What the [try] block of [get_disk_usage] meets on the machine:
    [import psutil] and [psutil.disk_usage('C:')] are not part of the
    script.  Either the call returns the three byte counts, or the import
    raises [ImportError], or something else is raised. *)
Inductive psutil :=
| Usage (total used free : Z)
| ImportError
| OtherError.

(** The lines [get_disk_usage] and [display_system_info] print. *)
Inductive info_line :=
| ToolBanner
| InfoBlank
| PsutilNote
| DriveHeading
| DriveBar (bar : str)
| DriveUsed (used total : str)
| DriveFree (free : str).

(** These two functions only print: their state is the terminal. *)
Definition Info := M (list info_line).

Definition say (l : info_line) : Info unit :=
  fun out => (Returns tt, out ++ [l]).

Definition get_disk_usage (machine : psutil) : Info (Z * Z * Z) :=
  match machine with
  | Usage total used free => ret (total, used, free)
  | ImportError => say PsutilNote ;; ret (0, 0, 0)
  | OtherError => ret (0, 0, 0)
  end.

Definition display_system_info (machine : psutil) : Info unit :=
  say ToolBanner ;;
  say InfoBlank ;;
  usage <- get_disk_usage machine ;;
  let '(total_disk, used_disk, free_disk) := usage in
  if total_disk >? 0
  then
    q <- truediv used_disk total_disk ;;
    let used_percentage := fmul_int 100 q in
    say DriveHeading ;;
    say (DriveBar (progress_bar used_percentage 30)) ;;
    used <- eval (format_size used_disk) ;;
    total <- eval (format_size total_disk) ;;
    say (DriveUsed used total) ;;
    free <- eval (format_size free_disk) ;;
    say (DriveFree free) ;;
    say InfoBlank
  else ret tt.

(* ================================================================== *)
(** * Part II: properties                                              *)
(* ================================================================== *)

(** ** Running computations *)

Lemma bind_returns {St A B} (m : M St A) (k : A -> M St B) (s s' : St) (a : A) :
  m s = (Returns a, s') -> bind m k s = k a s'.
Proof. intros H. unfold bind. rewrite H. reflexivity. Qed.

Lemma bind_raises {St A B} (m : M St A) (k : A -> M St B) (s s' : St) (e : exn) :
  m s = (Raises e, s') -> bind m k s = (Raises e, s').
Proof. intros H. unfold bind. rewrite H. reflexivity. Qed.

Lemma try_returns {St A} (m : M St A) c h (s s' : St) (a : A) :
  m s = (Returns a, s') -> try_except m c h s = (Returns a, s').
Proof. intros H. unfold try_except. rewrite H. reflexivity. Qed.

Lemma try_caught {St A} (m : M St A) c h (s s' : St) (e : exn) :
  m s = (Raises e, s') -> c e = true -> try_except m c h s = h e s'.
Proof. intros H Hc. unfold try_except. rewrite H, Hc. reflexivity. Qed.

Lemma print_then {A} (l : printed) (k : Py A) (w : world) :
  (print l ;; k) w = k (mkworld (fs w) (stdout w ++ [l]) (others w)).
Proof. reflexivity. Qed.

(** ** Reporter: rounding and formatting *)

Lemma round_half_even_bounds (q : Q) :
  0 <= Qnum q ->
  0 <= round_half_even q /\
  Z.abs (2 * Qnum q - 2 * round_half_even q * Zpos (Qden q)) <= Zpos (Qden q).
Proof.
  intros Hn. unfold round_half_even.
  set (n := Qnum q) in *. set (d := Zpos (Qden q)).
  assert (Hd : 0 < d) by (unfold d; lia).
  pose proof (Z.div_mod n d ltac:(lia)) as Hdm.
  pose proof (Z.mod_pos_bound n d Hd) as Hm.
  assert (Hf : 0 <= n / d) by (apply Z.div_pos; lia).
  destruct (Z.compare_spec (2 * (n mod d)) d) as [E|E|E].
  - destruct (Z.even (n / d)); split; try lia; nia.
  - split; [lia | nia].
  - split; [lia | nia].
Qed.

Lemma round_half_even_exact (h : Z) (d : positive) :
  round_half_even (Qabs (Qmake h d) * inject_Z (Zpos d)) = Z.abs h.
Proof.
  unfold round_half_even. cbn [Qabs Qmult Qnum Qden inject_Z].
  rewrite Pos.mul_1_r, Z.div_mul, Z.mod_mul by lia.
  reflexivity.
Qed.

(** The text of [round(x, 2)] printed with two decimals, for the quotient
    [x] of [n] by [d]. *)
Lemma format_round_2 (n : Z) (d : positive) :
  exists h,
    0 <= h /\
    Z.abs (200 * Z.abs n - 2 * h * Zpos d) <= Zpos d /\
    format_f 2 (py_round (mkfloat (n <? 0) (Qmake (Z.abs n) d)) 2)
    = two_decimals (n <? 0) h.
Proof.
  set (q := (Qabs (Qmake (Z.abs n) d) * inject_Z (10 ^ Z.of_nat 2))%Q).
  assert (Hnum : Qnum q = Z.abs n * 100).
  { unfold q. cbn [Qabs Qmult Qnum Qden inject_Z].
    rewrite Z.abs_idemp. reflexivity. }
  assert (Hden : Qden q = d).
  { unfold q. cbn [Qabs Qmult Qnum Qden inject_Z]. apply Pos.mul_1_r. }
  destruct (round_half_even_bounds q) as [H0 Hb].
  { rewrite Hnum. lia. }
  rewrite Hnum, Hden in Hb.
  exists (round_half_even q). split; [exact H0 |]. split.
  - lia.
  - unfold format_f, py_round, two_decimals.
    cbn [fsign fmag].
    change (Z.to_pos (10 ^ Z.of_nat 2)) with 100%positive.
    change (10 ^ Z.of_nat 2) with (Zpos 100).
    rewrite round_half_even_exact.
    fold q. change (inject_Z (Zpos 100)) with (inject_Z (10 ^ Z.of_nat 2)).
    fold q. rewrite (Z.abs_eq _ H0).
    cbn [frac_digits]. change (10 ^ Z.of_nat 1) with 10.
    change (10 ^ Z.of_nat 0) with 1. rewrite Z.div_1_r. reflexivity.
Qed.

(** ** Reporter: the range of a float *)

Lemma FLOAT_LIMIT_large : 2 ^ 1023 < FLOAT_LIMIT.
Proof. vm_compute. reflexivity. Qed.

Lemma fits_float_spec (a b : Z) :
  fits_float a b = (Z.abs a <? (2 ^ 1024 - 2 ^ 970) * Z.abs b).
Proof. reflexivity. Qed.

(** A quotient of magnitude at most 1 fits. *)
Lemma fits_float_ratio (a b : Z) :
  b <> 0 -> Z.abs a <= Z.abs b -> fits_float a b = true.
Proof.
  intros Hb Hab. unfold fits_float. apply Z.ltb_lt.
  pose proof FLOAT_LIMIT_large as HL.
  assert (H2 : 2 <= 2 ^ 1023) by (vm_compute; discriminate).
  remember FLOAT_LIMIT as L. remember (2 ^ 1023) as B. nia.
Qed.

(** A dividend below [2^1023] fits, whatever the divisor. *)
Lemma fits_float_bounded (a b : Z) :
  b <> 0 -> Z.abs a < 2 ^ 1023 -> fits_float a b = true.
Proof.
  intros Hb Ha. unfold fits_float. apply Z.ltb_lt.
  pose proof FLOAT_LIMIT_large as HL.
  remember FLOAT_LIMIT as L. remember (2 ^ 1023) as B. nia.
Qed.

Lemma small_fits (n : Z) (d : positive) :
  Z.abs n < 2 ^ 53 -> fits_float n (Zpos d) = true.
Proof.
  intros Hn. apply fits_float_bounded; [discriminate |].
  assert (H : 2 ^ 53 < 2 ^ 1023) by (vm_compute; reflexivity).
  remember (2 ^ 53) as S. remember (2 ^ 1023) as B. lia.
Qed.

(** [format_size], by unit and by range. *)
Lemma format_size_cases (n : Z) :
  format_size n =
  if n >=? 1024 * 1024 * 1024
  then if fits_float n (Zpos (1024 * 1024 * 1024))
       then Returns (format_f 2 (py_round
                       (mkfloat (n <? 0)
                                (Qmake (Z.abs n) (1024 * 1024 * 1024))) 2)
                     ++ py " GB")
       else Raises OverflowError
  else if fits_float n (Zpos (1024 * 1024))
       then Returns (format_f 2 (py_round
                       (mkfloat (n <? 0) (Qmake (Z.abs n) (1024 * 1024))) 2)
                     ++ py " MB")
       else Raises OverflowError.
Proof.
  unfold format_size, bytes_to_gb, bytes_to_mb, truediv_const.
  destruct (n >=? 1024 * 1024 * 1024).
  - destruct (fits_float n (Zpos (1024 * 1024 * 1024))); reflexivity.
  - destruct (fits_float n (Zpos (1024 * 1024))); reflexivity.
Qed.

Lemma format_size_raises (n : Z) (e : exn) :
  format_size n = Raises e -> e = OverflowError.
Proof.
  rewrite format_size_cases.
  destruct (n >=? 1024 * 1024 * 1024).
  - destruct (fits_float n (Zpos (1024 * 1024 * 1024))); congruence.
  - destruct (fits_float n (Zpos (1024 * 1024))); congruence.
Qed.

(** ** Reporter: sizes *)

(** C7 (as stated) fails: a byte count whose number of GiB is beyond the
    range of a float is not rendered at all, the division raises. *)
Lemma format_size_huge_raises :
  10 ^ 400 >= 1024 * 1024 * 1024 /\
  format_size (10 ^ 400) = Raises OverflowError.
Proof. split; [vm_compute; discriminate | vm_compute; reflexivity]. Qed.

(** C7 (amended). A byte count below 1 GiB is rendered in MB and one at or
    above 1 GiB in GB, in 1024-based units ([2^20], [2^30] bytes) and
    always with exactly two decimals, as long as its number of units is in
    the range of a float (below [2^1024 - 2^970]); beyond that range the
    call raises [OverflowError].  The number printed is the count in the
    unit up to half a hundredth and one part in [2^52] (the quotient is
    rounded to a float); below [2^53] bytes it is the count in the unit
    rounded to the nearest hundredth.  500 MiB gives ["500.00 MB"] and
    2 GiB gives ["2.00 GB"]. *)
Theorem format_size_units (n : Z) :
  let giga := n >=? 1024 * 1024 * 1024 in
  let unit := if giga then 2 ^ 30 else 2 ^ 20 in
  (if Z.abs n <? (2 ^ 1024 - 2 ^ 970) * unit
   then exists h,
       0 <= h /\
       2 ^ 52 * Z.abs (200 * Z.abs n - 2 * h * unit)
       <= 2 ^ 52 * unit + 200 * Z.abs n /\
       (Z.abs n < 2 ^ 53 ->
        Z.abs (200 * Z.abs n - 2 * h * unit) <= unit) /\
       format_size n =
         Returns ((if n <? 0 then py "-" else []) ++ decimal (h / 100) ++
                  py "." ++ [digit (h / 10 mod 10); digit (h mod 10)] ++
                  (if giga then py " GB" else py " MB"))
   else format_size n = Raises OverflowError) /\
  format_size (500 * 1024 * 1024) = Returns (py "500.00 MB") /\
  format_size (2 * 1024 * 1024 * 1024) = Returns (py "2.00 GB").
Proof.
  cbv zeta. split; [| split; vm_compute; reflexivity].
  rewrite format_size_cases.
  destruct (n >=? 1024 * 1024 * 1024).
  - rewrite fits_float_spec.
    change (Z.abs (Zpos (1024 * 1024 * 1024))) with (2 ^ 30).
    destruct (Z.abs n <? (2 ^ 1024 - 2 ^ 970) * 2 ^ 30); [| reflexivity].
    destruct (format_round_2 n (1024 * 1024 * 1024)) as (h & H0 & Hb & E).
    exists h. rewrite E. unfold two_decimals.
    repeat rewrite <- app_assoc.
    split; [exact H0 |]. split; [| split; [intros _; exact Hb | reflexivity]].
    change (Zpos (1024 * 1024 * 1024)) with (2 ^ 30) in Hb. lia.
  - rewrite fits_float_spec.
    change (Z.abs (Zpos (1024 * 1024))) with (2 ^ 20).
    destruct (Z.abs n <? (2 ^ 1024 - 2 ^ 970) * 2 ^ 20); [| reflexivity].
    destruct (format_round_2 n (1024 * 1024)) as (h & H0 & Hb & E).
    exists h. rewrite E. unfold two_decimals.
    repeat rewrite <- app_assoc.
    split; [exact H0 |]. split; [| split; [intros _; exact Hb | reflexivity]].
    change (Zpos (1024 * 1024)) with (2 ^ 20) in Hb. lia.
Qed.

(** C10 (as stated) fails: [format_size] is not total over the negative
    integers, a count whose number of MiB is beyond the range of a float
    makes the division raise. *)
Lemma format_size_negative_huge_raises :
  - 10 ^ 400 < 0 /\ format_size (- 10 ^ 400) = Raises OverflowError.
Proof. split; [vm_compute; reflexivity | vm_compute; reflexivity]. Qed.

(** C10 (amended). A negative byte count never takes the GB branch.  When
    its number of MiB is in the range of a float it is rendered as a minus
    sign, a number with two decimals and [" MB"] (the magnitude in MiB up
    to half a hundredth and one part in [2^52], the nearest hundredth
    below [2^53] bytes; the sign is kept even when the number rounds to
    zero); beyond that range the call raises [OverflowError]. *)
Theorem format_size_negative (n : Z) :
  n < 0 ->
  if Z.abs n <? (2 ^ 1024 - 2 ^ 970) * 2 ^ 20
  then exists h,
      0 <= h /\
      2 ^ 52 * Z.abs (200 * Z.abs n - 2 * h * 2 ^ 20)
      <= 2 ^ 52 * 2 ^ 20 + 200 * Z.abs n /\
      (Z.abs n < 2 ^ 53 ->
       Z.abs (200 * Z.abs n - 2 * h * 2 ^ 20) <= 2 ^ 20) /\
      format_size n =
        Returns (py "-" ++ decimal (h / 100) ++ py "." ++
                 [digit (h / 10 mod 10); digit (h mod 10)] ++ py " MB")
  else format_size n = Raises OverflowError.
Proof.
  intros Hn. rewrite format_size_cases.
  replace (n >=? 1024 * 1024 * 1024) with false
    by (symmetry; rewrite Z.geb_leb; apply Z.leb_gt; lia).
  rewrite fits_float_spec.
  change (Z.abs (Zpos (1024 * 1024))) with (2 ^ 20).
  destruct (Z.abs n <? (2 ^ 1024 - 2 ^ 970) * 2 ^ 20); [| reflexivity].
  destruct (format_round_2 n (1024 * 1024)) as (h & H0 & Hb & E).
  exists h. rewrite E. unfold two_decimals.
  replace (n <? 0) with true by (symmetry; apply Z.ltb_lt; lia).
  repeat rewrite <- app_assoc.
  split; [exact H0 |]. split; [| split; [intros _; exact Hb | reflexivity]].
  change (Zpos (1024 * 1024)) with (2 ^ 20) in Hb. lia.
Qed.

Lemma format_size_negative_witness :
  -1572864 < 0 /\
  exists h,
    0 <= h /\
    2 ^ 52 * Z.abs (200 * Z.abs (-1572864) - 2 * h * 2 ^ 20)
    <= 2 ^ 52 * 2 ^ 20 + 200 * Z.abs (-1572864) /\
    (Z.abs (-1572864) < 2 ^ 53 ->
     Z.abs (200 * Z.abs (-1572864) - 2 * h * 2 ^ 20) <= 2 ^ 20) /\
    format_size (-1572864) =
      Returns (py "-" ++ decimal (h / 100) ++ py "." ++
               [digit (h / 10 mod 10); digit (h mod 10)] ++ py " MB").
Proof.
  assert (H : -1572864 < 0) by lia.
  split; [exact H |]. exact (format_size_negative (-1572864) H).
Defined.

(** ** Reporter: the progress bar *)

Lemma ascii_only_app (s t : str) : ascii_only s -> ascii_only t -> ascii_only (s ++ t).
Proof. intros; apply Forall_app; split; assumption. Qed.

Lemma count_occ_ascii (s : str) (g : N) :
  ascii_only s -> (128 <= g)%N -> count_occ N.eq_dec s g = 0%nat.
Proof.
  intros Hs Hg. induction Hs as [|c s Hc _ IH]; [reflexivity |].
  cbn [count_occ]. destruct (N.eq_dec c g); [lia | exact IH].
Qed.

Lemma count_occ_ascii_app (s t : str) (g : N) :
  ascii_only s -> (128 <= g)%N ->
  count_occ N.eq_dec (s ++ t) g = count_occ N.eq_dec t g.
Proof.
  intros Hs Hg. rewrite count_occ_app, (count_occ_ascii s g Hs Hg). reflexivity.
Qed.

Lemma uint_str_ascii (u : Decimal.uint) : ascii_only (uint_str u).
Proof.
  induction u; cbn [uint_str]; constructor; (lia || assumption).
Qed.

Lemma frac_digits_ascii (nd : nat) (f : Z) : ascii_only (frac_digits nd f).
Proof.
  induction nd as [|k IH]; cbn [frac_digits]; constructor; [| exact IH].
  unfold digit.
  pose proof (Z.mod_pos_bound (f / 10 ^ Z.of_nat k) 10 ltac:(lia)). lia.
Qed.

Lemma format_f_ascii (nd : nat) (x : pyfloat) : ascii_only (format_f nd x).
Proof.
  unfold format_f. repeat apply ascii_only_app.
  - destruct (fsign x); repeat constructor.
  - apply uint_str_ascii.
  - destruct nd; [constructor |].
    apply ascii_only_app; [repeat constructor | apply frac_digits_ascii].
Qed.

Lemma str_mul_glyph (g : N) (k : Z) : str_mul [g] k = repeat g (Z.to_nat k).
Proof.
  unfold str_mul. induction (Z.to_nat k) as [|n IH]; [reflexivity |].
  cbn [repeat List.concat app]. rewrite IH. reflexivity.
Qed.

(** [int(width * percentage / 100)] is the floor of the exact quotient
    when the percentage and the width are not negative. *)
Lemma filled_width_floor (p : pyfloat) (w : Z) :
  (0 <= fval p)%Q -> 0 <= w ->
  py_int (fdiv_const (fmul_int w p) 100) =
  Qfloor (inject_Z w * fval p / 100).
Proof.
  intros Hp Hw. unfold py_int, fdiv_const, fmul_int. cbn [fsign fmag].
  replace (w <? 0) with false by (symmetry; apply Z.ltb_ge; exact Hw).
  cbn [xorb].
  pose proof (Qabs_nonneg (fmag p)) as Ha.
  assert (Hwq : (0 <= inject_Z w)%Q).
  { unfold Qle. cbn. lia. }
  assert (Hiw : (Qabs (inject_Z w) == inject_Z w)%Q) by (apply Qabs_pos; exact Hwq).
  unfold fval in *. destruct (fsign p).
  - assert (Hz : (Qabs (fmag p) == 0)%Q) by lra.
    assert (E1 : (Qabs (Qabs (Qabs (inject_Z w) * Qabs (fmag p)) * (1 # 100)) == 0)%Q).
    { rewrite Hz. rewrite Qmult_0_r. reflexivity. }
    assert (E2 : (inject_Z w * - Qabs (fmag p) / 100 == 0)%Q).
    { rewrite Hz. unfold Qdiv. rewrite Qmult_0_r, Qmult_0_l. reflexivity. }
    rewrite (Qfloor_comp _ _ E1), (Qfloor_comp _ _ E2). reflexivity.
  - apply Qfloor_comp.
    assert (Hprod : (0 <= inject_Z w * Qabs (fmag p))%Q)
      by (apply Qmult_le_0_compat; assumption).
    rewrite Hiw.
    rewrite (Qabs_pos (inject_Z w * Qabs (fmag p))) by exact Hprod.
    rewrite Qabs_pos.
    + unfold Qdiv. reflexivity.
    + apply Qmult_le_0_compat; [exact Hprod | discriminate].
Qed.

Lemma filled_width_range (v : Q) (w : Z) :
  (0 <= v <= 100)%Q -> 0 <= w ->
  0 <= Qfloor (inject_Z w * v / 100) <= w.
Proof.
  intros [H0 H100] Hw.
  assert (Hwq : (0 <= inject_Z w)%Q) by (unfold Qle; cbn; lia).
  assert (Hlo : (inject_Z 0 <= inject_Z w * v / 100)%Q).
  { change (inject_Z 0) with 0%Q. unfold Qdiv.
    apply Qmult_le_0_compat; [apply Qmult_le_0_compat; assumption | discriminate]. }
  assert (Hhi : (inject_Z w * v / 100 <= inject_Z w)%Q).
  { apply Qle_shift_div_r; [reflexivity |].
    nra. }
  apply Qfloor_resp_le in Hlo, Hhi. rewrite Qfloor_Z in Hlo, Hhi. lia.
Qed.


Lemma bar_color_ascii (percentage : pyfloat) :
  ascii_only
    (if flt percentage 25 then Colors.BRIGHT_GREEN
     else if flt percentage 50 then Colors.YELLOW
     else if flt percentage 75 then Colors.BRIGHT_YELLOW
     else Colors.BRIGHT_RED).
Proof.
  destruct (flt percentage 25); [| destruct (flt percentage 50);
    [| destruct (flt percentage 75)]];
  repeat constructor.
Qed.

(** The text of a bar, for every percentage and width. *)
Lemma progress_bar_text (percentage : pyfloat) (width : Z) :
  let filled_width := py_int (fdiv_const (fmul_int width percentage) 100) in
  progress_bar percentage width =
    py "[" ++
    (if flt percentage 25 then Colors.BRIGHT_GREEN
     else if flt percentage 50 then Colors.YELLOW
     else if flt percentage 75 then Colors.BRIGHT_YELLOW
     else Colors.BRIGHT_RED)
    ++ repeat FULL_BLOCK (Z.to_nat filled_width) ++ Colors.DIM
    ++ repeat LIGHT_SHADE (Z.to_nat (width - filled_width)) ++ Colors.RESET
    ++ py "] " ++ format_f 1 percentage ++ py "%".
Proof.
  intros filled_width. unfold progress_bar, create_progress_bar. cbv zeta.
  rewrite !str_mul_glyph. fold filled_width.
  repeat rewrite <- app_assoc. reflexivity.
Qed.

(** The glyphs of a bar, for every percentage and width. *)
Lemma progress_bar_counts (percentage : pyfloat) (width : Z) :
  let filled_width := py_int (fdiv_const (fmul_int width percentage) 100) in
  count_occ N.eq_dec (progress_bar percentage width) FULL_BLOCK
    = Z.to_nat filled_width /\
  count_occ N.eq_dec (progress_bar percentage width) LIGHT_SHADE
    = Z.to_nat (width - filled_width).
Proof.
  intros filled_width.
  assert (Hc : forall g, (128 <= g)%N ->
    count_occ N.eq_dec (progress_bar percentage width) g =
    (count_occ N.eq_dec (repeat FULL_BLOCK (Z.to_nat filled_width)) g +
     count_occ N.eq_dec
       (repeat LIGHT_SHADE (Z.to_nat (width - filled_width))) g)%nat).
  { intros g Hg. rewrite progress_bar_text. cbv zeta. fold filled_width.
    rewrite count_occ_ascii_app by (repeat constructor || exact Hg).
    rewrite count_occ_ascii_app by (apply bar_color_ascii || exact Hg).
    rewrite count_occ_app. f_equal.
    rewrite count_occ_ascii_app by (repeat constructor || exact Hg).
    rewrite count_occ_app.
    rewrite (count_occ_ascii (Colors.RESET ++ _)); [lia | | exact Hg].
    apply ascii_only_app; [repeat constructor |].
    apply ascii_only_app; [repeat constructor |].
    apply ascii_only_app; [apply format_f_ascii | repeat constructor]. }
  split.
  - rewrite Hc by (unfold FULL_BLOCK; lia).
    rewrite count_occ_repeat_eq by reflexivity.
    rewrite count_occ_repeat_neq by discriminate. lia.
  - rewrite Hc by (unfold LIGHT_SHADE; lia).
    rewrite count_occ_repeat_neq by discriminate.
    rewrite count_occ_repeat_eq by reflexivity. lia.
Qed.




(** ** Reporter: the summary *)

Lemma truediv_value (a b : Z) :
  0 < b ->
  (fval (fmul_int 100 (mkfloat (xorb (a <? 0) (b <? 0))
                               (Qabs (inject_Z a) / Qabs (inject_Z b))))
   == inject_Z a / inject_Z b * 100)%Q.
Proof.
  intros Hb.
  assert (Hbq : (0 < inject_Z b)%Q) by (unfold Qlt; cbn; lia).
  replace (b <? 0) with false by (symmetry; apply Z.ltb_ge; lia).
  rewrite xorb_false_r.
  assert (Hq : (0 <= Qabs (inject_Z a) / inject_Z b)%Q).
  { apply Qle_shift_div_l; [exact Hbq |]. rewrite Qmult_0_l. apply Qabs_nonneg. }
  assert (Hprod : (0 <= inject_Z 100 * (Qabs (inject_Z a) / inject_Z b))%Q).
  { apply Qmult_le_0_compat; [discriminate | exact Hq]. }
  assert (Hmag : (Qabs (Qabs (inject_Z 100) *
                        Qabs (Qabs (inject_Z a) / Qabs (inject_Z b)))
                  == 100 * (Qabs (inject_Z a) / inject_Z b))%Q).
  { rewrite (Qabs_pos (inject_Z b)) by lra.
    rewrite (Qabs_pos (Qabs (inject_Z a) / inject_Z b)) by exact Hq.
    rewrite (Qabs_pos (inject_Z 100)) by discriminate.
    rewrite (Qabs_pos _ Hprod). reflexivity. }
  unfold fval, fmul_int. cbn [fsign fmag].
  change (100 <? 0) with false. cbn [xorb].
  destruct (Z.ltb_spec a 0) as [Ha|Ha]; rewrite Hmag.
  - assert (Haq : (inject_Z a <= 0)%Q) by (unfold Qle; cbn; lia).
    rewrite (Qabs_neg _ Haq). field. lra.
  - assert (Haq : (0 <= inject_Z a)%Q) by (unfold Qle; cbn; lia).
    rewrite (Qabs_pos _ Haq). field. lra.
Qed.


(** The percentage is a value, unless the quotient is too large for a
    float; the divisor is never zero. *)
Lemma percentage_outcome {St} (freed initial : Z) :
  (forall s : St, percentage_of freed initial s = (Raises OverflowError, s)) \/
  (exists p,
      (forall s : St, percentage_of freed initial s = (Returns p, s)) /\
      (fval p == summary_percentage freed initial)%Q).
Proof.
  unfold percentage_of, summary_percentage.
  destruct (Z.gtb_spec initial 0) as [Hi|Hi].
  - unfold truediv, bind, ret, raise.
    replace (initial =? 0) with false by (symmetry; apply Z.eqb_neq; lia).
    destruct (fits_float freed initial).
    + right. eexists. split; [intros s; reflexivity |].
      apply truediv_value. exact Hi.
    + left. intros s. reflexivity.
  - right. eexists. split; [intros s; reflexivity | reflexivity].
Qed.

Lemma percentage_returns {St} (freed initial : Z) :
  0 <= freed <= initial ->
  exists p,
    (forall s : St, percentage_of freed initial s = (Returns p, s)) /\
    (fval p == summary_percentage freed initial)%Q.
Proof.
  intros Hf. unfold percentage_of, summary_percentage.
  destruct (Z.gtb_spec initial 0) as [Hi|Hi].
  - unfold truediv, bind, ret, raise.
    replace (initial =? 0) with false by (symmetry; apply Z.eqb_neq; lia).
    rewrite (fits_float_ratio freed initial) by lia.
    eexists. split; [intros s; reflexivity |].
    apply truediv_value. exact Hi.
  - eexists. split; [intros s; reflexivity | reflexivity].
Qed.

Lemma eval_then {St A B} (r : outcome A) (k : A -> M St B) (s : St) :
  bind (eval r) k s =
  match r with
  | Returns a => k a s
  | Raises e => (Raises e, s)
  end.
Proof. unfold bind, eval. destruct r; reflexivity. Qed.

(** The summary, step by step: it ends at the first percentage or amount
    that raises, and prints everything otherwise. *)
Lemma display_cleanup_results_steps
    (user_temp_freed system_temp_freed user_temp_initial system_temp_initial : Z)
    (w : world) :
  display_cleanup_results user_temp_freed system_temp_freed
                          user_temp_initial system_temp_initial w
  = let out1 := stdout w ++ [ResultsBanner; Blank] in
    match percentage_of user_temp_freed user_temp_initial
            (mkworld (fs w) out1 (others w)) with
    | (Raises e, w') => (Raises e, w')
    | (Returns user_percentage, _) =>
    let out2 := out1 ++ [Heading "User Temp Folder:";
                         Bar (progress_bar user_percentage 30)] in
    match format_size user_temp_freed with
    | Raises e => (Raises e, mkworld (fs w) out2 (others w))
    | Returns user_amount =>
    let out3 := out2 ++ [Recovered user_amount; Blank] in
    match percentage_of system_temp_freed system_temp_initial
            (mkworld (fs w) out3 (others w)) with
    | (Raises e, w') => (Raises e, w')
    | (Returns system_percentage, _) =>
    let out4 := out3 ++ [Heading "System Temp Folder:";
                         Bar (progress_bar system_percentage 30)] in
    match format_size system_temp_freed with
    | Raises e => (Raises e, mkworld (fs w) out4 (others w))
    | Returns system_amount =>
    let out5 := out4 ++ [Recovered system_amount; Blank] in
    match percentage_of (user_temp_freed + system_temp_freed)
            (user_temp_initial + system_temp_initial)
            (mkworld (fs w) out5 (others w)) with
    | (Raises e, w') => (Raises e, w')
    | (Returns total_percentage, _) =>
    let out6 := out5 ++ [Heading "Total Cleanup:";
                         Bar (progress_bar total_percentage 40)] in
    match format_size (user_temp_freed + system_temp_freed) with
    | Raises e => (Raises e, mkworld (fs w) out6 (others w))
    | Returns total_amount =>
        (Returns tt,
         mkworld (fs w)
           (out6 ++ [TotalRecovered total_amount; Blank; SummaryHeading;
                     SummaryProcessed;
                     Efficiency (format_f 1 total_percentage);
                     SummaryComplete])
           (others w))
    end end end end end end.
Proof.
  cbv zeta. unfold display_cleanup_results. cbv zeta.
  rewrite !print_then. cbn [fs stdout others].
  fold (@percentage_of world user_temp_freed user_temp_initial).
  fold (@percentage_of world system_temp_freed system_temp_initial).
  fold (@percentage_of world (user_temp_freed + system_temp_freed)
          (user_temp_initial + system_temp_initial)).
  repeat rewrite <- app_assoc. cbn [app].
  destruct (percentage_outcome (St := world) user_temp_freed user_temp_initial)
    as [Eu | (pu & Eu & _)];
    [rewrite (bind_raises _ _ _ _ _ (Eu _)), Eu;
     repeat rewrite <- app_assoc; reflexivity |].
  rewrite (bind_returns _ _ _ _ _ (Eu _)), Eu.
  rewrite !print_then. cbn [fs stdout others]. rewrite eval_then.
  destruct (format_size user_temp_freed) as [a|e];
    [| repeat rewrite <- app_assoc; reflexivity].
  rewrite !print_then. cbn [fs stdout others].
  destruct (percentage_outcome (St := world) system_temp_freed
              system_temp_initial) as [Es | (ps & Es & _)];
    [rewrite (bind_raises _ _ _ _ _ (Es _)), Es;
     repeat rewrite <- app_assoc; reflexivity |].
  rewrite (bind_returns _ _ _ _ _ (Es _)), Es.
  rewrite !print_then. cbn [fs stdout others]. rewrite eval_then.
  destruct (format_size system_temp_freed) as [b|e];
    [| repeat rewrite <- app_assoc; reflexivity].
  rewrite !print_then. cbn [fs stdout others].
  destruct (percentage_outcome (St := world)
              (user_temp_freed + system_temp_freed)
              (user_temp_initial + system_temp_initial))
    as [Et | (pt & Et & _)];
    [rewrite (bind_raises _ _ _ _ _ (Et _)), Et;
     repeat rewrite <- app_assoc; reflexivity |].
  rewrite (bind_returns _ _ _ _ _ (Et _)), Et.
  rewrite !print_then. cbn [fs stdout others]. rewrite eval_then.
  destruct (format_size (user_temp_freed + system_temp_freed)) as [c|e];
    [| repeat rewrite <- app_assoc; reflexivity].
  rewrite !print_then. cbn [fs stdout others].
  unfold print. cbn [fs stdout others].
  repeat rewrite <- app_assoc. reflexivity.
Qed.

(** The whole summary, when the three percentages and the three amounts
    are values. *)
Lemma display_cleanup_results_run
    (user_temp_freed system_temp_freed user_temp_initial system_temp_initial : Z)
    (w : world) (pu ps pt : pyfloat) (a b c : str) :
  (forall s : world,
      percentage_of user_temp_freed user_temp_initial s = (Returns pu, s)) ->
  (forall s : world,
      percentage_of system_temp_freed system_temp_initial s = (Returns ps, s)) ->
  (forall s : world,
      percentage_of (user_temp_freed + system_temp_freed)
                    (user_temp_initial + system_temp_initial) s
      = (Returns pt, s)) ->
  format_size user_temp_freed = Returns a ->
  format_size system_temp_freed = Returns b ->
  format_size (user_temp_freed + system_temp_freed) = Returns c ->
  display_cleanup_results user_temp_freed system_temp_freed
                          user_temp_initial system_temp_initial w
  = (Returns tt,
     mkworld (fs w)
       (stdout w ++
        [ResultsBanner; Blank;
         Heading "User Temp Folder:";
         Bar (progress_bar pu 30);
         Recovered a; Blank;
         Heading "System Temp Folder:";
         Bar (progress_bar ps 30);
         Recovered b; Blank;
         Heading "Total Cleanup:";
         Bar (progress_bar pt 40);
         TotalRecovered c;
         Blank; SummaryHeading; SummaryProcessed;
         Efficiency (format_f 1 pt); SummaryComplete])
       (others w)).
Proof.
  intros Eu Es Et Ea Eb Ec. rewrite display_cleanup_results_steps. cbv zeta.
  rewrite Eu, Ea, Es, Eb, Et, Ec.
  repeat rewrite <- app_assoc. reflexivity.
Qed.



(** ** The file system: paths *)

Lemma lookup_app (root : node) (p q : fspath) :
  lookup root (p ++ q) =
  match lookup root p with
  | Some n => lookup n q
  | None => None
  end.
Proof.
  revert root. induction p as [|c p IH]; intros root; [reflexivity |].
  destruct root as [| ro iu ls es | | j ro ls es]; cbn [app lookup];
    try reflexivity; (destruct (assoc c es); [apply IH | reflexivity]).
Qed.

Lemma lookup_child (root : node) (p : fspath) (name : string) ro iu ls es :
  lookup root p = Some (Dir ro iu ls es) ->
  lookup root (os_path_join p name) = assoc name es.
Proof.
  intros H. unfold os_path_join. rewrite lookup_app, H. cbn [lookup].
  destruct (assoc name es); reflexivity.
Qed.

Lemma lookup_child_link (root : node) (p : fspath) (name : string) j ro ls es :
  lookup root p = Some (DirLink j ro ls es) ->
  lookup root (os_path_join p name) = assoc name es.
Proof.
  intros H. unfold os_path_join. rewrite lookup_app, H. cbn [lookup].
  destruct (assoc name es); reflexivity.
Qed.

Lemma assoc_head (name : string) (v : node) (es : list (string * node)) :
  assoc name ((name, v) :: es) = Some v.
Proof. cbn [assoc]. rewrite String.eqb_refl. reflexivity. Qed.

Lemma assoc_not_in (name : string) (es : list (string * node)) :
  ~ In name (map fst es) -> assoc name es = None.
Proof.
  induction es as [|[k v] es IH]; intros Hn; [reflexivity |].
  cbn [assoc]. destruct (String.eqb_spec name k) as [->|Hne].
  - exfalso. apply Hn. left. reflexivity.
  - apply IH. intros Hin. apply Hn. right. exact Hin.
Qed.

Lemma assoc_in_nodup (name : string) (v : node) (es : list (string * node)) :
  NoDup (map fst es) -> In (name, v) es -> assoc name es = Some v.
Proof.
  induction es as [|[k v'] es IH]; intros Hnd Hin; [contradiction |].
  cbn [map fst] in Hnd. inversion Hnd as [|? ? Hk Hnd']; subst.
  cbn [assoc]. destruct Hin as [E|Hin].
  - inversion E; subst. rewrite String.eqb_refl. reflexivity.
  - destruct (String.eqb_spec name k) as [->|Hne].
    + exfalso. apply Hk. apply (in_map fst) in Hin. exact Hin.
    + apply IH; assumption.
Qed.

(** ** SizeProbe: what [get_folder_size] computes *)

Lemma size_of_file_step (dirpath : fspath) (filename : string) (t : Z) (w : world) :
  try_except
    (b <- lift (os_path_exists (os_path_join dirpath filename)) ;;
     if b
     then size <- lift (os_path_getsize (os_path_join dirpath filename)) ;;
          assign (fun total_size => total_size + size)
     else ret tt)
    is_OSError (fun _ => ret tt) (t, w)
  = (Returns tt, (t + entry_size (fs w) (os_path_join dirpath filename), w)).
Proof.
  unfold try_except, bind, lift, os_path_exists, os_path_getsize, assign, ret,
    entry_size. cbn [fst snd].
  destruct (lookup (fs w) (os_path_join dirpath filename))
    as [[s ro iu|ro iu ls es| |j ro ls es]|] eqn:E;
    cbn [fst snd is_OSError]; rewrite ?E; cbn [fst snd is_OSError];
    rewrite ?Z.add_0_r; reflexivity.
Qed.

(** A loop over a generator that yields the triples of a list and stops
    is the loop over the list. *)
Lemma for_walk_list {L} (triples : list (fspath * list string * list string))
    (body : fspath * list string * list string -> Body L unit)
    (s : L * world) :
  for_walk (walker_of triples None) body s = for_ triples body s.
Proof.
  revert s. induction triples as [|triple l IH]; intros s; [reflexivity |].
  cbn [walker_of fold_right for_walk for_]. unfold bind.
  destruct (body triple s) as [[u|e] s']; [| reflexivity].
  apply IH.
Qed.

Lemma size_of_files_loop (dirpath : fspath) (filenames : list string) (t : Z)
    (w : world) :
  for_ filenames (fun filename =>
    try_except
      (b <- lift (os_path_exists (os_path_join dirpath filename)) ;;
       if b
       then size <- lift (os_path_getsize (os_path_join dirpath filename)) ;;
            assign (fun total_size => total_size + size)
       else ret tt)
      is_OSError (fun _ => ret tt)) (t, w)
  = (Returns tt, (t + triple_bytes (fs w) (dirpath, @nil string, filenames), w)).
Proof.
  revert t. induction filenames as [|f l IH]; intros t.
  - cbn. rewrite Z.add_0_r. reflexivity.
  - cbn [for_]. unfold bind at 1. rewrite size_of_file_step.
    rewrite IH. cbn [triple_bytes fold_right]. f_equal. f_equal. lia.
Qed.

Lemma size_of_walk_loop (triples : list (fspath * list string * list string))
    (t : Z) (w : world) :
  for_ triples (fun triple =>
    let '(dirpath, dirnames, filenames) := triple in
    for_ filenames (fun filename =>
      try_except
        (b <- lift (os_path_exists (os_path_join dirpath filename)) ;;
         if b
         then size <- lift (os_path_getsize (os_path_join dirpath filename)) ;;
              assign (fun total_size => total_size + size)
         else ret tt)
        is_OSError (fun _ => ret tt))) (t, w)
  = (Returns tt, (t + walk_sum (fs w) triples, w)).
Proof.
  revert t. induction triples as [|[[dirpath dirnames] filenames] l IH]; intros t.
  - cbn. rewrite Z.add_0_r. reflexivity.
  - cbn [for_]. unfold bind at 1. rewrite size_of_files_loop.
    rewrite IH. cbn [walk_sum triple_bytes fold_right]. f_equal. f_equal.
    unfold walk_sum. lia.
Qed.

(** [get_folder_size] always returns, leaves the world as it is, and its
    value is [folder_bytes]. *)
Lemma get_folder_size_run (folder_path : fspath) (w : world) :
  get_folder_size folder_path w = (Returns (folder_bytes (fs w) folder_path), w).
Proof.
  unfold get_folder_size, get_folder_size_on, run_body.
  cbn [path_exists path_getsize walk tree_os].
  unfold bind at 1. unfold lift at 1, os_path_exists at 1.
  cbv beta iota delta [fst snd].
  unfold folder_bytes.
  destruct (lookup (fs w) folder_path) as [n|] eqn:E; cbn [negb].
  - assert (Hloop :
      (try_except
        (triples <- lift (os_walk folder_path) ;;
         for_walk triples (fun triple =>
           let '(dirpath, dirnames, filenames) := triple in
           for_ filenames (fun filename =>
             try_except
               (b <- lift (os_path_exists (os_path_join dirpath filename)) ;;
                if b
                then size <- lift (os_path_getsize (os_path_join dirpath filename)) ;;
                     assign (fun total_size => total_size + size)
                else ret tt)
               is_OSError (fun _ => ret tt))))
        is_OSError (fun _ => ret tt)) (0, w)
      = (Returns tt, (walk_sum (fs w) (walk_node folder_path n), w))).
    { unfold try_except. unfold bind at 1. unfold lift at 1, os_walk at 1.
      cbv beta iota delta [fst snd]. rewrite E. rewrite for_walk_list.
      rewrite size_of_walk_loop. reflexivity. }
    destruct n as [s ro iu|ro iu ls es| |j ro ls es].
    + cbn [negb]. unfold bind at 1. rewrite Hloop. reflexivity.
    + cbn [negb]. unfold bind at 1. rewrite Hloop. reflexivity.
    + cbn. reflexivity.
    + cbn [negb]. unfold bind at 1. rewrite Hloop. reflexivity.
  - cbn. reflexivity.
Qed.

Lemma sum_entries_fix (f : node -> Z) (es : list (string * node)) :
  (fix sum (l : list (string * node)) : Z :=
     match l with
     | [] => 0
     | (_, ch) :: l' => f ch + sum l'
     end) es = sum_entries f es.
Proof.
  induction es as [|[k v] es IH]; [reflexivity |].
  cbn [sum_entries fold_right snd]. rewrite IH. reflexivity.
Qed.

Lemma forallb_fix (f : node -> bool) (es : list (string * node)) :
  (fix all (l : list (string * node)) : bool :=
     match l with
     | [] => true
     | (_, ch) :: l' => f ch && all l'
     end) es = forallb (fun e => f (snd e)) es.
Proof.
  induction es as [|[k v] es IH]; [reflexivity |].
  cbn [forallb snd]. rewrite IH. reflexivity.
Qed.

Lemma reached_bytes_dir ro iu es :
  reached_bytes (Dir ro iu true es) = sum_entries reached_in es.
Proof. apply (sum_entries_fix reached_in). Qed.

Lemma reached_bytes_link j ro es :
  reached_bytes (DirLink j ro true es) = sum_entries reached_in es.
Proof. apply (sum_entries_fix reached_in). Qed.

Lemma tree_bytes_dir ro iu ls es :
  tree_bytes (Dir ro iu ls es) = sum_entries tree_in es.
Proof. apply (sum_entries_fix tree_in). Qed.

Lemma tree_bytes_link j ro ls es :
  tree_bytes (DirLink j ro ls es) = sum_entries tree_in es.
Proof. apply (sum_entries_fix tree_in). Qed.

Lemma all_listable_dir ro iu ls es :
  all_listable (Dir ro iu ls es) =
  ls && forallb (fun e => symlink (snd e) || all_listable (snd e)) es.
Proof.
  cbn [all_listable]. f_equal.
  apply (forallb_fix (fun ch => symlink ch || all_listable ch)).
Qed.

Lemma all_listable_link j ro ls es :
  all_listable (DirLink j ro ls es) =
  ls && forallb (fun e => symlink (snd e) || all_listable (snd e)) es.
Proof.
  cbn [all_listable]. f_equal.
  apply (forallb_fix (fun ch => symlink ch || all_listable ch)).
Qed.

Lemma unique_names_dir ro iu ls es :
  unique_names (Dir ro iu ls es) =
  distinct (map fst es) && forallb (fun e => unique_names (snd e)) es.
Proof. cbn [unique_names]. f_equal. apply (forallb_fix unique_names). Qed.

Lemma unique_names_link j ro ls es :
  unique_names (DirLink j ro ls es) =
  distinct (map fst es) && forallb (fun e => unique_names (snd e)) es.
Proof. cbn [unique_names]. f_equal. apply (forallb_fix unique_names). Qed.

Lemma distinct_NoDup (l : list string) : distinct l = true -> NoDup l.
Proof.
  induction l as [|x l IH]; intros H; [constructor |].
  cbn [distinct] in H. apply andb_true_iff in H as [Hx Hl].
  constructor; [| apply IH; exact Hl].
  intros Hin. apply negb_true_iff in Hx.
  assert (existsb (String.eqb x) l = true); [| congruence].
  apply existsb_exists. exists x. split; [exact Hin | apply String.eqb_refl].
Qed.

Lemma sum_entries_app (f : node -> Z) (a b : list (string * node)) :
  sum_entries f (a ++ b) = sum_entries f a + sum_entries f b.
Proof.
  induction a as [|e a IH]; [reflexivity |].
  cbn [app sum_entries fold_right]. fold (sum_entries f (a ++ b)).
  fold (sum_entries f a). rewrite IH. lia.
Qed.

Lemma reached_in_tree (es : list (string * node)) :
  Forall (fun e => all_listable (snd e) = true ->
                   reached_bytes (snd e) = tree_bytes (snd e)) es ->
  forallb (fun e => symlink (snd e) || all_listable (snd e)) es = true ->
  sum_entries reached_in es = sum_entries tree_in es.
Proof.
  induction es as [|[k v] es IHes]; intros IH Hes; [reflexivity |].
  cbn [forallb snd] in Hes. apply andb_true_iff in Hes as [Hv Hes].
  inversion IH as [|? ? IHv IHl]; subst. cbn [snd] in IHv.
  cbn [sum_entries fold_right snd]. fold (sum_entries reached_in es).
  fold (sum_entries tree_in es). rewrite (IHes IHl Hes).
  unfold reached_in, tree_in. destruct (symlink v); [reflexivity |].
  cbn [orb] in Hv. rewrite (IHv Hv). reflexivity.
Qed.

Lemma reached_is_tree (n : node) :
  all_listable n = true -> reached_bytes n = tree_bytes n.
Proof.
  induction n as [s ro iu|ro iu ls es IH| |j ro ls es IH]
    using node_nested_ind; intros H; try reflexivity.
  - rewrite all_listable_dir in H. apply andb_true_iff in H as [Hls Hes].
    subst ls. rewrite reached_bytes_dir, tree_bytes_dir.
    apply reached_in_tree; assumption.
  - rewrite all_listable_link in H. apply andb_true_iff in H as [Hls Hes].
    subst ls. rewrite reached_bytes_link, tree_bytes_link.
    apply reached_in_tree; assumption.
Qed.

Lemma walk_entries_fix (dirpath : fspath) (es : list (string * node)) :
  (fix sub (l : list (string * node)) :=
     match l with
     | [] => []
     | (name, ch) :: l' =>
         (if walked_into ch
          then walk_node (os_path_join dirpath name) ch
          else []) ++ sub l'
     end) es = walk_entries dirpath es.
Proof.
  induction es as [|[k v] es IH]; [reflexivity |].
  cbn [walk_entries flat_map fst snd]. fold (walk_entries dirpath es).
  rewrite IH. reflexivity.
Qed.

Lemma walk_node_dir (dirpath : fspath) ro iu es :
  walk_node dirpath (Dir ro iu true es) =
  (dirpath, dirnames_of es, filenames_of es) :: walk_entries dirpath es.
Proof. cbn [walk_node]. f_equal. apply walk_entries_fix. Qed.

Lemma walk_node_link (dirpath : fspath) j ro es :
  walk_node dirpath (DirLink j ro true es) =
  (dirpath, dirnames_of es, filenames_of es) :: walk_entries dirpath es.
Proof. cbn [walk_node]. f_equal. apply walk_entries_fix. Qed.

Lemma walk_sum_app (root : node) (a b : list (fspath * list string * list string)) :
  walk_sum root (a ++ b) = walk_sum root a + walk_sum root b.
Proof.
  induction a as [|x a IH]; [reflexivity |].
  cbn [app walk_sum fold_right]. fold (walk_sum root (a ++ b)).
  fold (walk_sum root a). rewrite IH. lia.
Qed.

(** The files of a listing and the walks below it add up what its
    children add. *)
Lemma walk_sum_listing (root : node) (dirpath : fspath)
    (es : list (string * node)) :
  (forall name, lookup root (os_path_join dirpath name) = assoc name es) ->
  NoDup (map fst es) ->
  forall l,
    (forall e, In e l -> In e es) ->
    Forall (fun e => forall dirpath,
              lookup root dirpath = Some (snd e) -> unique_names (snd e) = true ->
              is_dir_node (snd e) = true ->
              walk_sum root (walk_node dirpath (snd e)) = reached_bytes (snd e)) l ->
    forallb (fun e => unique_names (snd e)) l = true ->
    fold_right (fun filename acc =>
                  entry_size root (os_path_join dirpath filename) + acc)
               0 (filenames_of l)
    + walk_sum root (walk_entries dirpath l)
    = sum_entries reached_in l.
Proof.
  intros Hl Hnd.
  induction l as [|[k v] l IHl]; intros Hin HP Hul; [reflexivity |].
  inversion HP as [|? ? HPv HPl]; subst. cbn [snd] in HPv.
  cbn [forallb snd] in Hul. apply andb_true_iff in Hul as [Huv Hul].
  assert (Hk : lookup root (os_path_join dirpath k) = Some v).
  { rewrite Hl. apply assoc_in_nodup; [exact Hnd |].
    apply Hin. left. reflexivity. }
  specialize (IHl (fun e He => Hin e (or_intror He)) HPl Hul).
  cbn [sum_entries fold_right snd]. fold (sum_entries reached_in l).
  cbn [walk_entries flat_map fst snd]. fold (walk_entries dirpath l).
  rewrite walk_sum_app.
  unfold filenames_of in *. cbn [filter snd].
  destruct v as [s ro' iu'|ro' iu' ls' es'| |j' ro' ls' es'];
    cbn [is_dir_node walked_into negb]; unfold reached_in at 1;
    cbn [symlink].
  - cbn [map fst fold_right walk_sum]. unfold entry_size at 1. rewrite Hk.
    cbn [reached_bytes]. lia.
  - rewrite (HPv _ Hk Huv eq_refl). lia.
  - cbn [map fst fold_right walk_sum]. unfold entry_size at 1. rewrite Hk.
    cbn [reached_bytes]. lia.
  - destruct j'.
    + rewrite (HPv _ Hk Huv eq_refl). lia.
    + cbn [walk_sum fold_right]. lia.
Qed.

(** The walk over a directory with unique names adds up the reached bytes. *)
Lemma walk_sum_reached (root : node) (n : node) :
  forall dirpath,
    lookup root dirpath = Some n -> unique_names n = true ->
    is_dir_node n = true ->
    walk_sum root (walk_node dirpath n) = reached_bytes n.
Proof.
  induction n as [s ro iu|ro iu ls es IH| |j ro ls es IH]
    using node_nested_ind; intros dirpath Hl Hu Hd; try discriminate.
  - destruct ls; [| reflexivity].
    rewrite walk_node_dir, reached_bytes_dir.
    rewrite unique_names_dir in Hu. apply andb_true_iff in Hu as [Hnd Hus].
    apply distinct_NoDup in Hnd.
    cbn [walk_sum fold_right]. fold (walk_sum root (walk_entries dirpath es)).
    cbn [triple_bytes].
    apply (walk_sum_listing root dirpath es); try assumption.
    + intros name. apply (lookup_child _ _ _ _ _ _ _ Hl).
    + intros e He. exact He.
  - destruct ls; [| reflexivity].
    rewrite walk_node_link, reached_bytes_link.
    rewrite unique_names_link in Hu. apply andb_true_iff in Hu as [Hnd Hus].
    apply distinct_NoDup in Hnd.
    cbn [walk_sum fold_right]. fold (walk_sum root (walk_entries dirpath es)).
    cbn [triple_bytes].
    apply (walk_sum_listing root dirpath es); try assumption.
    + intros name. apply (lookup_child_link _ _ _ _ _ _ _ Hl).
    + intros e He. exact He.
Qed.

Lemma folder_bytes_reached (root : node) (folder_path : fspath) (n : node) :
  lookup root folder_path = Some n -> unique_names n = true ->
  is_dir_node n = true ->
  folder_bytes root folder_path = reached_bytes n.
Proof.
  intros Hl Hu Hd. unfold folder_bytes. rewrite Hl.
  apply walk_sum_reached; assumption.
Qed.

(** ** SizeProbe: theorems *)

(** C3 (as stated) fails: a regular file below a directory that cannot be
    listed is in the tree but is not counted. *)
Lemma get_folder_size_misses_hidden :
  lookup (fs (quiet (volume hidden_file))) Temp = Some hidden_file /\
  tree_bytes hidden_file = 5 /\
  get_folder_size Temp (quiet (volume hidden_file))
  = (Returns 0, quiet (volume hidden_file)).
Proof. repeat split. Qed.

(** C3 (amended). [get_folder_size] returns 0 for a path that does not
    exist; for a directory it returns the bytes of the regular files the
    walk reaches, which is the sum over all the regular files of the tree
    when every directory of the tree can be listed; for a directory of
    three files of 10, 20 and 30 bytes it returns 60. *)
Theorem get_folder_size_sums (folder_path : fspath) (w : world) :
  (lookup (fs w) folder_path = None ->
   get_folder_size folder_path w = (Returns 0, w)) /\
  (forall n,
      lookup (fs w) folder_path = Some n -> is_dir_node n = true ->
      unique_names n = true ->
      get_folder_size folder_path w = (Returns (reached_bytes n), w) /\
      (all_listable n = true -> reached_bytes n = tree_bytes n)) /\
  get_folder_size Temp (quiet (volume three_files))
  = (Returns 60, quiet (volume three_files)).
Proof.
  split; [| split].
  - intros Hl. rewrite get_folder_size_run. unfold folder_bytes.
    rewrite Hl. reflexivity.
  - intros n Hl Hd Hu. split.
    + rewrite get_folder_size_run.
      rewrite (folder_bytes_reached _ _ _ Hl Hu Hd). reflexivity.
    + apply reached_is_tree.
  - reflexivity.
Qed.

Lemma get_folder_size_sums_witness :
  lookup (fs (quiet (volume three_files))) Temp = Some three_files /\
  is_dir_node three_files = true /\ unique_names three_files = true /\
  all_listable three_files = true /\
  get_folder_size Temp (quiet (volume three_files))
  = (Returns (tree_bytes three_files), quiet (volume three_files)).
Proof.
  assert (Hl : lookup (fs (quiet (volume three_files))) Temp = Some three_files)
    by reflexivity.
  assert (Hd : is_dir_node three_files = true) by reflexivity.
  assert (Hu : unique_names three_files = true) by reflexivity.
  assert (Ha : all_listable three_files = true) by reflexivity.
  repeat (split; [assumption |]).
  destruct (proj1 (proj2 (get_folder_size_sums Temp (quiet (volume three_files))))
              three_files Hl Hd Hu) as [E R].
  rewrite <- (R Ha). exact E.
Defined.

(** The size lookup of one file name: whatever the calls do, the
    statement returns. *)
Lemma size_lookup_returns (os : os_module) (filepath : fspath)
    (s : Z * world) :
  raises_OSError_only os ->
  exists s',
    try_except
      (b <- lift (path_exists os filepath) ;;
       if b
       then size <- lift (path_getsize os filepath) ;;
            assign (fun total_size => total_size + size)
       else ret tt)
      is_OSError (fun _ => ret tt) s
    = (Returns tt, s').
Proof.
  intros (Hex & Hsize & _). destruct s as [t w].
  unfold try_except, bind, lift. cbn [fst snd].
  destruct (Hex filepath w) as (b & w1 & E). rewrite E.
  destruct b; cbn [fst snd]; [| eexists; reflexivity].
  destruct (path_getsize os filepath w1) as [[size|e] w2] eqn:G.
  - eexists. reflexivity.
  - rewrite (Hsize _ _ _ _ G). eexists. reflexivity.
Qed.

Lemma size_lookups_return (os : os_module) (dirpath : fspath)
    (filenames : list string) (s : Z * world) :
  raises_OSError_only os ->
  exists s',
    for_ filenames (fun filename =>
      try_except
        (b <- lift (path_exists os (os_path_join dirpath filename)) ;;
         if b
         then size <- lift (path_getsize os (os_path_join dirpath filename)) ;;
              assign (fun total_size => total_size + size)
         else ret tt)
        is_OSError (fun _ => ret tt)) s
    = (Returns tt, s').
Proof.
  intros H. revert s. induction filenames as [|f l IH]; intros s.
  - eexists. reflexivity.
  - cbn [for_]. unfold bind at 1.
    destruct (size_lookup_returns os (os_path_join dirpath f) s H) as (s1 & E).
    rewrite E. apply IH.
Qed.

(** A loop over a generator ends, or raises what the generator raised. *)
Lemma walk_loop_outcome (os : os_module) (g : walker) :
  raises_OSError_only os -> walker_raises_only is_OSError g ->
  forall s : Z * world,
  exists r s',
    for_walk g (fun triple =>
      let '(dirpath, dirnames, filenames) := triple in
      for_ filenames (fun filename =>
        try_except
          (b <- lift (path_exists os (os_path_join dirpath filename)) ;;
           if b
           then size <- lift (path_getsize os (os_path_join dirpath filename)) ;;
                assign (fun total_size => total_size + size)
           else ret tt)
          is_OSError (fun _ => ret tt))) s
    = (r, s') /\
    match r with
    | Returns _ => True
    | Raises e => is_OSError e = true
    end.
Proof.
  intros H. induction g as [|e|[[dirpath dirnames] filenames] resume IH];
    intros Hg s.
  - exists (Returns tt), s. split; [reflexivity | exact I].
  - exists (Raises e), s. split; [reflexivity | exact Hg].
  - cbn [for_walk].
    destruct (size_lookups_return os dirpath filenames s H) as (s1 & E).
    rewrite E. apply IH. apply Hg.
Qed.

(** The same three steps for a scripted module, with their result. *)
Lemma scripted_lookup (os : os_module) (present : fspath -> bool)
    (size : fspath -> outcome Z)
    (triples : list (fspath * list string * list string))
    (failure : option exn) (filepath : fspath) (t : Z) (w : world) :
  os = scripted present size triples failure ->
  (forall p e, size p = Raises e -> is_OSError e = true) ->
  try_except
    (b <- lift (path_exists os filepath) ;;
     if b
     then size <- lift (path_getsize os filepath) ;;
          assign (fun total_size => total_size + size)
     else ret tt)
    is_OSError (fun _ => ret tt) (t, w)
  = (Returns tt, (t + scripted_size present size filepath, w)).
Proof.
  intros -> Hsize. unfold try_except, bind, lift, scripted_size.
  cbn [path_exists path_getsize scripted fst snd]. unfold ret, eval, assign.
  cbn [fst snd].
  destruct (present filepath); [| rewrite Z.add_0_r; reflexivity].
  destruct (size filepath) as [bytes|e] eqn:E; cbn [fst snd].
  - reflexivity.
  - rewrite (Hsize _ _ E), Z.add_0_r. reflexivity.
Qed.

Lemma scripted_lookups (os : os_module) (present : fspath -> bool)
    (size : fspath -> outcome Z)
    (triples : list (fspath * list string * list string))
    (failure : option exn) (dirpath : fspath) (filenames : list string)
    (t : Z) (w : world) :
  os = scripted present size triples failure ->
  (forall p e, size p = Raises e -> is_OSError e = true) ->
  for_ filenames (fun filename =>
    try_except
      (b <- lift (path_exists os (os_path_join dirpath filename)) ;;
       if b
       then size <- lift (path_getsize os (os_path_join dirpath filename)) ;;
            assign (fun total_size => total_size + size)
       else ret tt)
      is_OSError (fun _ => ret tt)) (t, w)
  = (Returns tt,
     (t + fold_right (fun filename acc =>
                        scripted_size present size (os_path_join dirpath filename)
                        + acc) 0 filenames, w)).
Proof.
  intros Eos Hsize. revert t. induction filenames as [|f l IH]; intros t.
  - cbn. rewrite Z.add_0_r. reflexivity.
  - cbn [for_]. unfold bind at 1.
    rewrite (scripted_lookup os present size triples failure _ _ _ Eos Hsize).
    rewrite IH. cbn [fold_right]. f_equal. f_equal. lia.
Qed.

Lemma scripted_walk (os : os_module) (present : fspath -> bool)
    (size : fspath -> outcome Z)
    (triples : list (fspath * list string * list string))
    (failure : option exn) (yielded : list (fspath * list string * list string))
    (t : Z) (w : world) :
  os = scripted present size triples failure ->
  (forall p e, size p = Raises e -> is_OSError e = true) ->
  for_walk (walker_of yielded failure) (fun triple =>
    let '(dirpath, dirnames, filenames) := triple in
    for_ filenames (fun filename =>
      try_except
        (b <- lift (path_exists os (os_path_join dirpath filename)) ;;
         if b
         then size <- lift (path_getsize os (os_path_join dirpath filename)) ;;
              assign (fun total_size => total_size + size)
         else ret tt)
        is_OSError (fun _ => ret tt))) (t, w)
  = (match failure with
     | Some e => Raises e
     | None => Returns tt
     end, (t + scripted_total present size yielded, w)).
Proof.
  intros Eos Hsize. revert t.
  induction yielded as [|[[dirpath dirnames] filenames] l IH]; intros t.
  - cbn [walker_of fold_right for_walk scripted_total]. rewrite Z.add_0_r.
    destruct failure; reflexivity.
  - cbn [walker_of fold_right for_walk].
    rewrite (scripted_lookups os present size triples failure _ _ _ _ Eos Hsize).
    cbn [snd]. fold (walker_of l failure). rewrite IH.
    cbn [scripted_total fold_right]. f_equal. f_equal. unfold scripted_total.
    lia.
Qed.

Lemma scripted_failure (triples : list (fspath * list string * list string))
    (failure : option exn) (w : world) :
  walker_raises_only is_OSError (walker_of triples failure) ->
  forall e, failure = Some e -> is_OSError e = true.
Proof.
  induction triples as [|triple l IH]; intros H e ->.
  - exact H.
  - apply (IH (H w) e eq_refl).
Qed.

(** C5. Whatever the three calls into [os] answer, as long as what they
    raise is of the class [OSError] (and [os.path.exists] returns),
    [get_folder_size] returns a total and never raises.  For calls that
    answer by path, the total is the sum, over the file names of the
    triples the walk yielded before it stopped or failed, of the sizes of
    the files that are present and whose size lookup returned: a lookup
    that raises adds 0 and the files after it are still counted, a walk
    that fails keeps what was added so far.  On the tree, an entry that
    vanished after it was listed adds 0, and a root that cannot be listed
    gives 0. *)
Theorem get_folder_size_never_raises (os : os_module) (folder_path : fspath)
    (w : world) :
  raises_OSError_only os ->
  (exists total_size w',
      get_folder_size_on os folder_path w = (Returns total_size, w')) /\
  (forall present size triples failure,
      os = scripted present size triples failure ->
      get_folder_size_on os folder_path w
      = (Returns (if present folder_path
                  then scripted_total present size triples
                  else 0), w)) /\
  (exists total_size, get_folder_size folder_path w = (Returns total_size, w)) /\
  (forall ro iu before name after,
      lookup (fs w) folder_path
      = Some (Dir ro iu true (before ++ (name, Dangling) :: after)) ->
      unique_names (Dir ro iu true (before ++ (name, Dangling) :: after)) = true ->
      get_folder_size folder_path w
      = (Returns (sum_entries reached_in before
                  + sum_entries reached_in after), w)) /\
  (forall ro iu es,
      lookup (fs w) folder_path = Some (Dir ro iu false es) ->
      get_folder_size folder_path w = (Returns 0, w)).
Proof.
  intros H. split; [| split; [| split; [| split]]].
  - pose proof H as (Hex & _ & Hwalk).
    unfold get_folder_size_on, run_body.
    unfold bind at 1. unfold lift at 1. cbn [fst snd].
    destruct (Hex folder_path w) as (b & w1 & E). rewrite E.
    destruct b; cbn [negb]; [| eexists; eexists; reflexivity].
    unfold bind at 1. unfold try_except at 1. unfold bind at 1.
    unfold lift at 1. cbn [fst snd].
    specialize (Hwalk folder_path w1).
    destruct (walk os folder_path w1) as [[g|e] w2].
    + destruct (walk_loop_outcome os g H Hwalk (0, w2)) as (r & s' & E' & Hr).
      rewrite E'. destruct r as [u|e]; [| rewrite Hr];
        eexists; eexists; reflexivity.
    + rewrite Hwalk. eexists. eexists. reflexivity.
  - intros present size triples failure Eos.
    pose proof H as (_ & Hsize & Hwalk).
    assert (Hp : forall p v, path_exists os p v = (Returns (present p), v))
      by (subst os; reflexivity).
    assert (Hg : forall p v, path_getsize os p v = (size p, v))
      by (subst os; reflexivity).
    assert (Hw : forall p v,
               walk os p v = (Returns (walker_of triples failure), v))
      by (subst os; reflexivity).
    assert (Hs : forall p e, size p = Raises e -> is_OSError e = true).
    { intros p e Hpe. apply (Hsize p w e w). rewrite Hg, Hpe. reflexivity. }
    assert (Hf : forall e, failure = Some e -> is_OSError e = true).
    { apply (scripted_failure triples failure w).
      specialize (Hwalk folder_path w). rewrite Hw in Hwalk. exact Hwalk. }
    unfold get_folder_size_on, run_body.
    unfold bind at 1. unfold lift at 1. cbn [fst snd]. rewrite Hp.
    destruct (present folder_path); cbn [negb]; [| reflexivity].
    unfold bind at 1. unfold try_except at 1. unfold bind at 1.
    unfold lift at 1. cbn [fst snd]. rewrite Hw.
    rewrite (scripted_walk os present size triples failure _ _ _ Eos Hs).
    destruct failure as [e|]; [rewrite (Hf e eq_refl) |]; reflexivity.
  - eexists. apply get_folder_size_run.
  - intros ro iu before name after Hl Hu.
    rewrite get_folder_size_run.
    rewrite (folder_bytes_reached _ _ _ Hl Hu eq_refl).
    rewrite reached_bytes_dir, sum_entries_app.
    cbn [sum_entries fold_right snd]. unfold reached_in at 2.
    cbn [symlink reached_bytes]. reflexivity.
  - intros ro iu es Hl. rewrite get_folder_size_run. unfold folder_bytes.
    rewrite Hl. reflexivity.
Qed.

Lemma get_folder_size_never_raises_witness :
  raises_OSError_only racing_os /\
  get_folder_size_on racing_os Temp (quiet (volume three_files))
  = (Returns 20, quiet (volume three_files)).
Proof.
  assert (H : raises_OSError_only racing_os).
  { split; [| split].
    - intros p w. exists true, w. reflexivity.
    - intros p w e w'. unfold racing_os. cbn [path_getsize scripted].
      unfold eval.
      destruct (prefixb ["Temp"%string; "b.tmp"%string] p);
        intros E; inversion E. reflexivity.
    - intros p w. cbn. intros _. reflexivity. }
  split; [exact H |].
  exact (proj1 (proj2 (get_folder_size_never_raises racing_os Temp
                         (quiet (volume three_files)) H))
           _ _ _ _ eq_refl).
Defined.

(** ** The file system: updates *)

Lemma alter_ext_assoc (f g : node -> option node) (c : string)
    (es : list (string * node)) :
  (forall ch, assoc c es = Some ch -> f ch = g ch) ->
  alter f c es = alter g c es.
Proof.
  induction es as [|[k v] es IH]; intros H; [reflexivity |].
  cbn [alter assoc] in *. destruct (String.eqb c k).
  - rewrite (H v eq_refl). reflexivity.
  - rewrite IH by exact H. reflexivity.
Qed.

Lemma alter_alter (f g : node -> option node) (h : node -> node) (c : string)
    (es : list (string * node)) :
  (forall v, f v = Some (h v)) ->
  alter g c (alter f c es) = alter (fun v => g (h v)) c es.
Proof.
  intros Hf. induction es as [|[k v] es IH]; [reflexivity |].
  cbn [alter]. destruct (String.eqb c k) eqn:E.
  - rewrite Hf. cbn [alter]. rewrite E. reflexivity.
  - cbn [alter]. rewrite E, IH. reflexivity.
Qed.

Lemma assoc_alter_same (f : node -> option node) (c : string)
    (es : list (string * node)) (ch ch' : node) :
  assoc c es = Some ch -> f ch = Some ch' -> assoc c (alter f c es) = Some ch'.
Proof.
  induction es as [|[k v] es IH]; intros Ha Hf; [discriminate |].
  cbn [alter assoc] in *. destruct (String.eqb c k) eqn:E.
  - inversion Ha; subst. rewrite Hf. cbn [assoc]. rewrite E. reflexivity.
  - cbn [assoc]. rewrite E. apply IH; assumption.
Qed.

Lemma alter_head (f : node -> option node) (name : string) (ch : node)
    (rest : list (string * node)) :
  alter f name ((name, ch) :: rest) = keep name (f ch) rest.
Proof. cbn [alter]. rewrite String.eqb_refl. reflexivity. Qed.

(** An update only reads the node it rewrites. *)
Lemma update_at (p : fspath) (f : node -> option node) (root n : node) :
  lookup root p = Some n -> update p f root = put p (f n) root.
Proof.
  unfold put. revert root. induction p as [|c p IH]; intros root Hl.
  - cbn in Hl. inversion Hl; subst. reflexivity.
  - cbn [lookup] in Hl.
    destruct root as [| ro iu ls es | | j ro ls es]; try discriminate.
    all: destruct (assoc c es) as [ch|] eqn:Ea; [| discriminate].
    all: cbn [update]; f_equal; apply alter_ext_assoc; intros ch' Hch'.
    all: rewrite Ea in Hch'; inversion Hch'; subst ch'.
    all: destruct p as [|c' p'];
      [cbn in Hl; inversion Hl; subst; reflexivity
      | f_equal; apply IH; exact Hl].
Qed.

Lemma put_id (p : fspath) (root n : node) :
  lookup root p = Some n -> put p (Some n) root = root.
Proof.
  unfold put. revert root. induction p as [|c p IH]; intros root Hl.
  - cbn in Hl. inversion Hl; subst. reflexivity.
  - cbn [lookup] in Hl.
    assert (Hes : forall es,
               match assoc c es with
               | Some ch => lookup ch p
               | None => None
               end = Some n ->
               alter (match p with
                      | [] => fun _ : node => Some n
                      | _ :: _ => fun ch0 : node =>
                                    Some (update p (fun _ : node => Some n) ch0)
                      end) c es = es).
    { intros es Hes.
      destruct (assoc c es) as [ch|] eqn:Ea; [| discriminate].
      assert (Hf : forall v, assoc c es = Some v ->
                (match p with
                 | [] => fun _ : node => Some n
                 | _ :: _ => fun ch0 : node =>
                               Some (update p (fun _ : node => Some n) ch0)
                 end) v = Some v).
      { intros v Hv. rewrite Ea in Hv. inversion Hv; subst v.
        destruct p as [|c' p'].
        - cbn in Hes. inversion Hes; subst. reflexivity.
        - f_equal. apply IH. exact Hes. }
      clear Ea Hes IH Hl. induction es as [|[k v] es IHes]; [reflexivity |].
      cbn [alter assoc] in *. destruct (String.eqb c k).
      + rewrite (Hf v eq_refl). reflexivity.
      + rewrite IHes by exact Hf. reflexivity. }
    destruct root as [| ro iu ls es | | j ro ls es]; try discriminate;
      cbn [update]; rewrite (Hes es Hl); reflexivity.
Qed.

(** A later replacement at the same path absorbs an earlier one. *)
Lemma put_put (p : fspath) (x : node) (y : option node) (root : node) :
  p <> [] -> put p y (put p (Some x) root) = put p y root.
Proof.
  unfold put. revert root. induction p as [|c p IH]; intros root Hp;
    [congruence |].
  destruct root as [| ro iu ls es | | j ro ls es]; try reflexivity.
  all: cbn [update]; f_equal.
  all: destruct p as [|c' p'];
    [rewrite (alter_alter _ _ (fun _ => x)) by reflexivity; reflexivity
    | rewrite (alter_alter _ _
                 (fun ch => update (c' :: p') (fun _ => Some x) ch))
        by reflexivity;
      apply alter_ext_assoc; intros ch _; f_equal; apply IH; discriminate].
Qed.

Lemma lookup_put (p : fspath) (x : node) (root n : node) :
  lookup root p = Some n -> lookup (put p (Some x) root) p = Some x.
Proof.
  unfold put. revert root. induction p as [|c p IH]; intros root Hl;
    [reflexivity |].
  cbn [lookup] in Hl.
  destruct root as [| ro iu ls es | | j ro ls es]; try discriminate.
  all: destruct (assoc c es) as [ch|] eqn:Ea; [| discriminate].
  all: cbn [update lookup].
  all: destruct p as [|c' p'];
    [rewrite (assoc_alter_same (fun _ => Some x) c es ch x Ea eq_refl);
     reflexivity
    | rewrite (assoc_alter_same
                 (fun ch0 => Some (update (c' :: p') (fun _ => Some x) ch0))
                 c es ch _ Ea eq_refl);
      apply IH; exact Hl].
Qed.

(** A change to an entry of a directory is a change of its listing. *)
Lemma put_child (p : fspath) (name : string) (y : option node) (root : node)
    ro iu ls es :
  lookup root p = Some (Dir ro iu ls es) ->
  put (os_path_join p name) y root
  = put p (Some (Dir ro iu ls (alter (fun _ => y) name es))) root.
Proof.
  unfold put, os_path_join. revert root. induction p as [|c p IH]; intros root Hl.
  - cbn in Hl. inversion Hl; subst. reflexivity.
  - cbn [lookup] in Hl.
    destruct root as [| ro0 iu0 ls0 es0 | | j0 ro0 ls0 es0]; try discriminate.
    all: destruct (assoc c es0) as [ch|] eqn:Ea; [| discriminate].
    all: cbn [app update]; f_equal; apply alter_ext_assoc; intros ch' Hch'.
    all: rewrite Ea in Hch'; inversion Hch'; subst ch'.
    all: destruct p as [|c' p'];
      [cbn in Hl; inversion Hl; subst; reflexivity
      | cbn [app]; f_equal; apply (IH ch); exact Hl].
Qed.

Lemma put_child_link (p : fspath) (name : string) (y : option node)
    (root : node) j ro ls es :
  lookup root p = Some (DirLink j ro ls es) ->
  put (os_path_join p name) y root
  = put p (Some (DirLink j ro ls (alter (fun _ => y) name es))) root.
Proof.
  unfold put, os_path_join. revert root. induction p as [|c p IH]; intros root Hl.
  - cbn in Hl. inversion Hl; subst. reflexivity.
  - cbn [lookup] in Hl.
    destruct root as [| ro0 iu0 ls0 es0 | | j0 ro0 ls0 es0]; try discriminate.
    all: destruct (assoc c es0) as [ch|] eqn:Ea; [| discriminate].
    all: cbn [app update]; f_equal; apply alter_ext_assoc; intros ch' Hch'.
    all: rewrite Ea in Hch'; inversion Hch'; subst ch'.
    all: destruct p as [|c' p'];
      [cbn in Hl; inversion Hl; subst; reflexivity
      | cbn [app]; f_equal; apply (IH ch); exact Hl].
Qed.

(** ** Cleaner: what the removal primitives do *)

Lemma os_unlink_file (p : fspath) (w : world) size ro iu :
  p <> [] -> lookup (fs w) p = Some (File size ro iu) ->
  os_unlink p w =
  if ro || iu then (Raises PermissionError, w)
  else (Returns tt, with_fs (put p None (fs w)) w).
Proof.
  intros Hp Hl. unfold os_unlink. destruct p; [congruence |].
  rewrite Hl. reflexivity.
Qed.

Lemma os_unlink_dangling (p : fspath) (w : world) :
  p <> [] -> lookup (fs w) p = Some Dangling ->
  os_unlink p w = (Returns tt, with_fs (put p None (fs w)) w).
Proof.
  intros Hp Hl. unfold os_unlink. destruct p; [congruence |].
  rewrite Hl. reflexivity.
Qed.

Lemma os_rmdir_empty (p : fspath) (w : world) ro iu ls :
  p <> [] -> lookup (fs w) p = Some (Dir ro iu ls []) ->
  os_rmdir p w =
  if ro || iu then (Raises PermissionError, w)
  else (Returns tt, with_fs (put p None (fs w)) w).
Proof.
  intros Hp Hl. unfold os_rmdir. destruct p; [congruence |].
  rewrite Hl. reflexivity.
Qed.

Lemma os_chmod_run (p : fspath) (w : world) (n : node) :
  lookup (fs w) p = Some n -> n <> Dangling ->
  os_chmod p S_IWRITE w
  = (Returns tt, with_fs (put p (clear_read_only n) (fs w)) w).
Proof.
  intros Hl Hn. unfold os_chmod. rewrite Hl.
  destruct n; try congruence; unfold set_fs, with_fs;
    rewrite (update_at _ _ _ _ Hl); reflexivity.
Qed.

Lemma os_path_exists_node (p : fspath) (w : world) (n : node) :
  lookup (fs w) p = Some n -> n <> Dangling ->
  os_path_exists p w = (Returns true, w).
Proof.
  intros Hl Hn. unfold os_path_exists. rewrite Hl.
  destruct n; try congruence; reflexivity.
Qed.

Lemma with_fs_put_put (p : fspath) (x : node) (y : option node) (w : world) :
  p <> [] ->
  with_fs (put p y (fs (with_fs (put p (Some x) (fs w)) w)))
          (with_fs (put p (Some x) (fs w)) w)
  = with_fs (put p y (fs w)) w.
Proof.
  intros Hp. unfold with_fs. cbn [fs stdout others]. rewrite put_put by exact Hp.
  reflexivity.
Qed.

(** The handler on a file that refused [unlink]: the read-only attribute is
    cleared and the file goes, unless it is in use. *)
Lemma handler_unlink (p : fspath) (w : world) size ro iu (e : exn) :
  p <> [] -> lookup (fs w) p = Some (File size ro iu) ->
  handle_remove_readonly os_unlink p e w =
  (if iu then Raises PermissionError else Returns tt,
   with_fs (put p (if iu then Some (File size false iu) else None) (fs w)) w).
Proof.
  intros Hp Hl. unfold handle_remove_readonly.
  rewrite (bind_returns _ _ _ _ _ (os_path_exists_node _ _ _ Hl ltac:(discriminate))).
  rewrite (bind_returns _ _ _ _ _ (os_chmod_run _ _ _ Hl ltac:(discriminate))).
  cbn [clear_read_only].
  rewrite (os_unlink_file p _ size false iu Hp)
    by (cbn [fs with_fs]; apply (lookup_put _ _ _ _ Hl)).
  cbn [orb]. destruct iu; [reflexivity |].
  rewrite with_fs_put_put by exact Hp. reflexivity.
Qed.

Lemma handler_rmdir (p : fspath) (w : world) ro iu ls (e : exn) :
  p <> [] -> lookup (fs w) p = Some (Dir ro iu ls []) ->
  handle_remove_readonly os_rmdir p e w =
  (if iu then Raises PermissionError else Returns tt,
   with_fs (put p (if iu then Some (Dir false iu ls []) else None) (fs w)) w).
Proof.
  intros Hp Hl. unfold handle_remove_readonly.
  rewrite (bind_returns _ _ _ _ _ (os_path_exists_node _ _ _ Hl ltac:(discriminate))).
  rewrite (bind_returns _ _ _ _ _ (os_chmod_run _ _ _ Hl ltac:(discriminate))).
  cbn [clear_read_only].
  rewrite (os_rmdir_empty p _ false iu ls Hp)
    by (cbn [fs with_fs]; apply (lookup_put _ _ _ _ Hl)).
  cbn [orb]. destruct iu; [reflexivity |].
  rewrite with_fs_put_put by exact Hp. reflexivity.
Qed.

Lemma os_unlink_link (p : fspath) (w : world) j ro ls es :
  p <> [] -> lookup (fs w) p = Some (DirLink j ro ls es) ->
  os_unlink p w =
  if ro then (Raises PermissionError, w)
  else (Returns tt, with_fs (put p None (fs w)) w).
Proof.
  intros Hp Hl. unfold os_unlink. destruct p; [congruence |].
  rewrite Hl. reflexivity.
Qed.

(** The handler on a link that refused [unlink]: the read-only attribute
    of the link is cleared and the link goes. *)
Lemma handler_unlink_link (p : fspath) (w : world) j ro ls es (e : exn) :
  p <> [] -> lookup (fs w) p = Some (DirLink j ro ls es) ->
  handle_remove_readonly os_unlink p e w =
  (Returns tt, with_fs (put p None (fs w)) w).
Proof.
  intros Hp Hl. unfold handle_remove_readonly.
  rewrite (bind_returns _ _ _ _ _ (os_path_exists_node _ _ _ Hl ltac:(discriminate))).
  rewrite (bind_returns _ _ _ _ _ (os_chmod_run _ _ _ Hl ltac:(discriminate))).
  cbn [clear_read_only].
  rewrite (os_unlink_link p _ j false ls es Hp)
    by (cbn [fs with_fs]; apply (lookup_put _ _ _ _ Hl)).
  rewrite with_fs_put_put by exact Hp. reflexivity.
Qed.

(** The handler on the link [rmtree] refused: the read-only attribute of
    the link is cleared, [os.path.islink] returns, and so does the
    handler. *)
Lemma handler_islink (p : fspath) (w : world) j ro ls es (e : exn) :
  lookup (fs w) p = Some (DirLink j ro ls es) ->
  handle_remove_readonly (fun p => _ <- os_path_islink p ;; ret tt) p e w =
  (Returns tt, with_fs (put p (Some (DirLink j false ls es)) (fs w)) w).
Proof.
  intros Hl. unfold handle_remove_readonly.
  rewrite (bind_returns _ _ _ _ _ (os_path_exists_node _ _ _ Hl ltac:(discriminate))).
  rewrite (bind_returns _ _ _ _ _ (os_chmod_run _ _ _ Hl ltac:(discriminate))).
  cbn [clear_read_only]. reflexivity.
Qed.

Lemma handler_scandir (p : fspath) (w : world) ro iu es (e : exn) :
  lookup (fs w) p = Some (Dir ro iu false es) ->
  handle_remove_readonly (fun p => _ <- os_scandir p ;; ret tt) p e w =
  (Raises PermissionError, with_fs (put p (Some (Dir false iu false es)) (fs w)) w).
Proof.
  intros Hl. unfold handle_remove_readonly.
  rewrite (bind_returns _ _ _ _ _ (os_path_exists_node _ _ _ Hl ltac:(discriminate))).
  rewrite (bind_returns _ _ _ _ _ (os_chmod_run _ _ _ Hl ltac:(discriminate))).
  cbn [clear_read_only].
  apply bind_raises. unfold os_scandir. cbn [fs with_fs].
  rewrite (lookup_put _ _ _ _ Hl). reflexivity.
Qed.

(** ** Cleaner: what [shutil.rmtree] does with the handler *)

Lemma rm_result_dir ro iu es :
  rm_result (Dir ro iu true es) =
  match rm_entries es with
  | (Raises e, es') => (Raises e, Some (Dir ro iu true es'))
  | (Returns _, _) =>
      if iu then (Raises PermissionError, Some (Dir false iu true []))
      else (Returns tt, None)
  end.
Proof.
  cbn [rm_result].
  assert (E : (fix each (l : list (string * node))
               : outcome unit * list (string * node) :=
               match l with
               | [] => (Returns tt, [])
               | (name, ch) :: l' =>
                   match rm_result ch with
                   | (Returns _, _) => each l'
                   | (Raises e, remains) => (Raises e, keep name remains l')
                   end
               end) es = rm_entries es).
  { induction es as [|[k v] es IH]; [reflexivity |].
    cbn [rm_entries]. rewrite <- IH. reflexivity. }
  rewrite E. reflexivity.
Qed.

Lemma rmtree_unsafe_dir ro iu ls es path onerror :
  rmtree_unsafe (Dir ro iu ls es) path onerror =
  (listed <- try_except ((fun p => _ <- os_scandir p ;; ret tt) path ;; ret true)
               is_OSError
               (fun e => onerror (fun p => _ <- os_scandir p ;; ret tt) path e ;;
                         ret false) ;;
   (if listed : bool then rmtree_entries path onerror es else ret tt) ;;
   try_except (os_rmdir path) is_OSError (fun e => onerror os_rmdir path e)).
Proof. reflexivity. Qed.

Lemma os_path_join_nonempty (p : fspath) (name : string) : os_path_join p name <> [].
Proof. unfold os_path_join. destruct p; discriminate. Qed.

Lemma with_fs_fs (w : world) : with_fs (fs w) w = w.
Proof. destruct w; reflexivity. Qed.

(** [rmtree_unsafe] with the handler, on a directory present at [path],
    ends as [rm_result] says and leaves what [rm_result] says. *)
Lemma rmtree_unsafe_run (n : node) :
  forall (path : fspath) (w : world),
    path <> [] -> lookup (fs w) path = Some n ->
    is_dir_node n = true -> link_refused n = false ->
    rmtree_unsafe n path handle_remove_readonly w
    = (fst (rm_result n), with_fs (put path (snd (rm_result n)) (fs w)) w).
Proof.
  induction n as [s ro iu|ro iu ls es IH| |j ro ls es IH]
    using node_nested_ind; intros path w Hp Hl Hd Hk; try discriminate.
  rewrite rmtree_unsafe_dir. destruct ls.
  2:{ (* the directory cannot be listed *)
    cbn [rm_result fst snd].
    apply bind_raises.
    erewrite try_caught; [| apply bind_raises; apply bind_raises;
      unfold os_scandir; rewrite Hl; reflexivity | reflexivity].
    apply bind_raises. eapply handler_scandir. exact Hl. }
  (* the listing succeeds *)
  erewrite bind_returns;
    [| apply try_returns; erewrite bind_returns;
       [reflexivity | erewrite bind_returns; [reflexivity |];
        unfold os_scandir; rewrite Hl; reflexivity]].
  (* the entries *)
  assert (Hloop : forall l w,
    lookup (fs w) path = Some (Dir ro iu true l) ->
    Forall (fun e => forall path w,
              path <> [] -> lookup (fs w) path = Some (snd e) ->
              is_dir_node (snd e) = true -> link_refused (snd e) = false ->
              rmtree_unsafe (snd e) path handle_remove_readonly w
              = (fst (rm_result (snd e)),
                 with_fs (put path (snd (rm_result (snd e))) (fs w)) w)) l ->
    rmtree_entries path handle_remove_readonly l w
    = (fst (rm_entries l),
       with_fs (put path (Some (Dir ro iu true (snd (rm_entries l)))) (fs w)) w)).
  { clear Hl w IH. induction l as [|[name ch] l IHl]; intros w Hl HP.
    - cbn [rmtree_entries rm_entries fst snd]. unfold ret.
      rewrite (put_id _ _ _ Hl), with_fs_fs. reflexivity.
    - inversion HP as [|? ? HPch HPl]; subst. cbn [snd] in HPch.
      assert (Hch : lookup (fs w) (os_path_join path name) = Some ch).
      { rewrite (lookup_child _ _ _ _ _ _ _ Hl). apply assoc_head. }
      assert (Hstep :
        match ch with
        | Dir _ _ _ _ =>
            rmtree_unsafe ch (os_path_join path name) handle_remove_readonly
        | _ => try_except (os_unlink (os_path_join path name)) is_OSError
                 (fun e => handle_remove_readonly os_unlink (os_path_join path name) e)
        end w
        = (fst (rm_result ch),
           with_fs (put path (Some (Dir ro iu true
                                      (keep name (snd (rm_result ch)) l)))
                        (fs w)) w)).
      { rewrite <- (alter_head (fun _ => snd (rm_result ch)) name ch l).
        rewrite <- (put_child _ _ _ _ _ _ _ _ Hl).
        destruct ch as [s' ro' iu'|ro' iu' ls' es'| |j' ro' ls' es'].
        - cbn [rm_result].
          unfold try_except.
          rewrite (os_unlink_file _ _ _ _ _ (os_path_join_nonempty _ _) Hch).
          destruct ro', iu'; cbn [orb is_OSError fst snd];
            try rewrite (handler_unlink _ _ _ _ _ _ (os_path_join_nonempty _ _) Hch);
            reflexivity.
        - apply HPch;
            [apply os_path_join_nonempty | exact Hch | reflexivity | reflexivity].
        - cbn [rm_result fst snd]. apply try_returns.
          apply os_unlink_dangling; [apply os_path_join_nonempty | exact Hch].
        - cbn [rm_result fst snd]. unfold try_except.
          rewrite (os_unlink_link _ _ _ _ _ _ (os_path_join_nonempty _ _) Hch).
          destruct ro'; cbn [is_OSError];
            try rewrite (handler_unlink_link _ _ _ _ _ _ _
                           (os_path_join_nonempty _ _) Hch);
            reflexivity. }
      change (rmtree_entries path handle_remove_readonly ((name, ch) :: l))
        with (bind (match ch with
                    | Dir _ _ _ _ =>
                        rmtree_unsafe ch (os_path_join path name) handle_remove_readonly
                    | _ => try_except (os_unlink (os_path_join path name)) is_OSError
                             (fun e => handle_remove_readonly os_unlink
                                         (os_path_join path name) e)
                    end)
                   (fun _ => rmtree_entries path handle_remove_readonly l)).
      cbn [rm_entries]. destruct (rm_result ch) as [[[]|e] remains] eqn:Er;
        cbn [fst snd] in Hstep.
      + (* the entry is gone *)
        rewrite (bind_returns _ _ _ _ _ Hstep).
        assert (Hleft : remains = None).
        { clear - Er. destruct ch as [s' ro' iu'|ro' iu' ls' es'| |j' ro' ls' es'].
          - cbn in Er. destruct iu'; inversion Er; reflexivity.
          - destruct ls'; [| cbn in Er; inversion Er].
            rewrite rm_result_dir in Er.
            destruct (rm_entries es') as [[[]|e'] x]; [| inversion Er].
            destruct iu'; inversion Er; reflexivity.
          - cbn in Er. inversion Er; reflexivity.
          - cbn in Er. inversion Er; reflexivity. }
        subst remains. cbn [keep] in *.
        rewrite IHl.
        * cbn [fs with_fs stdout others]. unfold with_fs at 1.
          cbn [fs stdout others].
          rewrite put_put by exact Hp. reflexivity.
        * cbn [fs with_fs]. apply (lookup_put _ _ _ _ Hl).
        * exact HPl.
      + (* the removal stops here *)
        rewrite (bind_raises _ _ _ _ _ Hstep). reflexivity. }
  rewrite rm_result_dir.
  specialize (Hloop es w Hl IH).
  destruct (rm_entries es) as [[[]|e] es'] eqn:Ee; cbn [fst snd] in Hloop.
  - (* all entries are gone: remove the directory itself *)
    rewrite (bind_returns _ _ _ _ _ Hloop).
    assert (Hes' : es' = []).
    { clear - Ee. revert es' Ee. induction es as [|[k v] es IHes]; intros es' Ee.
      - cbn in Ee. inversion Ee; reflexivity.
      - cbn [rm_entries] in Ee.
        destruct (rm_result v) as [[[]|e'] x]; [apply IHes; exact Ee | inversion Ee]. }
    subst es'.
    set (w1 := with_fs (put path (Some (Dir ro iu true [])) (fs w)) w).
    assert (Hl1 : lookup (fs w1) path = Some (Dir ro iu true []))
      by (apply (lookup_put _ _ _ _ Hl)).
    unfold try_except. rewrite (os_rmdir_empty _ _ _ _ _ Hp Hl1).
    destruct (ro || iu) eqn:Eo.
    + cbn [is_OSError]. rewrite (handler_rmdir _ _ _ _ _ _ Hp Hl1).
      unfold w1. rewrite with_fs_put_put by exact Hp.
      destruct iu; reflexivity.
    + apply orb_false_iff in Eo as [-> ->].
      unfold w1. rewrite with_fs_put_put by exact Hp. reflexivity.
  - rewrite (bind_raises _ _ _ _ _ Hloop). reflexivity.
Qed.

Lemma rm_result_raises (n : node) (e : exn) :
  fst (rm_result n) = Raises e -> e = PermissionError.
Proof.
  induction n as [s ro iu|ro iu ls es IH| |j ro ls es IH]
    using node_nested_ind; intros H.
  - cbn in H. destruct iu; cbn in H; congruence.
  - destruct ls; [| cbn in H; congruence].
    rewrite rm_result_dir in H.
    destruct (rm_entries es) as [[[]|e'] es'] eqn:Ee.
    + destruct iu; cbn in H; congruence.
    + cbn in H. inversion H; subst e'. clear H.
      revert es' Ee. induction es as [|[k v] es IHes]; intros es' Ee.
      * cbn in Ee. congruence.
      * inversion IH as [|? ? IHv IHl]; subst. cbn [snd] in IHv.
        cbn [rm_entries] in Ee.
        destruct (rm_result v) as [[[]|e''] x] eqn:Ev.
        -- apply (IHes IHl es' Ee).
        -- inversion Ee; subst. apply IHv. reflexivity.
  - cbn in H. congruence.
  - cbn in H. congruence.
Qed.

Lemma rm_result_returns (n : node) :
  fst (rm_result n) = Returns tt -> snd (rm_result n) = None.
Proof.
  destruct n as [s ro iu|ro iu ls es| |j ro ls es]; intros H.
  - cbn in *. destruct iu; cbn in *; congruence.
  - destruct ls; [| cbn in H; congruence].
    rewrite rm_result_dir in *.
    destruct (rm_entries es) as [[[]|e'] es']; [| cbn in H; congruence].
    destruct iu; cbn in *; congruence.
  - reflexivity.
  - reflexivity.
Qed.

(** ** Cleaner: the deletion loop *)

Lemma path_name_join (p : fspath) (name : string) :
  path_name (os_path_join p name) = name.
Proof. unfold path_name, os_path_join. apply last_last. Qed.

Lemma put_put_some (p : fspath) (x y : node) (root : node) :
  put p (Some y) (put p (Some x) root) = put p (Some y) root.
Proof.
  destruct p as [|c p]; [reflexivity |]. apply put_put. discriminate.
Qed.

Section target.

(** The target of a run, a directory or a link to one, as a function of
    its listing. *)
Variable mk : list (string * node) -> node.
Hypothesis mk_child : forall root p name es,
    lookup root p = Some (mk es) ->
    lookup root (os_path_join p name) = assoc name es.
Hypothesis mk_put : forall root p name y es,
    lookup root p = Some (mk es) ->
    put (os_path_join p name) y root
    = put p (Some (mk (alter (fun _ => y) name es))) root.
Hypothesis mk_scandir : forall w p es,
    lookup (fs w) p = Some (mk es) ->
    os_scandir p w = (Returns (map fst es), w).
Hypothesis mk_exists : forall es, mk es <> Dangling.

Lemma clean_item_run (p : fspath) es (name : string) (c : counters)
    (w : world) :
  lookup (fs w) p = Some (mk es) ->
  clean_item (os_path_join p name) (c, w) =
  let '(es', c', out) := item_step name (es, c, []) in
  (Returns tt, (c', target_world p (mk es') out w)).
Proof.
  intros Hl.
  pose proof (mk_child _ _ name _ Hl) as Hch.
  pose proof (os_path_join_nonempty p name) as Hne.
  assert (Hsame : target_world p (mk es) [] w = w).
  { unfold target_world. rewrite (put_id _ _ _ Hl), app_nil_r.
    destruct w; reflexivity. }
  unfold clean_item, item_step.
  destruct (assoc name es) as [[s ro' iu'|ro' iu' ls' sub| |j' ro' ls' sub]|]
    eqn:Ea.
  - (* a file *)
    unfold try_except, bind at 1, lift at 1, is_file. cbn [fst snd].
    rewrite Hch. unfold bind at 1, lift at 1. cbn [fst snd].
    rewrite (os_unlink_file _ _ _ _ _ Hne Hch).
    destruct (ro' || iu').
    + cbn [is_OSError]. unfold bind, lift, print, assign. cbn [fst snd].
      rewrite path_name_join. unfold target_world.
      rewrite (put_id _ _ _ Hl). reflexivity.
    + unfold assign. cbn [fst snd]. unfold target_world, with_fs.
      rewrite app_nil_r. rewrite (mk_put _ _ _ _ _ Hl). reflexivity.
  - (* a directory *)
    unfold try_except, bind at 1, lift at 1, is_file. cbn [fst snd].
    rewrite Hch. unfold bind at 1, lift at 1, is_dir. cbn [fst snd].
    rewrite Hch. unfold bind at 1, lift at 1. cbn [fst snd].
    unfold shutil_rmtree. rewrite Hch.
    rewrite (rmtree_unsafe_run _ _ _ Hne Hch eq_refl eq_refl).
    rewrite (mk_put _ _ _ _ _ Hl).
    destruct (rm_result (Dir ro' iu' ls' sub)) as [[[]|e] remains] eqn:Er;
      cbn [fst snd].
    + pose proof (rm_result_returns (Dir ro' iu' ls' sub)) as Hr.
      rewrite Er in Hr. cbn [fst snd] in Hr. rewrite (Hr eq_refl).
      unfold assign. cbn [fst snd]. unfold target_world, with_fs.
      rewrite app_nil_r. reflexivity.
    + pose proof (rm_result_raises (Dir ro' iu' ls' sub) e) as He.
      rewrite Er in He. cbn [fst] in He. rewrite (He eq_refl).
      cbn [is_OSError]. unfold bind, lift, print, assign. cbn [fst snd].
      rewrite path_name_join. unfold target_world, with_fs. reflexivity.
  - (* neither a file nor a directory *)
    unfold try_except, bind at 1, lift at 1, is_file. cbn [fst snd].
    rewrite Hch. unfold bind at 1, lift at 1, is_dir. cbn [fst snd].
    rewrite Hch. unfold ret. rewrite Hsame. reflexivity.
  - (* a link to a directory *)
    unfold try_except, bind at 1, lift at 1, is_file. cbn [fst snd].
    rewrite Hch. unfold bind at 1, lift at 1, is_dir. cbn [fst snd].
    rewrite Hch. unfold bind at 1, lift at 1. cbn [fst snd].
    unfold shutil_rmtree. rewrite Hch.
    rewrite (handler_islink _ _ _ _ _ _ _ Hch).
    rewrite (mk_put _ _ _ _ _ Hl).
    unfold assign. cbn [fst snd]. unfold target_world, with_fs.
    rewrite app_nil_r. reflexivity.
  - (* no longer there *)
    unfold try_except, bind at 1, lift at 1, is_file. cbn [fst snd].
    rewrite Hch. unfold bind at 1, lift at 1, is_dir. cbn [fst snd].
    rewrite Hch. unfold ret. rewrite Hsame. reflexivity.
Qed.

Lemma item_step_out (name : string) es c out :
  item_step name (es, c, out) =
  let '(es', c', o) := item_step name (es, c, []) in (es', c', out ++ o).
Proof.
  unfold item_step.
  destruct (assoc name es) as [[s ro iu|ro iu ls sub| |j ro ls sub]|];
    rewrite ?app_nil_r; try reflexivity.
  - destruct (ro || iu); rewrite ?app_nil_r; reflexivity.
  - destruct (rm_result (Dir ro iu ls sub)) as [[[]|e] remains];
      rewrite ?app_nil_r; reflexivity.
Qed.

Lemma items_loop_out (names : list string) es c out :
  items_loop names (es, c, out) =
  let '(es', c', o) := items_loop names (es, c, []) in (es', c', out ++ o).
Proof.
  revert es c out. induction names as [|name names IH]; intros es c out.
  - cbn. rewrite app_nil_r. reflexivity.
  - unfold items_loop in *. cbn [fold_left].
    rewrite (item_step_out name es c out).
    destruct (item_step name (es, c, [])) as [[es1 c1] o1].
    rewrite (IH es1 c1 (out ++ o1)), (IH es1 c1 o1).
    destruct (fold_left _ names (es1, c1, [])) as [[es2 c2] o2].
    rewrite app_assoc. reflexivity.
Qed.

Lemma target_world_again (p : fspath) (n n' : node) out out' (w : world) :
  target_world p n' out' (target_world p n out w)
  = target_world p n' (out ++ out') w.
Proof.
  unfold target_world. cbn [fs stdout others].
  rewrite put_put_some, app_assoc. reflexivity.
Qed.

Lemma clean_items_run (p : fspath) (w0 : world) (n0 : node)
    (names : list string) :
  lookup (fs w0) p = Some n0 ->
  forall es c out,
    for_ (map (os_path_join p) names) clean_item
         (c, target_world p (mk es) out w0) =
    let '(es', c', out') := items_loop names (es, c, out) in
    (Returns tt, (c', target_world p (mk es') out' w0)).
Proof.
  intros Hl0. induction names as [|name names IH]; intros es c out.
  - reflexivity.
  - cbn [map for_]. unfold bind at 1.
    rewrite (clean_item_run p es name c)
      by (cbn [target_world fs]; apply (lookup_put _ _ _ _ Hl0)).
    unfold items_loop. cbn [fold_left]. fold (items_loop names).
    rewrite (item_step_out name es c out).
    destruct (item_step name (es, c, [])) as [[es1 c1] o1].
    rewrite target_world_again. apply IH.
Qed.

Lemma clean_temp_folder_unfold (folder_path : fspath) (location_name : string) :
  clean_temp_folder folder_path location_name =
  (b <- os_path_exists folder_path ;;
   if negb b then print (PathNotFound folder_path) ;; ret 0 else
   print (Cleaning location_name) ;;
   initial_size <- get_folder_size folder_path ;;
   run_body (mkcounters 0 0 0) (
     aborted <- try_except
       (items <- lift (iterdir folder_path) ;;
        for_ items clean_item ;;
        ret None)
       is_Exception
       (fun e =>
          lift (print (ErrorAccessing location_name e)) ;;
          ret (Some 0)) ;;
     match aborted with
     | Some r => ret r
     | None =>
         lift others_run ;;
         final_size <- lift (get_folder_size folder_path) ;;
         let space_freed := initial_size - final_size in
         c <- locals ;;
         lift (print (FilesDeleted (files_deleted c))) ;;
         lift (print (FoldersDeleted (folders_deleted c))) ;;
         (if errors c >? 0
          then lift (print (ItemsSkipped (errors c)))
          else ret tt) ;;
         ret space_freed
     end)).
Proof. reflexivity. Qed.

(** The whole run on a target that exists and can be listed. *)
Lemma clean_temp_folder_run_on (folder_path : fspath) (location_name : string)
    (w : world) es :
  lookup (fs w) folder_path = Some (mk es) ->
  clean_temp_folder folder_path location_name w =
  let '(es', c, skipped) :=
    items_loop (map fst es) (es, mkcounters 0 0 0, []) in
  let after := others w (put folder_path (Some (mk es')) (fs w)) in
  (Returns (folder_bytes (fs w) folder_path - folder_bytes after folder_path),
   mkworld after
           (stdout w ++ [Cleaning location_name] ++ skipped ++ report c)
           (others w)).
Proof.
  intros Hl. rewrite clean_temp_folder_unfold.
  rewrite (bind_returns _ _ _ _ _ (os_path_exists_node _ _ _ Hl (mk_exists es))).
  cbn [negb]. rewrite print_then.
  erewrite bind_returns; [| apply get_folder_size_run].
  cbn [fs].
  set (w1 := mkworld (fs w) (stdout w ++ [Cleaning location_name]) (others w)).
  assert (Hw1 : w1 = target_world folder_path (mk es)
                       [Cleaning location_name] w).
  { unfold w1, target_world. rewrite (put_id _ _ _ Hl). reflexivity. }
  destruct (items_loop (map fst es) (es, mkcounters 0 0 0, []))
    as [[es' c] skipped] eqn:Eloop.
  assert (Eloop' :
    items_loop (map fst es) (es, mkcounters 0 0 0, [Cleaning location_name])
    = (es', c, [Cleaning location_name] ++ skipped)).
  { rewrite items_loop_out, Eloop. reflexivity. }
  unfold run_body.
  assert (Hloop :
    try_except
      (items <- lift (iterdir folder_path) ;;
       for_ items clean_item ;;
       ret None)
      is_Exception
      (fun e => lift (print (ErrorAccessing location_name e)) ;; ret (Some 0))
      (mkcounters 0 0 0, w1)
    = (Returns (@None Z),
       (c, target_world folder_path (mk es')
             ([Cleaning location_name] ++ skipped) w))).
  { apply try_returns.
    assert (Hit : lift (L := counters) (iterdir folder_path) (mkcounters 0 0 0, w1)
                  = (Returns (map (os_path_join folder_path) (map fst es)),
                     (mkcounters 0 0 0, w1))).
    { unfold lift, iterdir, bind. cbn [fst snd].
      rewrite (mk_scandir w1 folder_path es) by exact Hl. reflexivity. }
    rewrite (bind_returns _ _ _ _ _ Hit). rewrite Hw1.
    unfold bind at 1.
    rewrite (clean_items_run folder_path w _ (map fst es) Hl).
    rewrite Eloop'. reflexivity. }
  unfold bind at 1. rewrite Hloop. clear Hloop.
  cbv zeta.
  unfold bind at 1, lift at 1, others_run. cbn [fst snd].
  unfold bind at 1, lift at 1. cbn [fst snd].
  rewrite get_folder_size_run.
  unfold bind at 1, locals. cbn [fst snd].
  unfold target_world, set_fs, report. cbn [fs stdout others].
  destruct (errors c >? 0);
    unfold bind, lift, print, ret; cbn [fst snd fs stdout others];
    repeat rewrite <- app_assoc; reflexivity.
Qed.

End target.

(** The whole run on a target directory that exists and can be listed. *)
Lemma clean_temp_folder_run (folder_path : fspath) (location_name : string)
    (w : world) ro iu es :
  lookup (fs w) folder_path = Some (Dir ro iu true es) ->
  clean_temp_folder folder_path location_name w =
  let '(es', c, skipped) :=
    items_loop (map fst es) (es, mkcounters 0 0 0, []) in
  let after := others w (put folder_path (Some (Dir ro iu true es')) (fs w)) in
  (Returns (folder_bytes (fs w) folder_path - folder_bytes after folder_path),
   mkworld after
           (stdout w ++ [Cleaning location_name] ++ skipped ++ report c)
           (others w)).
Proof.
  apply (clean_temp_folder_run_on (Dir ro iu true)).
  - intros root p name es0. apply lookup_child.
  - intros root p name y es0. apply put_child.
  - intros w0 p es0 H. unfold os_scandir. rewrite H. reflexivity.
  - discriminate.
Qed.

(** The same when the target is a link to a directory. *)
Lemma clean_temp_folder_run_link (folder_path : fspath)
    (location_name : string) (w : world) j ro es :
  lookup (fs w) folder_path = Some (DirLink j ro true es) ->
  clean_temp_folder folder_path location_name w =
  let '(es', c, skipped) :=
    items_loop (map fst es) (es, mkcounters 0 0 0, []) in
  let after := others w (put folder_path (Some (DirLink j ro true es')) (fs w)) in
  (Returns (folder_bytes (fs w) folder_path - folder_bytes after folder_path),
   mkworld after
           (stdout w ++ [Cleaning location_name] ++ skipped ++ report c)
           (others w)).
Proof.
  apply (clean_temp_folder_run_on (DirLink j ro true)).
  - intros root p name es0. apply lookup_child_link.
  - intros root p name y es0. apply put_child_link.
  - intros w0 p es0 H. unfold os_scandir. rewrite H. reflexivity.
  - discriminate.
Qed.

(** ** Cleaner: the fate of each child *)

Lemma tree_removable_dir ro iu ls es :
  tree_removable (Dir ro iu ls es) =
  ls && forallb (fun e => tree_removable (snd e)) es && negb iu.
Proof.
  cbn [tree_removable]. f_equal. f_equal.
  induction es as [|[k v] es IH]; [reflexivity |].
  cbn [forallb snd]. rewrite IH. reflexivity.
Qed.

Lemma rm_entries_removable (es : list (string * node)) :
  Forall (fun e => fst (rm_result (snd e)) = Returns tt <->
                   tree_removable (snd e) = true) es ->
  (fst (rm_entries es) = Returns tt <->
   forallb (fun e => tree_removable (snd e)) es = true).
Proof.
  induction es as [|[k v] es IH]; intros HP; [split; reflexivity |].
  inversion HP as [|? ? Hv Hes]; subst. cbn [snd] in Hv.
  cbn [rm_entries forallb snd]. rewrite andb_true_iff.
  destruct (rm_result v) as [[[]|e] x]; cbn [fst] in Hv.
  - rewrite (IH Hes). intuition.
  - cbn [fst]. split.
    + discriminate.
    + intros [Hv' _]. apply Hv in Hv'. discriminate.
Qed.

Lemma rm_result_removable (n : node) :
  fst (rm_result n) = Returns tt <-> tree_removable n = true.
Proof.
  induction n as [s ro iu|ro iu ls es IH| |j ro ls es IH]
    using node_nested_ind.
  - cbn. destruct iu; cbn; split; congruence.
  - rewrite tree_removable_dir. destruct ls.
    + rewrite rm_result_dir. pose proof (rm_entries_removable es IH) as He.
      destruct (rm_entries es) as [[[]|e] es'] eqn:Ee; cbn [fst] in He.
      * rewrite (proj1 He eq_refl). destruct iu; cbn; split; congruence.
      * destruct (forallb (fun e0 => tree_removable (snd e0)) es).
        -- destruct He as [_ He]. specialize (He eq_refl). discriminate.
        -- cbn. split; congruence.
    + cbn. split; congruence.
  - cbn. split; reflexivity.
  - cbn. split; reflexivity.
Qed.

Lemma assoc_app_notin (name : string) (a b : list (string * node)) :
  ~ In name (map fst a) -> assoc name (a ++ b) = assoc name b.
Proof.
  induction a as [|[k v] a IH]; intros Hn; [reflexivity |].
  cbn [app assoc]. destruct (String.eqb_spec name k) as [->|Hne].
  - exfalso. apply Hn. left. reflexivity.
  - apply IH. intros Hin. apply Hn. right. exact Hin.
Qed.

Lemma alter_app_notin (f : node -> option node) (name : string)
    (a b : list (string * node)) :
  ~ In name (map fst a) -> alter f name (a ++ b) = a ++ alter f name b.
Proof.
  induction a as [|[k v] a IH]; intros Hn; [reflexivity |].
  cbn [app alter]. destruct (String.eqb_spec name k) as [->|Hne].
  - exfalso. apply Hn. left. reflexivity.
  - rewrite IH; [reflexivity |]. intros Hin. apply Hn. right. exact Hin.
Qed.

Lemma count_cons (f : node -> bool) (name : string) (ch : node) es :
  count f ((name, ch) :: es) = (if f ch then 1 else 0) + count f es.
Proof. reflexivity. Qed.

Lemma items_loop_cons (name : string) (names : list string) st :
  items_loop (name :: names) st = items_loop names (item_step name st).
Proof. reflexivity. Qed.

Lemma leftovers_cons (name : string) (ch : node) es :
  leftovers ((name, ch) :: es) = keep name (left_over ch) (leftovers es).
Proof. reflexivity. Qed.

Lemma skipped_lines_cons (name : string) (ch : node) es :
  skipped_lines ((name, ch) :: es) =
  (if removal_fails ch then [Skipped name] else []) ++ skipped_lines es.
Proof.
  unfold skipped_lines. cbn [filter snd].
  destruct (removal_fails ch); reflexivity.
Qed.

Lemma loop_state_eq (a a' : list (string * node)) (x x' y y' z z' : Z)
    (o o' : list printed) :
  a = a' -> x = x' -> y = y' -> z = z' -> o = o' ->
  (a, mkcounters x y z, o) = (a', mkcounters x' y' z', o').
Proof. intros; subst; reflexivity. Qed.

(** With unique names the loop treats each child once, in order. *)
Lemma items_loop_run (rest : list (string * node)) :
  forall done c out,
    NoDup (map fst (done ++ rest)) ->
    items_loop (map fst rest) (done ++ rest, c, out) =
    (done ++ leftovers rest,
     mkcounters (files_deleted c + count unlinked rest)
                (folders_deleted c + (count tree_removed rest
                                      + count link_refused rest))
                (errors c + count removal_fails rest),
     out ++ skipped_lines rest).
Proof.
  induction rest as [|[name ch] rest IH]; intros done c out Hnd.
  - cbn. unfold count, sum_entries. cbn. rewrite !Z.add_0_r, !app_nil_r.
    destruct c; reflexivity.
  - assert (Hname : ~ In name (map fst done)).
    { rewrite map_app in Hnd. cbn [map fst] in Hnd.
      apply NoDup_remove_2 in Hnd. intros Hin. apply Hnd.
      apply in_or_app. left. exact Hin. }
    assert (Hnd' : forall x,
      NoDup (map fst ((done ++ keep name x []) ++ rest))).
    { intros [x|]; cbn [keep].
      - rewrite <- app_assoc. cbn [app].
        rewrite map_app in *. cbn [map fst] in *. exact Hnd.
      - rewrite app_nil_r. rewrite map_app in *. cbn [map fst] in Hnd.
        apply NoDup_remove_1 in Hnd. exact Hnd. }
    assert (Hdone : forall x l,
      done ++ keep name x l = (done ++ keep name x []) ++ l).
    { intros [x|] l; cbn [keep]; rewrite <- app_assoc; reflexivity. }
    cbn [map fst]. rewrite items_loop_cons.
    rewrite !count_cons, leftovers_cons, skipped_lines_cons.
    assert (Hstep :
      item_step name (done ++ (name, ch) :: rest, c, out) =
      ((done ++ keep name (left_over ch) []) ++ rest,
       mkcounters (files_deleted c + (if unlinked ch then 1 else 0))
                  (folders_deleted c + ((if tree_removed ch then 1 else 0)
                                        + (if link_refused ch then 1 else 0)))
                  (errors c + (if removal_fails ch then 1 else 0)),
       out ++ (if removal_fails ch then [Skipped name] else []))).
    { unfold item_step.
      rewrite (assoc_app_notin _ _ _ Hname), assoc_head.
      rewrite !(alter_app_notin _ _ _ _ Hname), !alter_head.
      destruct ch as [s ro iu|ro iu ls sub| |j ro ls sub].
      - cbn [unlinked tree_removed link_refused removal_fails left_over].
        destruct (ro || iu); cbn [negb keep];
          apply loop_state_eq; rewrite <- ?app_assoc, ?app_nil_r;
          try reflexivity; lia.
      - cbn [unlinked tree_removed link_refused removal_fails left_over].
        pose proof (rm_result_removable (Dir ro iu ls sub)) as Hrm.
        pose proof (rm_result_returns (Dir ro iu ls sub)) as Hret.
        destruct (rm_result (Dir ro iu ls sub)) as [[[]|e] remains];
          cbn [fst snd] in *.
        + rewrite (proj1 Hrm eq_refl). rewrite (Hret eq_refl). cbn [negb keep].
          apply loop_state_eq; rewrite <- ?app_assoc, ?app_nil_r;
            try reflexivity; lia.
        + destruct (tree_removable (Dir ro iu ls sub)).
          { destruct Hrm as [_ Hrm]. specialize (Hrm eq_refl). discriminate. }
          cbn [negb]. rewrite <- Hdone.
          rewrite (alter_app_notin _ _ _ _ Hname), alter_head.
          apply loop_state_eq; try reflexivity; lia.
      - cbn [unlinked tree_removed link_refused removal_fails left_over keep].
        destruct c as [x y z]. cbn [files_deleted folders_deleted errors].
        apply loop_state_eq; rewrite <- ?app_assoc, ?app_nil_r;
          try reflexivity; lia.
      - cbn [unlinked tree_removed link_refused removal_fails left_over].
        rewrite ?(alter_app_notin _ _ _ _ Hname), ?alter_head. cbn [keep].
        apply loop_state_eq; rewrite <- ?app_assoc, ?app_nil_r;
          try reflexivity; lia. }
    rewrite Hstep. rewrite (IH _ _ _ (Hnd' (left_over ch))).
    cbn [files_deleted folders_deleted errors].
    apply loop_state_eq; try lia.
    + rewrite <- Hdone. reflexivity.
    + rewrite <- app_assoc. reflexivity.
Qed.

Lemma leftovers_names (es : list (string * node)) (name : string) :
  In name (map fst (leftovers es)) -> In name (map fst es).
Proof.
  induction es as [|[k v] es IH]; intros Hin; [exact Hin |].
  rewrite leftovers_cons in Hin. cbn [map fst].
  destruct (left_over v); cbn [keep map fst] in Hin.
  - destruct Hin as [E|Hin]; [left; exact E | right; apply IH; exact Hin].
  - right. apply IH. exact Hin.
Qed.

(** After the loop each child is found as its iteration left it. *)
Lemma assoc_leftovers (es : list (string * node)) (name : string) (ch : node) :
  NoDup (map fst es) -> In (name, ch) es ->
  assoc name (leftovers es) = left_over ch.
Proof.
  induction es as [|[k v] es IH]; intros Hnd Hin; [contradiction |].
  cbn [map fst] in Hnd. inversion Hnd as [|? ? Hk Hnd']; subst.
  rewrite leftovers_cons. destruct Hin as [E|Hin].
  - inversion E; subst k v. destruct (left_over ch) as [x|]; cbn [keep].
    + apply assoc_head.
    + apply assoc_not_in. intros Hin. apply Hk. apply leftovers_names. exact Hin.
  - assert (Hne : name <> k).
    { intros ->. apply Hk. apply (in_map fst) in Hin. exact Hin. }
    destruct (left_over v) as [x|]; cbn [keep].
    + cbn [assoc]. destruct (String.eqb_spec name k); [contradiction |].
      apply IH; assumption.
    + apply IH; assumption.
Qed.

(** The run when the names of the target directory are unique. *)
Lemma clean_temp_folder_unique (folder_path : fspath) (location_name : string)
    (w : world) ro iu es :
  lookup (fs w) folder_path = Some (Dir ro iu true es) ->
  distinct (map fst es) = true ->
  let after_loop :=
    put folder_path (Some (Dir ro iu true (leftovers es))) (fs w) in
  clean_temp_folder folder_path location_name w =
  (Returns (folder_bytes (fs w) folder_path
            - folder_bytes (others w after_loop) folder_path),
   mkworld (others w after_loop)
     (stdout w ++ [Cleaning location_name] ++ skipped_lines es ++
      report (mkcounters (count unlinked es)
                         (count tree_removed es + count link_refused es)
                         (count removal_fails es)))
     (others w)).
Proof.
  intros Hl Hd after_loop.
  rewrite (clean_temp_folder_run _ _ _ _ _ _ Hl).
  pose proof (items_loop_run es [] (mkcounters 0 0 0) []
                (distinct_NoDup _ Hd)) as Hrun.
  cbn [app] in Hrun. rewrite Hrun. cbn [files_deleted folders_deleted errors].
  reflexivity.
Qed.

Lemma lookup_after (folder_path : fspath) (root : node) ro iu es
    (es' : list (string * node)) (name : string) :
  lookup root folder_path = Some (Dir ro iu true es) ->
  lookup (put folder_path (Some (Dir ro iu true es')) root)
         (os_path_join folder_path name)
  = assoc name es'.
Proof.
  intros Hl. apply (lookup_child _ _ _ ro iu true es').
  apply (lookup_put _ _ _ _ Hl).
Qed.

Lemma count_partition (es : list (string * node)) :
  count unlinked es + count tree_removed es + count link_refused es
  + count removal_fails es + count untargeted es
  = Z.of_nat (List.length es).
Proof.
  induction es as [|[k v] es IH]; [reflexivity |].
  rewrite !count_cons. cbn [List.length]. rewrite Nat2Z.inj_succ.
  destruct v as [s ro iu|ro iu ls sub| |j ro ls sub];
    cbn [unlinked tree_removed link_refused removal_fails untargeted].
  - destruct (ro || iu); cbn [negb]; lia.
  - destruct (tree_removable (Dir ro iu ls sub)); cbn [negb]; lia.
  - lia.
  - lia.
Qed.

Lemma count_app (f : node -> bool) (a b : list (string * node)) :
  count f (a ++ b) = count f a + count f b.
Proof. apply sum_entries_app. Qed.

Lemma count_none (f : node -> bool) (es : list (string * node)) :
  (forall e, In e es -> f (snd e) = false) -> count f es = 0.
Proof.
  induction es as [|[k v] es IH]; intros H; [reflexivity |].
  rewrite count_cons. pose proof (H (k, v) (or_introl eq_refl)) as Hv.
  cbn [snd] in Hv. rewrite Hv.
  rewrite IH; [reflexivity |]. intros e He. apply H. right. exact He.
Qed.

Lemma removed_left_over (ch : node) :
  unlinked ch = true \/ tree_removed ch = true -> left_over ch = None.
Proof.
  destruct ch as [s ro iu|ro iu ls sub| |j ro ls sub];
    cbn [unlinked tree_removed left_over].
  - intros [H|H]; [| discriminate]. apply negb_true_iff in H. rewrite H.
    reflexivity.
  - intros [H|H]; [discriminate |].
    apply rm_result_returns. apply rm_result_removable. exact H.
  - intros [H|H]; discriminate.
  - intros [H|H]; discriminate.
Qed.

(** The target does not exist: "path not found", and 0. *)
Lemma clean_temp_folder_missing (folder_path : fspath) (location_name : string)
    (w : world) :
  os_path_exists folder_path w = (Returns false, w) ->
  clean_temp_folder folder_path location_name w
  = (Returns 0,
     mkworld (fs w) (stdout w ++ [PathNotFound folder_path]) (others w)).
Proof.
  intros He. rewrite clean_temp_folder_unfold.
  rewrite (bind_returns _ _ _ _ _ He). reflexivity.
Qed.

(** The target exists but cannot be enumerated: the error is printed, and 0. *)
Lemma clean_temp_folder_not_listed (folder_path : fspath)
    (location_name : string) (w : world) (n : node) (e : exn) :
  lookup (fs w) folder_path = Some n -> n <> Dangling ->
  os_scandir folder_path w = (Raises e, w) ->
  clean_temp_folder folder_path location_name w
  = (Returns 0,
     mkworld (fs w)
             (stdout w ++ [Cleaning location_name;
                           ErrorAccessing location_name e])
             (others w)).
Proof.
  intros Hl Hn Hs. rewrite clean_temp_folder_unfold.
  rewrite (bind_returns _ _ _ _ _ (os_path_exists_node _ _ _ Hl Hn)).
  cbn [negb]. rewrite print_then.
  erewrite bind_returns; [| apply get_folder_size_run].
  unfold run_body.
  set (w1 := mkworld (fs w) (stdout w ++ [Cleaning location_name]) (others w)).
  assert (Hs1 : os_scandir folder_path w1 = (Raises e, w1)).
  { unfold os_scandir in *. unfold w1 at 1. cbn [fs].
    destruct (lookup (fs w) folder_path)
      as [[| ro iu [|] es | | j ro [|] es]|]; inversion Hs; reflexivity. }
  assert (Habort :
    try_except
      (items <- lift (iterdir folder_path) ;;
       for_ items clean_item ;;
       ret None)
      is_Exception
      (fun e => lift (print (ErrorAccessing location_name e)) ;; ret (Some 0))
      (mkcounters 0 0 0, w1)
    = (Returns (Some 0),
       (mkcounters 0 0 0,
        mkworld (fs w1) (stdout w1 ++ [ErrorAccessing location_name e])
                (others w1)))).
  { assert (Hraise :
      (items <- lift (iterdir folder_path) ;;
       for_ items clean_item ;;
       ret (@None Z)) (mkcounters 0 0 0, w1)
      = (Raises e, (mkcounters 0 0 0, w1))).
    { apply bind_raises. unfold lift, iterdir. cbn [fst snd].
      rewrite (bind_raises _ _ _ _ _ Hs1). reflexivity. }
    rewrite (try_caught _ _ _ _ _ _ Hraise eq_refl). reflexivity. }
  unfold bind at 1. rewrite Habort. unfold ret, w1. cbn [fst snd fs stdout others].
  rewrite <- app_assoc. reflexivity.
Qed.

(** The run on a target directory that is empty and can be listed. *)
Lemma clean_temp_folder_empty (folder_path : fspath) (location_name : string)
    (w : world) ro iu :
  lookup (fs w) folder_path = Some (Dir ro iu true []) ->
  (forall n, others w n = n) ->
  clean_temp_folder folder_path location_name w
  = (Returns 0,
     mkworld (fs w)
             (stdout w ++ [Cleaning location_name] ++ report (mkcounters 0 0 0))
             (others w)).
Proof.
  intros Hl Hq.
  rewrite (clean_temp_folder_run _ _ _ _ _ _ Hl).
  cbn [map items_loop fold_left]. rewrite Hq, (put_id _ _ _ Hl).
  unfold folder_bytes. rewrite Hl. reflexivity.
Qed.

(** The cleaner does not change what the other processes do. *)
Lemma clean_temp_folder_others (folder_path : fspath) (location_name : string)
    (w : world) :
  others (snd (clean_temp_folder folder_path location_name w)) = others w.
Proof.
  destruct (lookup (fs w) folder_path)
    as [[s ro iu|ro iu [|] es| |j ro [|] es]|] eqn:Hl.
  - erewrite clean_temp_folder_not_listed;
      [reflexivity | exact Hl | discriminate |].
    unfold os_scandir. rewrite Hl. reflexivity.
  - rewrite (clean_temp_folder_run _ _ _ _ _ _ Hl).
    destruct (items_loop (map fst es) (es, mkcounters 0 0 0, []))
      as [[es' c] skipped].
    reflexivity.
  - erewrite clean_temp_folder_not_listed;
      [reflexivity | exact Hl | discriminate |].
    unfold os_scandir. rewrite Hl. reflexivity.
  - rewrite clean_temp_folder_missing; [reflexivity |].
    unfold os_path_exists. rewrite Hl. reflexivity.
  - rewrite (clean_temp_folder_run_link _ _ _ _ _ _ Hl).
    destruct (items_loop (map fst es) (es, mkcounters 0 0 0, []))
      as [[es' c] skipped].
    reflexivity.
  - erewrite clean_temp_folder_not_listed;
      [reflexivity | exact Hl | discriminate |].
    unfold os_scandir. rewrite Hl. reflexivity.
  - rewrite clean_temp_folder_missing; [reflexivity |].
    unfold os_path_exists. rewrite Hl. reflexivity.
Qed.

(** ** Cleaner: theorems *)

(** C1 (as stated) fails: the value returned is one integer.  Two runs
    that delete one file and two files return the same value; the counts
    are only printed. *)
Lemma clean_temp_folder_returns_one_integer :
  clean_temp_folder Temp "User Temp folder" (quiet (volume one_file))
  = (Returns 10,
     mkworld (volume (folder []))
             [Cleaning "User Temp folder"; FilesDeleted 1; FoldersDeleted 0]
             (fun n => n)) /\
  clean_temp_folder Temp "User Temp folder" (quiet (volume two_files))
  = (Returns 10,
     mkworld (volume (folder []))
             [Cleaning "User Temp folder"; FilesDeleted 2; FoldersDeleted 0]
             (fun n => n)).
Proof. split; reflexivity. Qed.

(** C1 (amended). On an existing target directory that can be listed,
    [clean_temp_folder] returns the integer [size_before - size_after],
    the two values [get_folder_size] gives before the deletion loop and
    after it; the difference is not clamped, and is negative (-40) when
    another process writes 100 bytes while 60 are removed.  The counts of
    files, folders and errors are printed, not returned. *)
Theorem clean_temp_folder_bytes_freed (folder_path : fspath)
    (location_name : string) (w : world) ro iu es :
  lookup (fs w) folder_path = Some (Dir ro iu true es) ->
  (exists size_before size_after w',
      get_folder_size folder_path w = (Returns size_before, w) /\
      clean_temp_folder folder_path location_name w
      = (Returns (size_before - size_after), w') /\
      get_folder_size folder_path w' = (Returns size_after, w') /\
      exists skipped c,
        stdout w' = stdout w ++ [Cleaning location_name] ++ skipped ++ report c) /\
  fst (clean_temp_folder Temp "User Temp folder" (busy (volume three_files)))
  = Returns (-40).
Proof.
  intros Hl. split; [| reflexivity].
  pose proof (clean_temp_folder_run folder_path location_name w ro iu es Hl) as Hrun.
  destruct (items_loop (map fst es) (es, mkcounters 0 0 0, []))
    as [[es' c] skipped].
  cbv zeta in Hrun.
  eexists _, _, _. split; [apply get_folder_size_run |].
  split; [exact Hrun |]. split; [apply get_folder_size_run |].
  exists skipped, c. reflexivity.
Qed.

Lemma clean_temp_folder_bytes_freed_witness :
  lookup (fs (quiet (volume three_files))) Temp
  = Some (Dir false false true
            [("a.tmp"%string, plain 10); ("b.tmp"%string, plain 20);
             ("c.log"%string, plain 30)]) /\
  exists size_before size_after w',
    get_folder_size Temp (quiet (volume three_files))
    = (Returns size_before, quiet (volume three_files)) /\
    clean_temp_folder Temp "User Temp folder" (quiet (volume three_files))
    = (Returns (size_before - size_after), w') /\
    get_folder_size Temp w' = (Returns size_after, w') /\
    exists skipped c,
      stdout w' = stdout (quiet (volume three_files))
                  ++ [Cleaning "User Temp folder"] ++ skipped ++ report c.
Proof.
  split; [reflexivity |].
  exact (proj1 (clean_temp_folder_bytes_freed Temp "User Temp folder"
                  (quiet (volume three_files)) false false _ eq_refl)).
Defined.

(** C2 (as stated) fails: a child that is neither a file nor a directory
    is left in place and counted nowhere. *)
Lemma clean_temp_folder_skips_dangling :
  lookup (fs (quiet (volume stale_link))) (os_path_join Temp "stale.lnk")
  = Some Dangling /\
  clean_temp_folder Temp "User Temp folder" (quiet (volume stale_link))
  = (Returns 0,
     mkworld (volume stale_link)
             [Cleaning "User Temp folder"; FilesDeleted 0; FoldersDeleted 0]
             (fun n => n)).
Proof. split; reflexivity. Qed.

(** C2 (amended). On an existing target directory that can be listed and
    whose names are unique, every child of the snapshot is treated once: a
    file whose unlink succeeds is gone when the loop ends and is counted in
    [files_deleted]; a directory whose recursive removal succeeds is gone
    with its subtree and is counted in [folders_deleted]; a file or
    directory whose removal raises is counted in [errors]; a child that is
    neither a file nor a directory stays and is counted nowhere.  These
    four groups and the children that are live links to directories add up
    to the number of children; [folders_deleted] is the number of
    directories removed when no child is such a link, and nothing is said
    of it otherwise.  [after_loop] is the file system when the loop ends,
    before any other process runs. *)
Theorem clean_temp_folder_targets (folder_path : fspath)
    (location_name : string) (w : world) ro iu es :
  lookup (fs w) folder_path = Some (Dir ro iu true es) ->
  distinct (map fst es) = true ->
  exists bytes_freed after_loop folders,
    clean_temp_folder folder_path location_name w
    = (Returns bytes_freed,
       mkworld (others w after_loop)
         (stdout w ++ [Cleaning location_name] ++ skipped_lines es ++
          report (mkcounters (count unlinked es) folders
                             (count removal_fails es)))
         (others w)) /\
    (count link_refused es = 0 -> folders = count tree_removed es) /\
    count unlinked es + count tree_removed es + count removal_fails es
    + count untargeted es + count link_refused es
    = Z.of_nat (List.length es) /\
    forall name ch,
      In (name, ch) es ->
      (unlinked ch = true \/ tree_removed ch = true ->
       lookup after_loop (os_path_join folder_path name) = None) /\
      (untargeted ch = true ->
       lookup after_loop (os_path_join folder_path name) = Some ch).
Proof.
  intros Hl Hd.
  pose proof (clean_temp_folder_unique folder_path location_name w ro iu es
                Hl Hd) as Hrun.
  cbv zeta in Hrun.
  eexists _, _, _. split; [exact Hrun |].
  split; [intros Hno; rewrite Hno; apply Z.add_0_r |].
  split; [pose proof (count_partition es); lia |].
  intros name ch Hin.
  rewrite (lookup_after _ _ _ _ _ _ _ Hl).
  rewrite (assoc_leftovers _ _ _ (distinct_NoDup _ Hd) Hin).
  split.
  - apply removed_left_over.
  - destruct ch; cbn [untargeted left_over]; try discriminate. reflexivity.
Qed.

Lemma clean_temp_folder_targets_witness :
  lookup (fs (quiet (volume one_locked))) Temp
  = Some (Dir false false true
            [("a.tmp"%string, plain 10);
             ("locked.tmp"%string, File 20 false true);
             ("cache"%string, folder [("x.bin"%string, File 7 true false)])]) /\
  exists bytes_freed after_loop,
    clean_temp_folder Temp "User Temp folder" (quiet (volume one_locked))
    = (Returns bytes_freed,
       mkworld after_loop
         [Cleaning "User Temp folder"; Skipped "locked.tmp";
          FilesDeleted 1; FoldersDeleted 1; ItemsSkipped 1]
         (fun n => n)) /\
    lookup after_loop (os_path_join Temp "a.tmp") = None /\
    lookup after_loop (os_path_join Temp "cache") = None.
Proof.
  split; [reflexivity |].
  destruct (clean_temp_folder_targets Temp "User Temp folder"
              (quiet (volume one_locked)) false false _ eq_refl eq_refl)
    as (bytes_freed & after_loop & folders & Hrun & Hfolders & _ & Hch).
  rewrite (Hfolders eq_refl) in Hrun.
  exists bytes_freed, after_loop. split; [exact Hrun |]. split.
  - apply (proj1 (Hch "a.tmp"%string (plain 10) (or_introl eq_refl))).
    left. reflexivity.
  - apply (proj1 (Hch "cache"%string
                    (folder [("x.bin"%string, File 7 true false)])
                    (or_intror (or_intror (or_introl eq_refl))))).
    right. reflexivity.
Defined.

(** C4. When the removal of one child raises an OS-level error (a file in
    use or read-only, a directory that cannot be removed), the call still
    returns: that child adds exactly 1 to [errors] and is reported as
    skipped, the loop goes on, and every other child whose removal
    succeeds is gone when the loop ends; [errors] is 1 when no other
    removal fails.  [after_loop] is the file system when the loop ends,
    before any other process runs. *)
Theorem clean_temp_folder_survives_failure (folder_path : fspath)
    (location_name : string) (w : world) ro iu before name bad after :
  lookup (fs w) folder_path
  = Some (Dir ro iu true (before ++ (name, bad) :: after)) ->
  distinct (map fst (before ++ (name, bad) :: after)) = true ->
  removal_fails bad = true ->
  exists bytes_freed after_loop skipped files folders,
    clean_temp_folder folder_path location_name w
    = (Returns bytes_freed,
       mkworld (others w after_loop)
         (stdout w ++ [Cleaning location_name] ++ skipped ++
          report (mkcounters files folders
                    (count removal_fails before + 1
                     + count removal_fails after)))
         (others w)) /\
    In (Skipped name) skipped /\
    (forall other ch,
        In (other, ch) (before ++ after) ->
        unlinked ch = true \/ tree_removed ch = true ->
        lookup after_loop (os_path_join folder_path other) = None) /\
    ((forall e, In e (before ++ after) -> removal_fails (snd e) = false) ->
     count removal_fails before + 1 + count removal_fails after = 1).
Proof.
  intros Hl Hd Hbad.
  pose proof (clean_temp_folder_unique folder_path location_name w ro iu _
                Hl Hd) as Hrun.
  cbv zeta in Hrun.
  assert (Herr : count removal_fails (before ++ (name, bad) :: after)
                 = count removal_fails before + 1 + count removal_fails after).
  { rewrite count_app, count_cons, Hbad. lia. }
  rewrite Herr in Hrun.
  eexists _, _, _, _, _. split; [exact Hrun |].
  split; [| split].
  - unfold skipped_lines. apply in_map_iff. exists (name, bad).
    split; [reflexivity |]. apply filter_In. split; [| exact Hbad].
    apply in_or_app. right. left. reflexivity.
  - intros other ch Hin Hrm.
    rewrite (lookup_after _ _ _ _ _ _ _ Hl).
    rewrite (assoc_leftovers _ other ch (distinct_NoDup _ Hd)).
    + apply removed_left_over. exact Hrm.
    + apply in_app_or in Hin. apply in_or_app.
      destruct Hin as [Hin|Hin]; [left | right; right]; exact Hin.
  - intros Hnone.
    rewrite (count_none removal_fails before), (count_none removal_fails after).
    + reflexivity.
    + intros e He. apply Hnone. apply in_or_app. right. exact He.
    + intros e He. apply Hnone. apply in_or_app. left. exact He.
Qed.

Lemma clean_temp_folder_survives_failure_witness :
  removal_fails (File 20 false true) = true /\
  exists bytes_freed after_loop skipped files folders,
    clean_temp_folder Temp "User Temp folder" (quiet (volume one_locked))
    = (Returns bytes_freed,
       mkworld after_loop
         ([Cleaning "User Temp folder"] ++ skipped ++
          report (mkcounters files folders 1))
         (fun n => n)) /\
    In (Skipped "locked.tmp") skipped /\
    lookup after_loop (os_path_join Temp "a.tmp") = None /\
    lookup after_loop (os_path_join Temp "cache") = None.
Proof.
  split; [reflexivity |].
  destruct (clean_temp_folder_survives_failure Temp "User Temp folder"
              (quiet (volume one_locked)) false false
              [("a.tmp"%string, plain 10)] "locked.tmp"%string
              (File 20 false true)
              [("cache"%string, folder [("x.bin"%string, File 7 true false)])]
              eq_refl eq_refl eq_refl)
    as (bytes_freed & after_loop & skipped & files & folders
        & Hrun & Hin & Hgone & _).
  exists bytes_freed, after_loop, skipped, files, folders.
  split; [exact Hrun |]. split; [exact Hin |]. split.
  - apply (Hgone "a.tmp"%string (plain 10) (or_introl eq_refl)).
    left. reflexivity.
  - apply (Hgone "cache"%string (folder [("x.bin"%string, File 7 true false)])
             (or_intror (or_introl eq_refl))).
    right. reflexivity.
Defined.

(** C6. Two runs in a row with no other process writing: when the first
    run leaves the (listable) target directory empty, the second run on the
    same directory returns 0, reports 0 files deleted, 0 folders deleted
    and no error, and leaves the file system as it is. *)
Theorem clean_temp_folder_idempotent (folder_path : fspath)
    (location_name : string) (w : world) ro iu :
  (forall n, others w n = n) ->
  let emptied := snd (clean_temp_folder folder_path location_name w) in
  lookup (fs emptied) folder_path = Some (Dir ro iu true []) ->
  clean_temp_folder folder_path location_name emptied
  = (Returns 0,
     mkworld (fs emptied)
             (stdout emptied ++ [Cleaning location_name]
              ++ report (mkcounters 0 0 0))
             (others emptied)).
Proof.
  intros Hq emptied Hl.
  assert (Hq' : forall n, others emptied n = n).
  { intros n. unfold emptied. rewrite clean_temp_folder_others. apply Hq. }
  apply (clean_temp_folder_empty _ _ _ ro iu); assumption.
Qed.

Lemma clean_temp_folder_idempotent_witness :
  let emptied := snd (clean_temp_folder Temp "User Temp folder"
                        (quiet (volume three_files))) in
  lookup (fs emptied) Temp = Some (Dir false false true []) /\
  clean_temp_folder Temp "User Temp folder" emptied
  = (Returns 0,
     mkworld (volume (folder []))
             [Cleaning "User Temp folder"; FilesDeleted 3; FoldersDeleted 0;
              Cleaning "User Temp folder"; FilesDeleted 0; FoldersDeleted 0]
             (fun n => n)).
Proof.
  cbv zeta. split; [reflexivity |].
  exact (clean_temp_folder_idempotent Temp "User Temp folder"
           (quiet (volume three_files)) false false
           (fun n => eq_refl) eq_refl).
Defined.

(* ================================================================== *)
(** * Part III: further properties of the code                         *)
(* ================================================================== *)

(** ** Cleaner: early exits *)

(** X1. When the target path does not exist (nothing there, or an entry
    whose target cannot be stat'ed), [clean_temp_folder] returns 0 and
    prints the "path not found" line only: nothing is measured, listed or
    removed, and the file system is left as it is. *)
Theorem clean_temp_folder_missing_target (folder_path : fspath)
    (location_name : string) (w : world) :
  lookup (fs w) folder_path = None \/
  lookup (fs w) folder_path = Some Dangling ->
  clean_temp_folder folder_path location_name w
  = (Returns 0,
     mkworld (fs w) (stdout w ++ [PathNotFound folder_path]) (others w)).
Proof.
  intros H. apply clean_temp_folder_missing.
  unfold os_path_exists. destruct H as [-> | ->]; reflexivity.
Qed.

Lemma clean_temp_folder_missing_target_witness :
  (lookup (fs (quiet (volume three_files))) ["Windows"%string; "Temp"%string]
   = None \/
   lookup (fs (quiet (volume three_files))) ["Windows"%string; "Temp"%string]
   = Some Dangling) /\
  clean_temp_folder ["Windows"%string; "Temp"%string] "System Temp folder"
    (quiet (volume three_files))
  = (Returns 0,
     mkworld (volume three_files)
             [PathNotFound ["Windows"%string; "Temp"%string]] (fun n => n)).
Proof.
  assert (H : lookup (fs (quiet (volume three_files)))
                ["Windows"%string; "Temp"%string] = None \/
              lookup (fs (quiet (volume three_files)))
                ["Windows"%string; "Temp"%string] = Some Dangling)
    by (left; reflexivity).
  split; [exact H |].
  exact (clean_temp_folder_missing_target _ "System Temp folder" _ H).
Defined.

(** X2. When the target exists but cannot be enumerated, the whole call is
    abandoned: for a regular file ([NotADirectoryError]) and for a
    directory that cannot be listed ([PermissionError]) alike the error is
    printed after the "cleaning" line, no count is printed, 0 is returned
    whatever the directory holds, and the file system is left as it is. *)
Theorem clean_temp_folder_enumeration_fails (folder_path : fspath)
    (location_name : string) (w : world) :
  (forall size ro iu,
      lookup (fs w) folder_path = Some (File size ro iu) ->
      clean_temp_folder folder_path location_name w
      = (Returns 0,
         mkworld (fs w)
                 (stdout w ++ [Cleaning location_name;
                               ErrorAccessing location_name NotADirectoryError])
                 (others w))) /\
  (forall ro iu es,
      lookup (fs w) folder_path = Some (Dir ro iu false es) ->
      clean_temp_folder folder_path location_name w
      = (Returns 0,
         mkworld (fs w)
                 (stdout w ++ [Cleaning location_name;
                               ErrorAccessing location_name PermissionError])
                 (others w))).
Proof.
  split.
  - intros size ro iu Hl.
    apply (clean_temp_folder_not_listed _ _ _ _ _ Hl); [discriminate |].
    unfold os_scandir. rewrite Hl. reflexivity.
  - intros ro iu es Hl.
    apply (clean_temp_folder_not_listed _ _ _ _ _ Hl); [discriminate |].
    unfold os_scandir. rewrite Hl. reflexivity.
Qed.

Lemma clean_temp_folder_enumeration_fails_witness :
  clean_temp_folder Temp "User Temp folder" (quiet (volume (plain 10)))
  = (Returns 0,
     mkworld (volume (plain 10))
             [Cleaning "User Temp folder";
              ErrorAccessing "User Temp folder" NotADirectoryError]
             (fun n => n)) /\
  clean_temp_folder Temp "User Temp folder"
    (quiet (volume (Dir false false false [("a.tmp"%string, plain 10)])))
  = (Returns 0,
     mkworld (volume (Dir false false false [("a.tmp"%string, plain 10)]))
             [Cleaning "User Temp folder";
              ErrorAccessing "User Temp folder" PermissionError]
             (fun n => n)).
Proof.
  split.
  - exact (proj1 (clean_temp_folder_enumeration_fails Temp "User Temp folder"
                    (quiet (volume (plain 10)))) 10%N false false eq_refl).
  - exact (proj2 (clean_temp_folder_enumeration_fails Temp "User Temp folder"
                    (quiet (volume (Dir false false false
                                      [("a.tmp"%string, plain 10)]))))
             false false [("a.tmp"%string, plain 10)] eq_refl).
Defined.

(** ** Cleaner: the handler and the recursive removal *)

(** X3. [handle_remove_readonly]: on a path that no longer exists it
    returns without calling [func] and without raising, so the error that
    brought it there is dropped; on a file it clears the read-only
    attribute and calls [func] once more, so a read-only file that is not
    in use is removed, and for a file in use the second [unlink] raises
    [PermissionError] out of the handler, the attribute staying cleared. *)
Theorem handle_remove_readonly_cases (path : fspath) (exc : exn) (w : world) :
  (forall func,
      lookup (fs w) path = None \/ lookup (fs w) path = Some Dangling ->
      handle_remove_readonly func path exc w = (Returns tt, w)) /\
  (forall size ro,
      path <> [] -> lookup (fs w) path = Some (File size ro false) ->
      handle_remove_readonly os_unlink path exc w
      = (Returns tt, with_fs (put path None (fs w)) w)) /\
  (forall size ro,
      path <> [] -> lookup (fs w) path = Some (File size ro true) ->
      handle_remove_readonly os_unlink path exc w
      = (Raises PermissionError,
         with_fs (put path (Some (File size false true)) (fs w)) w)).
Proof.
  split; [| split].
  - intros func H. unfold handle_remove_readonly, bind, os_path_exists.
    destruct H as [-> | ->]; reflexivity.
  - intros size ro Hp Hl. apply (handler_unlink _ _ _ _ _ _ Hp Hl).
  - intros size ro Hp Hl. apply (handler_unlink _ _ _ _ _ _ Hp Hl).
Qed.

Lemma handle_remove_readonly_cases_witness :
  handle_remove_readonly os_unlink (os_path_join Temp "gone.tmp")
    PermissionError (quiet (volume three_files))
  = (Returns tt, quiet (volume three_files)) /\
  handle_remove_readonly os_unlink (os_path_join Temp "a.tmp") PermissionError
    (quiet (volume (folder [("a.tmp"%string, File 10 true false)])))
  = (Returns tt, quiet (volume (folder []))) /\
  handle_remove_readonly os_unlink (os_path_join Temp "a.tmp") PermissionError
    (quiet (volume (folder [("a.tmp"%string, File 10 true true)])))
  = (Raises PermissionError,
     quiet (volume (folder [("a.tmp"%string, File 10 false true)]))).
Proof.
  split; [| split].
  - exact (proj1 (handle_remove_readonly_cases
                    (os_path_join Temp "gone.tmp") PermissionError
                    (quiet (volume three_files)))
             os_unlink (or_introl eq_refl)).
  - exact (proj1 (proj2 (handle_remove_readonly_cases
                           (os_path_join Temp "a.tmp") PermissionError
                           (quiet (volume (folder [("a.tmp"%string,
                                                    File 10 true false)])))))
             10%N true ltac:(discriminate) eq_refl).
  - exact (proj2 (proj2 (handle_remove_readonly_cases
                           (os_path_join Temp "a.tmp") PermissionError
                           (quiet (volume (folder [("a.tmp"%string,
                                                    File 10 true true)])))))
             10%N true ltac:(discriminate) eq_refl).
Defined.

Lemma rm_result_raises_some (n : node) (e : exn) :
  fst (rm_result n) = Raises e ->
  exists x, snd (rm_result n) = Some x /\ is_dir_node x = is_dir_node n.
Proof.
  destruct n as [s ro iu|ro iu ls es| |j ro ls es]; intros H.
  - cbn in *. destruct iu; cbn in *; [eexists; split; reflexivity | congruence].
  - destruct ls; [| cbn; eexists; split; reflexivity].
    rewrite rm_result_dir in *.
    destruct (rm_entries es) as [[[]|e'] es'].
    + destruct iu; cbn in *; [eexists; split; reflexivity | congruence].
    + cbn. eexists. split; reflexivity.
  - cbn in H. congruence.
  - cbn in H. congruence.
Qed.

Lemma shutil_rmtree_run (path : fspath) (w : world) (n : node) :
  path <> [] -> lookup (fs w) path = Some n ->
  is_dir_node n = true -> link_refused n = false ->
  shutil_rmtree path handle_remove_readonly w
  = (fst (rm_result n), with_fs (put path (snd (rm_result n)) (fs w)) w).
Proof.
  intros Hp Hl Hd Hk. unfold shutil_rmtree. rewrite Hl.
  destruct n; try discriminate. apply rmtree_unsafe_run; assumption.
Qed.

(** On a link [rmtree] removes nothing: the handler clears the read-only
    attribute of the link and returns. *)
Lemma shutil_rmtree_link (path : fspath) (w : world) (n : node) :
  lookup (fs w) path = Some n -> link_refused n = true ->
  shutil_rmtree path handle_remove_readonly w
  = (Returns tt, with_fs (put path (clear_read_only n) (fs w)) w).
Proof.
  intros Hl Hk. unfold shutil_rmtree. rewrite Hl.
  destruct n as [| | |j ro ls es]; try discriminate.
  apply (handler_islink _ _ _ _ _ _ _ Hl).
Qed.

Lemma rm_entries_after_removable (before l : list (string * node)) :
  forallb (fun e => tree_removable (snd e)) before = true ->
  rm_entries (before ++ l) = rm_entries l.
Proof.
  induction before as [|[k v] before IH]; intros H; [reflexivity |].
  cbn [forallb snd] in H. apply andb_true_iff in H as [Hv Hb].
  cbn [app rm_entries].
  pose proof (proj2 (rm_result_removable v) Hv) as Hr.
  destruct (rm_result v) as [[[]|e] x]; cbn [fst] in Hr; [| discriminate].
  apply IH. exact Hb.
Qed.

(** X4. [shutil.rmtree] with [handle_remove_readonly], on a path that
    [is_dir()] takes for a directory.  When the path is a live link to a
    directory (a symbolic link or a junction), the call returns and
    nothing is removed: the link is still there, with its read-only
    attribute cleared, and so is what it leads to.  On a real directory it
    returns, and the directory is gone with all it held, exactly when
    every directory of the tree can be listed and no file or directory of
    the tree is in use (read-only attributes never matter; a link inside
    the tree is unlinked, not followed); otherwise it raises
    [PermissionError] and a directory is still there. *)
Theorem shutil_rmtree_outcome (path : fspath) (w : world) (n : node) :
  path <> [] -> lookup (fs w) path = Some n -> is_dir_node n = true ->
  if link_refused n
  then shutil_rmtree path handle_remove_readonly w
       = (Returns tt, with_fs (put path (clear_read_only n) (fs w)) w)
  else if tree_removable n
  then shutil_rmtree path handle_remove_readonly w
       = (Returns tt, with_fs (put path None (fs w)) w)
  else exists remains,
      is_dir_node remains = true /\
      shutil_rmtree path handle_remove_readonly w
      = (Raises PermissionError, with_fs (put path (Some remains) (fs w)) w).
Proof.
  intros Hp Hl Hd. destruct (link_refused n) eqn:Hk.
  { apply (shutil_rmtree_link _ _ _ Hl Hk). }
  rewrite (shutil_rmtree_run _ _ _ Hp Hl Hd Hk).
  pose proof (rm_result_removable n) as Hrm.
  pose proof (rm_result_returns n) as Hret.
  pose proof (rm_result_raises n) as Hra.
  pose proof (rm_result_raises_some n) as Hsome.
  destruct (rm_result n) as [[[]|e] x]; cbn [fst snd] in *.
  - rewrite (proj1 Hrm eq_refl), (Hret eq_refl). reflexivity.
  - destruct (tree_removable n).
    + destruct Hrm as [_ Hrm]. specialize (Hrm eq_refl). discriminate.
    + destruct (Hsome e eq_refl) as (y & Hy & Hdir).
      rewrite (Hra e eq_refl). exists y. rewrite Hy. split; [| reflexivity].
      rewrite Hdir. exact Hd.
Qed.

Lemma shutil_rmtree_outcome_witness :
  os_path_join Temp "cache" <> [] /\
  shutil_rmtree (os_path_join Temp "cache") handle_remove_readonly
    (quiet (volume one_locked))
  = (Returns tt,
     quiet (volume (folder [("a.tmp"%string, plain 10);
                            ("locked.tmp"%string, File 20 false true)]))) /\
  shutil_rmtree (os_path_join Temp "elsewhere") handle_remove_readonly
    (quiet (volume linked_folder))
  = (Returns tt,
     quiet (volume (folder
       [("a.tmp"%string, plain 10);
        ("elsewhere"%string,
         DirLink true false true [("x.bin"%string, plain 7)])]))).
Proof.
  assert (Hp : os_path_join Temp "cache" <> []) by discriminate.
  assert (Hq : os_path_join Temp "elsewhere" <> []) by discriminate.
  split; [exact Hp |]. split.
  - exact (shutil_rmtree_outcome (os_path_join Temp "cache")
             (quiet (volume one_locked))
             (folder [("x.bin"%string, File 7 true false)]) Hp eq_refl eq_refl).
  - exact (shutil_rmtree_outcome (os_path_join Temp "elsewhere")
             (quiet (volume linked_folder))
             (DirLink true true true [("x.bin"%string, plain 7)])
             Hq eq_refl eq_refl).
Defined.

(** X5. The recursive removal stops at the first entry it cannot remove
    and nothing is rolled back: the entries listed before it are gone, the
    entries listed after it are untouched, and the directory keeps its
    attributes. *)
Theorem shutil_rmtree_stops_at_first_failure (path : fspath) (w : world)
    ro iu before name bad after :
  path <> [] ->
  lookup (fs w) path = Some (Dir ro iu true (before ++ (name, bad) :: after)) ->
  forallb (fun e => tree_removable (snd e)) before = true ->
  tree_removable bad = false ->
  exists remains,
    shutil_rmtree path handle_remove_readonly w
    = (Raises PermissionError,
       with_fs (put path (Some (Dir ro iu true ((name, remains) :: after)))
                    (fs w)) w).
Proof.
  intros Hp Hl Hb Hbad.
  rewrite (shutil_rmtree_run _ _ _ Hp Hl eq_refl eq_refl).
  rewrite rm_result_dir, (rm_entries_after_removable _ _ Hb).
  cbn [rm_entries].
  pose proof (rm_result_removable bad) as Hrm.
  pose proof (rm_result_raises bad) as Hra.
  pose proof (rm_result_raises_some bad) as Hsome.
  destruct (rm_result bad) as [[[]|e] x]; cbn [fst snd] in *.
  - rewrite (proj1 Hrm eq_refl) in Hbad. discriminate.
  - destruct (Hsome e eq_refl) as (y & Hy & _). subst x.
    rewrite (Hra e eq_refl). exists y. reflexivity.
Qed.

Lemma shutil_rmtree_stops_at_first_failure_witness :
  Temp <> [] /\
  exists remains,
    shutil_rmtree Temp handle_remove_readonly (quiet (volume one_locked))
    = (Raises PermissionError,
       quiet (volume (folder
         [("locked.tmp"%string, remains);
          ("cache"%string, folder [("x.bin"%string, File 7 true false)])]))).
Proof.
  assert (Hp : Temp <> []) by discriminate.
  split; [exact Hp |].
  exact (shutil_rmtree_stops_at_first_failure Temp
           (quiet (volume one_locked)) false false
           [("a.tmp"%string, plain 10)] "locked.tmp"%string
           (File 20 false true)
           [("cache"%string, folder [("x.bin"%string, File 7 true false)])]
           Hp eq_refl eq_refl eq_refl).
Defined.

(** ** Cleaner: what a run leaves alone *)









(** X7. The read-only attribute is handled inside directories only.  A
    read-only file that is not in use and lies directly in the target is
    still there, still read-only, when the loop ends ([Path.unlink] has no
    handler); the same file alone in a subdirectory of the target goes
    with that subdirectory ([shutil.rmtree] has the handler). *)
Theorem read_only_file_outside_and_inside (folder_path : fspath)
    (location_name : string) (w : world) ro iu es :
  lookup (fs w) folder_path = Some (Dir ro iu true es) ->
  distinct (map fst es) = true ->
  exists bytes_freed after_loop out,
    clean_temp_folder folder_path location_name w
    = (Returns bytes_freed, mkworld (others w after_loop) out (others w)) /\
    (forall name size,
        In (name, File size true false) es ->
        lookup after_loop (os_path_join folder_path name)
        = Some (File size true false)) /\
    (forall sub sub_ro name size,
        In (sub, Dir sub_ro false true [(name, File size true false)]) es ->
        lookup after_loop (os_path_join folder_path sub) = None).
Proof.
  intros Hl Hd.
  pose proof (clean_temp_folder_unique folder_path location_name w ro iu es
                Hl Hd) as Hrun.
  cbv zeta in Hrun.
  eexists _, _, _. split; [exact Hrun |]. split.
  - intros name size Hin.
    rewrite (lookup_after _ _ _ _ _ _ _ Hl).
    rewrite (assoc_leftovers _ _ _ (distinct_NoDup _ Hd) Hin). reflexivity.
  - intros sub sub_ro name size Hin.
    rewrite (lookup_after _ _ _ _ _ _ _ Hl).
    rewrite (assoc_leftovers _ _ _ (distinct_NoDup _ Hd) Hin). reflexivity.
Qed.

Lemma read_only_file_outside_and_inside_witness :
  distinct (map fst [("keep.tmp"%string, File 10 true false);
                     ("old"%string,
                      Dir false false true
                          [("keep.tmp"%string, File 10 true false)])]) = true /\
  exists bytes_freed after_loop out,
    clean_temp_folder Temp "User Temp folder"
      (quiet (volume (folder
         [("keep.tmp"%string, File 10 true false);
          ("old"%string,
           Dir false false true [("keep.tmp"%string, File 10 true false)])])))
    = (Returns bytes_freed, mkworld after_loop out (fun n => n)) /\
    lookup after_loop (os_path_join Temp "keep.tmp") = Some (File 10 true false) /\
    lookup after_loop (os_path_join Temp "old") = None.
Proof.
  split; [reflexivity |].
  destruct (read_only_file_outside_and_inside Temp "User Temp folder"
              (quiet (volume (folder
                 [("keep.tmp"%string, File 10 true false);
                  ("old"%string,
                   Dir false false true
                       [("keep.tmp"%string, File 10 true false)])])))
              false false _ eq_refl eq_refl)
    as (bytes_freed & after_loop & out & Hrun & Htop & Hsub).
  exists bytes_freed, after_loop, out. split; [exact Hrun |]. split.
  - apply (Htop "keep.tmp"%string 10%N). left. reflexivity.
  - apply (Hsub "old"%string false "keep.tmp"%string 10%N). right. left.
    reflexivity.
Defined.

(** ** Cleaner: running it again *)

Lemma distinct_of_NoDup (l : list string) : NoDup l -> distinct l = true.
Proof.
  induction 1 as [|x l Hx Hl IH]; [reflexivity |].
  cbn [distinct]. rewrite IH, andb_true_r. apply negb_true_iff.
  destruct (existsb (String.eqb x) l) eqn:E; [| reflexivity].
  apply existsb_exists in E as [y [Hy Heq]]. apply String.eqb_eq in Heq.
  subst y. contradiction.
Qed.

Lemma leftovers_NoDup (es : list (string * node)) :
  NoDup (map fst es) -> NoDup (map fst (leftovers es)).
Proof.
  induction es as [|[k v] es IH]; intros H; [constructor |].
  cbn [map fst] in H. inversion H as [|? ? Hk Hes]; subst.
  rewrite leftovers_cons. destruct (left_over v); cbn [keep map fst].
  - constructor; [| apply IH; exact Hes].
    intros Hin. apply leftovers_names in Hin. contradiction.
  - apply IH. exact Hes.
Qed.

(** What a failed removal leaves fails again, and in the same way. *)
Lemma rm_entries_again (es : list (string * node)) :
  Forall (fun e => forall err x,
              rm_result (snd e) = (Raises err, Some x) ->
              rm_result x = (Raises PermissionError, Some x)) es ->
  forall err es',
    rm_entries es = (Raises err, es') ->
    rm_entries es' = (Raises PermissionError, es').
Proof.
  induction es as [|[k v] es IH]; intros HP err es' H.
  - cbn in H. congruence.
  - inversion HP as [|? ? Hv Hes]; subst. cbn [snd] in Hv.
    cbn [rm_entries] in H.
    pose proof (rm_result_raises_some v) as Hsome.
    destruct (rm_result v) as [[[]|e] r] eqn:Ev.
    + apply (IH Hes err es' H).
    + inversion H; subst err es'.
      destruct (Hsome e eq_refl) as [x [Hx _]]. cbn [snd] in Hx. subst r.
      cbn [keep rm_entries]. rewrite (Hv e x eq_refl). reflexivity.
Qed.

Lemma rm_result_again (n : node) :
  forall err x,
    rm_result n = (Raises err, Some x) ->
    rm_result x = (Raises PermissionError, Some x).
Proof.
  induction n as [s ro iu|ro iu ls es IH| |j ro ls es IH]
    using node_nested_ind; intros err x H.
  - cbn in H. destruct iu; inversion H; subst. reflexivity.
  - destruct ls.
    + rewrite rm_result_dir in H.
      destruct (rm_entries es) as [[[]|e] es'] eqn:Ee.
      * destruct iu; inversion H; subst. reflexivity.
      * inversion H; subst. rewrite rm_result_dir.
        rewrite (rm_entries_again es IH _ _ Ee). reflexivity.
    + cbn in H. inversion H; subst. reflexivity.
  - cbn in H. congruence.
  - cbn in H. congruence.
Qed.

Lemma left_over_again (ch x : node) :
  left_over ch = Some x ->
  left_over x = Some x /\ unlinked x = false /\ tree_removed x = false /\
  removal_fails x = removal_fails ch /\ link_refused x = link_refused ch.
Proof.
  destruct ch as [s ro iu|ro iu ls sub| |j ro ls sub]; cbn [left_over];
    intros H.
  - destruct (ro || iu) eqn:E; inversion H; subst.
    cbn [left_over unlinked tree_removed removal_fails]. rewrite E.
    repeat split.
  - pose proof (rm_result_returns (Dir ro iu ls sub)) as Hret.
    pose proof (rm_result_raises_some (Dir ro iu ls sub)) as Hsome.
    pose proof (rm_result_again (Dir ro iu ls sub)) as Hagain.
    pose proof (rm_result_removable (Dir ro iu ls sub)) as Hrm.
    cbn [removal_fails].
    destruct (rm_result (Dir ro iu ls sub)) as [[[]|e] r];
      cbn [fst snd] in *.
    + rewrite (Hret eq_refl) in H. discriminate.
    + subst r. destruct (Hsome e eq_refl) as [y [Hy Hd]].
      inversion Hy; subst y. cbn [is_dir_node] in Hd.
      specialize (Hagain e x eq_refl).
      pose proof (rm_result_removable x) as Hrx. rewrite Hagain in Hrx.
      cbn [fst] in Hrx.
      assert (Hx : tree_removable x = false).
      { destruct (tree_removable x); [| reflexivity].
        destruct Hrx as [_ Hrx]. specialize (Hrx eq_refl). discriminate. }
      assert (Hc : tree_removable (Dir ro iu ls sub) = false).
      { destruct (tree_removable (Dir ro iu ls sub)); [| reflexivity].
        destruct Hrm as [_ Hrm]. specialize (Hrm eq_refl). discriminate. }
      rewrite Hc.
      destruct x as [s' ro' iu'|ro' iu' ls' sub'| |j' ro' ls' sub'];
        try discriminate.
      cbn [left_over unlinked tree_removed removal_fails link_refused].
      rewrite Hagain, Hx. repeat split.
  - inversion H; subst. repeat split.
  - inversion H; subst. repeat split.
Qed.

Lemma left_over_none (ch : node) :
  left_over ch = None -> removal_fails ch = false /\ link_refused ch = false.
Proof.
  destruct ch as [s ro iu|ro iu ls sub| |j ro ls sub];
    cbn [left_over removal_fails link_refused]; intros H.
  - destruct (ro || iu); [discriminate | split; reflexivity].
  - pose proof (rm_result_raises_some (Dir ro iu ls sub)) as Hsome.
    pose proof (rm_result_removable (Dir ro iu ls sub)) as Hrm.
    destruct (rm_result (Dir ro iu ls sub)) as [[[]|e] r];
      cbn [fst snd] in *.
    + rewrite (proj1 Hrm eq_refl). split; reflexivity.
    + destruct (Hsome e eq_refl) as [y [Hy _]]. congruence.
  - discriminate.
  - discriminate.
Qed.

Lemma leftovers_again (es : list (string * node)) :
  leftovers (leftovers es) = leftovers es /\
  count unlinked (leftovers es) = 0 /\
  count tree_removed (leftovers es) = 0 /\
  count removal_fails (leftovers es) = count removal_fails es /\
  skipped_lines (leftovers es) = skipped_lines es /\
  count link_refused (leftovers es) = count link_refused es.
Proof.
  induction es as [|[k v] es (IH1 & IH2 & IH3 & IH4 & IH5 & IH6)];
    [repeat split |].
  rewrite leftovers_cons, !count_cons, skipped_lines_cons.
  destruct (left_over v) as [x|] eqn:E; cbn [keep].
  - destruct (left_over_again v x E) as (H1 & H2 & H3 & H4 & H6).
    rewrite leftovers_cons, !count_cons, skipped_lines_cons.
    rewrite H1, H2, H3, H4, H6, IH1, IH2, IH3, IH4, IH5, IH6. repeat split.
  - destruct (left_over_none v E) as [Hf Hk]. rewrite Hf, Hk. cbn [app].
    rewrite IH1, IH2, IH3, IH4, IH5, IH6. repeat split.
Qed.

(** X8. What a run could not remove, the next run cannot remove either.
    With no other process in between, a second run on the same target
    returns 0, deletes no file and removes no folder, prints the same
    "skipped" lines for the same number of items as the first run, and
    leaves the file system as the first run left it.  The folders it
    reports as deleted are the children that are live links to
    directories: [rmtree] refuses them in each run, they stay, and each run
    counts them. *)
Theorem clean_temp_folder_second_run (folder_path : fspath)
    (location_name : string) (w : world) ro iu es :
  lookup (fs w) folder_path = Some (Dir ro iu true es) ->
  distinct (map fst es) = true ->
  (forall n, others w n = n) ->
  let first := snd (clean_temp_folder folder_path location_name w) in
  clean_temp_folder folder_path location_name first
  = (Returns 0,
     mkworld (fs first)
       (stdout first ++ [Cleaning location_name] ++ skipped_lines es ++
        report (mkcounters 0 (count link_refused es) (count removal_fails es)))
       (others first)).
Proof.
  intros Hl Hd Hq first. subst first.
  rewrite (clean_temp_folder_unique _ _ _ _ _ _ Hl Hd). cbv zeta.
  cbn [snd fs stdout others]. rewrite Hq.
  set (after := put folder_path (Some (Dir ro iu true (leftovers es))) (fs w)).
  set (out := stdout w ++ [Cleaning location_name] ++ skipped_lines es ++
              report (mkcounters (count unlinked es)
                                 (count tree_removed es + count link_refused es)
                                 (count removal_fails es))).
  assert (Hl2 : lookup (fs (mkworld after out (others w))) folder_path
                = Some (Dir ro iu true (leftovers es))).
  { apply (lookup_put _ _ _ _ Hl). }
  assert (Hd2 : distinct (map fst (leftovers es)) = true).
  { apply distinct_of_NoDup, leftovers_NoDup, distinct_NoDup, Hd. }
  rewrite (clean_temp_folder_unique _ _ _ _ _ _ Hl2 Hd2). cbv zeta.
  cbn [fs stdout others].
  destruct (leftovers_again es) as (H1 & H2 & H3 & H4 & H5 & H6).
  rewrite H1, H2, H3, H4, H5, H6, Z.add_0_l.
  assert (Hsame : put folder_path (Some (Dir ro iu true (leftovers es))) after
                  = after).
  { unfold after. apply put_put_some. }
  rewrite Hsame, Hq, Z.sub_diag. reflexivity.
Qed.

Lemma clean_temp_folder_second_run_witness :
  distinct (map fst [("a.tmp"%string, plain 10);
                     ("locked.tmp"%string, File 20 false true);
                     ("cache"%string,
                      folder [("x.bin"%string, File 7 true false)])]) = true /\
  clean_temp_folder Temp "User Temp folder"
    (snd (clean_temp_folder Temp "User Temp folder" (quiet (volume one_locked))))
  = (Returns 0,
     mkworld (volume (folder [("locked.tmp"%string, File 20 false true)]))
       [Cleaning "User Temp folder"; Skipped "locked.tmp";
        FilesDeleted 1; FoldersDeleted 1; ItemsSkipped 1;
        Cleaning "User Temp folder"; Skipped "locked.tmp";
        FilesDeleted 0; FoldersDeleted 0; ItemsSkipped 1]
       (fun n => n)) /\
  clean_temp_folder Temp "User Temp folder"
    (snd (clean_temp_folder Temp "User Temp folder"
            (quiet (volume linked_folder))))
  = (Returns 0,
     mkworld (volume (folder
                [("elsewhere"%string,
                  DirLink true false true [("x.bin"%string, plain 7)])]))
       [Cleaning "User Temp folder"; FilesDeleted 1; FoldersDeleted 1;
        Cleaning "User Temp folder"; FilesDeleted 0; FoldersDeleted 1]
       (fun n => n)).
Proof.
  split; [reflexivity |]. split.
  - exact (clean_temp_folder_second_run Temp "User Temp folder"
             (quiet (volume one_locked)) false false _
             eq_refl eq_refl (fun n => eq_refl)).
  - exact (clean_temp_folder_second_run Temp "User Temp folder"
             (quiet (volume linked_folder)) false false _
             eq_refl eq_refl (fun n => eq_refl)).
Defined.

(** ** Cleaner: how much a run frees *)

Lemma sum_entries_nonneg (f : node -> Z) (es : list (string * node)) :
  Forall (fun e => 0 <= f (snd e)) es -> 0 <= sum_entries f es.
Proof.
  induction 1 as [|e es He Hes IH]; cbn [sum_entries fold_right].
  - lia.
  - fold (sum_entries f es). lia.
Qed.

Lemma reached_in_nonneg (es : list (string * node)) :
  Forall (fun e => 0 <= reached_bytes (snd e)) es ->
  0 <= sum_entries reached_in es.
Proof.
  intros H. apply sum_entries_nonneg.
  induction H as [|e es He Hes IH]; constructor; [| exact IH].
  unfold reached_in. destruct (symlink (snd e)); [lia | exact He].
Qed.

Lemma reached_bytes_nonneg (n : node) : 0 <= reached_bytes n.
Proof.
  induction n as [s ro iu|ro iu ls es IH| |j ro ls es IH]
    using node_nested_ind.
  - cbn. lia.
  - destruct ls; [| cbn; lia]. rewrite reached_bytes_dir.
    apply reached_in_nonneg. exact IH.
  - cbn. lia.
  - destruct ls; [| cbn; lia]. rewrite reached_bytes_link.
    apply reached_in_nonneg. exact IH.
Qed.

Lemma reached_in_bounds (ch : node) : 0 <= reached_in ch <= reached_bytes ch.
Proof.
  pose proof (reached_bytes_nonneg ch). unfold reached_in.
  destruct (symlink ch); lia.
Qed.

Lemma sum_entries_cons (f : node -> Z) (k : string) (v : node) es :
  sum_entries f ((k, v) :: es) = f v + sum_entries f es.
Proof. reflexivity. Qed.

Lemma reached_in_le (x ch : node) :
  reached_bytes x <= reached_bytes ch -> symlink x = symlink ch ->
  reached_in x <= reached_in ch.
Proof.
  intros Hb Hs. unfold reached_in. rewrite Hs. destruct (symlink ch); lia.
Qed.

Lemma rm_entries_bytes (es : list (string * node)) :
  Forall (fun e => forall x, snd (rm_result (snd e)) = Some x ->
                             reached_bytes x <= reached_bytes (snd e) /\
                             symlink x = symlink (snd e)) es ->
  sum_entries reached_in (snd (rm_entries es))
  <= sum_entries reached_in es.
Proof.
  induction es as [|[k v] es IH]; intros HP; [cbn; lia |].
  inversion HP as [|? ? Hv Hes]; subst. cbn [snd] in Hv.
  specialize (IH Hes). cbn [rm_entries]. rewrite sum_entries_cons.
  pose proof (reached_in_bounds v) as Hn.
  destruct (rm_result v) as [[[]|e] r]; cbn [snd] in *.
  - lia.
  - destruct r as [y|]; cbn [keep].
    + rewrite sum_entries_cons. destruct (Hv y eq_refl) as [Hb Hs].
      pose proof (reached_in_le y v Hb Hs). lia.
    + lia.
Qed.

(** What a failed removal leaves holds no more bytes than there were. *)
Lemma rm_result_bytes (n : node) :
  forall x, snd (rm_result n) = Some x ->
            reached_bytes x <= reached_bytes n /\ symlink x = symlink n.
Proof.
  induction n as [s ro iu|ro iu ls es IH| |j ro ls es IH]
    using node_nested_ind; intros x H.
  - cbn in H. destruct iu; inversion H; subst. cbn. split; [lia | reflexivity].
  - destruct ls.
    + rewrite rm_result_dir in H.
      pose proof (rm_entries_bytes es IH) as Hb.
      pose proof (reached_bytes_nonneg (Dir ro iu true es)) as Hn.
      destruct (rm_entries es) as [[[]|e] es']; cbn [snd] in *.
      * destruct iu; inversion H; subst. cbn. split; [exact Hn | reflexivity].
      * inversion H; subst. rewrite !reached_bytes_dir.
        split; [exact Hb | reflexivity].
    + cbn in H. inversion H; subst. cbn. split; [lia | reflexivity].
  - cbn in H. discriminate.
  - cbn in H. discriminate.
Qed.

Lemma distinct_tail (x : string) (l : list string) :
  distinct (x :: l) = true -> distinct l = true.
Proof. cbn [distinct]. intros H. apply andb_true_iff in H. apply H. Qed.

Lemma rm_entries_unique (es : list (string * node)) :
  Forall (fun e => forall x, snd (rm_result (snd e)) = Some x ->
                             unique_names (snd e) = true ->
                             unique_names x = true) es ->
  distinct (map fst es) = true ->
  forallb (fun e => unique_names (snd e)) es = true ->
  distinct (map fst (snd (rm_entries es))) = true /\
  forallb (fun e => unique_names (snd e)) (snd (rm_entries es)) = true.
Proof.
  induction es as [|[k v] es IH]; intros HP Hd Hu; [split; reflexivity |].
  inversion HP as [|? ? Hv Hes]; subst. cbn [snd] in Hv.
  cbn [forallb snd] in Hu. apply andb_true_iff in Hu as [Huv Hues].
  cbn [map fst] in Hd.
  specialize (IH Hes (distinct_tail _ _ Hd) Hues). cbn [rm_entries].
  destruct (rm_result v) as [[[]|e] r]; cbn [snd] in *.
  - exact IH.
  - destruct r as [y|]; cbn [keep].
    + cbn [map fst forallb snd]. rewrite (Hv y eq_refl Huv), Hues.
      split; [exact Hd | reflexivity].
    + split; [exact (distinct_tail _ _ Hd) | exact Hues].
Qed.

Lemma rm_result_unique (n : node) :
  forall x, snd (rm_result n) = Some x -> unique_names n = true ->
            unique_names x = true.
Proof.
  induction n as [s ro iu|ro iu ls es IH| |j ro ls es IH]
    using node_nested_ind; intros x H Hu.
  - cbn in H. destruct iu; inversion H; subst. reflexivity.
  - rewrite unique_names_dir in Hu. apply andb_true_iff in Hu as [Hd Hall].
    destruct ls.
    + rewrite rm_result_dir in H.
      pose proof (rm_entries_unique es IH Hd Hall) as [Hd' Hall'].
      destruct (rm_entries es) as [[[]|e] es']; cbn [snd] in *.
      * destruct iu; inversion H; subst. reflexivity.
      * inversion H; subst. rewrite unique_names_dir, Hd', Hall'. reflexivity.
    + cbn in H. inversion H; subst. rewrite unique_names_dir, Hd, Hall.
      reflexivity.
  - cbn in H. discriminate.
  - cbn in H. discriminate.
Qed.

Lemma left_over_bytes (ch x : node) :
  left_over ch = Some x ->
  reached_in x <= reached_in ch /\
  (unique_names ch = true -> unique_names x = true).
Proof.
  destruct ch as [s ro iu|ro iu ls sub| |j ro ls sub]; cbn [left_over];
    intros H.
  - destruct (ro || iu); inversion H; subst. split; [lia | auto].
  - split; [| apply rm_result_unique; exact H].
    destruct (rm_result_bytes _ _ H). apply reached_in_le; assumption.
  - inversion H; subst. split; [lia | auto].
  - inversion H; subst. split; [| auto].
    apply reached_in_le; [| reflexivity].
    destruct ls; [rewrite !reached_bytes_link |]; cbn; lia.
Qed.

Lemma leftovers_bytes (es : list (string * node)) :
  sum_entries reached_in (leftovers es) <= sum_entries reached_in es /\
  (forallb (fun e => unique_names (snd e)) es = true ->
   forallb (fun e => unique_names (snd e)) (leftovers es) = true).
Proof.
  induction es as [|[k v] es [IHb IHu]]; [split; [cbn; lia | auto] |].
  rewrite leftovers_cons, sum_entries_cons. cbn [forallb snd].
  pose proof (reached_in_bounds v) as Hn.
  destruct (left_over v) as [x|] eqn:E; cbn [keep].
  - destruct (left_over_bytes v x E) as [Hb Hu].
    rewrite sum_entries_cons. split; [lia |].
    intros H. apply andb_true_iff in H as [Hv Hes]. cbn [forallb snd].
    rewrite (Hu Hv), (IHu Hes). reflexivity.
  - split; [lia |].
    intros H. apply andb_true_iff in H as [_ Hes]. exact (IHu Hes).
Qed.

(** A run with no other process writing, on a target with unique names. *)
Lemma clean_temp_folder_quiet (folder_path : fspath) (location_name : string)
    (w : world) ro iu es :
  lookup (fs w) folder_path = Some (Dir ro iu true es) ->
  unique_names (Dir ro iu true es) = true ->
  (forall n, others w n = n) ->
  exists bytes_freed out,
    clean_temp_folder folder_path location_name w
    = (Returns bytes_freed,
       mkworld (put folder_path (Some (Dir ro iu true (leftovers es))) (fs w))
               out (others w)) /\
    0 <= bytes_freed <= reached_bytes (Dir ro iu true es).
Proof.
  intros Hl Hu Hq.
  pose proof Hu as Hu0.
  rewrite unique_names_dir in Hu. apply andb_true_iff in Hu as [Hd Hall].
  pose proof (clean_temp_folder_unique folder_path location_name w ro iu es
                Hl Hd) as Hrun.
  cbv zeta in Hrun. rewrite Hq in Hrun.
  eexists _, _. split; [exact Hrun |].
  destruct (leftovers_bytes es) as [Hb Hu'].
  rewrite (folder_bytes_reached _ _ _ Hl Hu0 eq_refl).
  rewrite (folder_bytes_reached _ _ (Dir ro iu true (leftovers es))
             (lookup_put _ _ _ _ Hl)); [| | reflexivity].
  - rewrite !reached_bytes_dir.
    pose proof (reached_bytes_nonneg (Dir ro iu true (leftovers es))) as Hn.
    rewrite reached_bytes_dir in Hn. lia.
  - rewrite unique_names_dir, (Hu' Hall), andb_true_r.
    apply distinct_of_NoDup, leftovers_NoDup, distinct_NoDup, Hd.
Qed.

(** X9. With no other process writing, a run frees between nothing and
    everything: the value returned is at least 0 and at most the size
    [get_folder_size] gives for the target before the run. *)
Theorem clean_temp_folder_bytes_freed_bounds (folder_path : fspath)
    (location_name : string) (w : world) ro iu es :
  lookup (fs w) folder_path = Some (Dir ro iu true es) ->
  unique_names (Dir ro iu true es) = true ->
  (forall n, others w n = n) ->
  exists size_before bytes_freed w',
    get_folder_size folder_path w = (Returns size_before, w) /\
    clean_temp_folder folder_path location_name w = (Returns bytes_freed, w') /\
    0 <= bytes_freed <= size_before.
Proof.
  intros Hl Hu Hq.
  destruct (clean_temp_folder_quiet folder_path location_name w ro iu es
              Hl Hu Hq) as (bytes_freed & out & Hrun & Hb).
  eexists _, bytes_freed, _. split; [apply get_folder_size_run |].
  split; [exact Hrun |].
  rewrite (folder_bytes_reached _ _ _ Hl Hu eq_refl). exact Hb.
Qed.

Lemma clean_temp_folder_bytes_freed_bounds_witness :
  exists size_before bytes_freed w',
    get_folder_size Temp (quiet (volume one_locked))
    = (Returns size_before, quiet (volume one_locked)) /\
    clean_temp_folder Temp "User Temp folder" (quiet (volume one_locked))
    = (Returns bytes_freed, w') /\
    0 <= bytes_freed <= size_before.
Proof.
  exact (clean_temp_folder_bytes_freed_bounds Temp "User Temp folder"
           (quiet (volume one_locked)) false false _
           eq_refl eq_refl (fun n => eq_refl)).
Defined.

Lemma removed_not_counted (ch : node) :
  unlinked ch || tree_removed ch = true ->
  left_over ch = None /\ removal_fails ch = false /\ untargeted ch = false /\
  link_refused ch = false.
Proof.
  intros H.
  assert (Hl : left_over ch = None).
  { apply removed_left_over. apply orb_true_iff. exact H. }
  destruct (left_over_none ch Hl) as [Hf Hk].
  repeat split; try assumption.
  destruct ch; [reflexivity | reflexivity | discriminate | reflexivity].
Qed.

Lemma leftovers_all_removed (es : list (string * node)) :
  forallb (fun e => unlinked (snd e) || tree_removed (snd e)) es = true ->
  leftovers es = [] /\ skipped_lines es = [] /\
  count removal_fails es = 0 /\ count untargeted es = 0 /\
  count link_refused es = 0.
Proof.
  induction es as [|[k v] es IH]; intros H; [repeat split |].
  cbn [forallb snd] in H. apply andb_true_iff in H as [Hv Hes].
  destruct (IH Hes) as (H1 & H2 & H3 & H4 & H5).
  destruct (removed_not_counted v Hv) as (Hl & Hf & Hu & Hk).
  rewrite leftovers_cons, skipped_lines_cons, !count_cons.
  rewrite Hl, Hf, Hu, Hk, H1, H2, H3, H4, H5. repeat split.
Qed.

(** X10. When every child of the target is a file that is neither
    read-only nor in use, or a real directory (not a link to one) whose
    whole tree can be listed and holds nothing in use, and no other
    process writes, the run leaves the target empty, prints no "skipped"
    line and no "items skipped" line, deletes as many files and folders as
    the target had children, and returns exactly the size measured before
    the run. *)
Theorem clean_temp_folder_complete (folder_path : fspath)
    (location_name : string) (w : world) ro iu es :
  lookup (fs w) folder_path = Some (Dir ro iu true es) ->
  distinct (map fst es) = true ->
  forallb (fun e => unlinked (snd e) || tree_removed (snd e)) es = true ->
  (forall n, others w n = n) ->
  exists size_before files folders,
    get_folder_size folder_path w = (Returns size_before, w) /\
    files + folders = Z.of_nat (List.length es) /\
    clean_temp_folder folder_path location_name w
    = (Returns size_before,
       mkworld (put folder_path (Some (Dir ro iu true [])) (fs w))
         (stdout w ++ [Cleaning location_name; FilesDeleted files;
                       FoldersDeleted folders])
         (others w)).
Proof.
  intros Hl Hd Hall Hq.
  pose proof (clean_temp_folder_unique folder_path location_name w ro iu es
                Hl Hd) as Hrun.
  cbv zeta in Hrun. rewrite Hq in Hrun.
  destruct (leftovers_all_removed es Hall) as (H1 & H2 & H3 & H4 & H5).
  rewrite H1, H2, H3, H5, Z.add_0_r in Hrun.
  exists (folder_bytes (fs w) folder_path),
         (count unlinked es), (count tree_removed es).
  split; [apply get_folder_size_run |]. split.
  - pose proof (count_partition es). lia.
  - rewrite Hrun.
    rewrite (folder_bytes_reached _ _ (Dir ro iu true [])
               (lookup_put _ _ _ _ Hl) eq_refl eq_refl).
    cbn [reached_bytes]. rewrite Z.sub_0_r. reflexivity.
Qed.

Lemma clean_temp_folder_complete_witness :
  exists size_before files folders,
    get_folder_size Temp
      (quiet (volume (folder
         [("a.tmp"%string, plain 10); ("b.tmp"%string, plain 20);
          ("cache"%string, folder [("x.bin"%string, File 7 true false)])])))
    = (Returns size_before,
       quiet (volume (folder
         [("a.tmp"%string, plain 10); ("b.tmp"%string, plain 20);
          ("cache"%string, folder [("x.bin"%string, File 7 true false)])]))) /\
    files + folders = 3 /\
    clean_temp_folder Temp "User Temp folder"
      (quiet (volume (folder
         [("a.tmp"%string, plain 10); ("b.tmp"%string, plain 20);
          ("cache"%string, folder [("x.bin"%string, File 7 true false)])])))
    = (Returns size_before,
       mkworld (volume (folder []))
         [Cleaning "User Temp folder"; FilesDeleted files;
          FoldersDeleted folders]
         (fun n => n)).
Proof.
  exact (clean_temp_folder_complete Temp "User Temp folder"
           (quiet (volume (folder
              [("a.tmp"%string, plain 10); ("b.tmp"%string, plain 20);
               ("cache"%string, folder [("x.bin"%string, File 7 true false)])])))
           false false _ eq_refl eq_refl eq_refl (fun n => eq_refl)).
Defined.

(** ** SizeProbe: further properties *)

Lemma tree_in_nonneg (es : list (string * node)) :
  Forall (fun e => 0 <= tree_bytes (snd e)) es ->
  0 <= sum_entries tree_in es.
Proof.
  intros H. apply sum_entries_nonneg.
  induction H as [|e es He Hes IH]; constructor; [| exact IH].
  unfold tree_in. destruct (symlink (snd e)); [lia | exact He].
Qed.

Lemma tree_bytes_nonneg (n : node) : 0 <= tree_bytes n.
Proof.
  induction n as [s ro iu|ro iu ls es IH| |j ro ls es IH]
    using node_nested_ind.
  - cbn. lia.
  - rewrite tree_bytes_dir. apply tree_in_nonneg. exact IH.
  - cbn. lia.
  - rewrite tree_bytes_link. apply tree_in_nonneg. exact IH.
Qed.

Lemma reached_in_le_tree (es : list (string * node)) :
  Forall (fun e => reached_bytes (snd e) <= tree_bytes (snd e)) es ->
  sum_entries reached_in es <= sum_entries tree_in es.
Proof.
  induction 1 as [|[k v] es Hv Hes IHes]; [cbn; lia |].
  rewrite !sum_entries_cons. cbn [snd] in Hv. unfold reached_in at 1.
  unfold tree_in at 1. destruct (symlink v); lia.
Qed.

Lemma reached_le_tree (n : node) : reached_bytes n <= tree_bytes n.
Proof.
  induction n as [s ro iu|ro iu ls es IH| |j ro ls es IH]
    using node_nested_ind.
  - cbn. lia.
  - destruct ls; [| apply (tree_bytes_nonneg (Dir ro iu false es))].
    rewrite reached_bytes_dir, tree_bytes_dir.
    apply reached_in_le_tree. exact IH.
  - cbn. lia.
  - destruct ls; [| apply (tree_bytes_nonneg (DirLink j ro false es))].
    rewrite reached_bytes_link, tree_bytes_link.
    apply reached_in_le_tree. exact IH.
Qed.

(** X11. [get_folder_size] never counts more than the tree holds and
    never returns a negative size; for a path that leads to a regular file
    it returns 0, not the size of the file. *)
Theorem get_folder_size_bounds (folder_path : fspath) (w : world) (n : node) :
  lookup (fs w) folder_path = Some n -> unique_names n = true ->
  exists total_size,
    get_folder_size folder_path w = (Returns total_size, w) /\
    0 <= total_size <= tree_bytes n /\
    (is_dir_node n = false -> total_size = 0).
Proof.
  intros Hl Hu. rewrite get_folder_size_run. eexists. split; [reflexivity |].
  destruct (is_dir_node n) eqn:Hd.
  - rewrite (folder_bytes_reached _ _ _ Hl Hu Hd).
    pose proof (reached_bytes_nonneg n). pose proof (reached_le_tree n).
    split; [lia | discriminate].
  - unfold folder_bytes. rewrite Hl.
    pose proof (tree_bytes_nonneg n).
    destruct n as [s ro iu|ro iu ls es| |j ro ls es];
      [| discriminate | | discriminate];
      cbn [walk_node walk_sum fold_right]; split; (lia || reflexivity).
Qed.

Lemma get_folder_size_bounds_witness :
  exists total_size,
    get_folder_size (os_path_join Temp "a.tmp") (quiet (volume three_files))
    = (Returns total_size, quiet (volume three_files)) /\
    0 <= total_size <= tree_bytes (plain 10) /\
    (is_dir_node (plain 10) = false -> total_size = 0).
Proof.
  exact (get_folder_size_bounds (os_path_join Temp "a.tmp")
           (quiet (volume three_files)) (plain 10) eq_refl eq_refl).
Defined.

Lemma measured_reached (p : fspath) (w : world) (n : node) :
  lookup (fs w) p = Some n -> unique_names n = true -> is_dir_node n = true ->
  measured p w = reached_bytes n.
Proof.
  intros Hl Hu Hd. unfold measured. rewrite get_folder_size_run. cbn [fst].
  apply folder_bytes_reached; assumption.
Qed.

(** X12. The size of a directory is made of the sizes of its entries: the
    bytes of each file directly in it plus, for each subdirectory, what
    [get_folder_size] returns for that subdirectory.  A junction counts as
    a subdirectory; a symbolic link to a directory adds nothing, the walk
    lists it and does not enter it. *)
Theorem get_folder_size_adds_up (folder_path : fspath) (w : world) ro iu es :
  lookup (fs w) folder_path = Some (Dir ro iu true es) ->
  unique_names (Dir ro iu true es) = true ->
  get_folder_size folder_path w
  = (Returns (fold_right (fun e acc => child_bytes folder_path w e + acc) 0 es),
     w).
Proof.
  intros Hl Hu. rewrite get_folder_size_run.
  rewrite (folder_bytes_reached _ _ _ Hl Hu eq_refl), reached_bytes_dir.
  rewrite unique_names_dir in Hu. apply andb_true_iff in Hu as [Hd Hall].
  apply distinct_NoDup in Hd.
  assert (Hch : forall e, In e es ->
            child_bytes folder_path w e = reached_in (snd e)).
  { intros [k v] Hin. unfold child_bytes, reached_in. cbn [fst snd].
    destruct v as [s ro' iu'|ro' iu' ls' sub| |[|] ro' ls' sub];
      try reflexivity; cbn [symlink].
    - apply measured_reached.
      + rewrite (lookup_child _ _ _ _ _ _ _ Hl).
        apply assoc_in_nodup; assumption.
      + rewrite forallb_forall in Hall. apply (Hall _ Hin).
      + reflexivity.
    - apply measured_reached.
      + rewrite (lookup_child _ _ _ _ _ _ _ Hl).
        apply assoc_in_nodup; assumption.
      + rewrite forallb_forall in Hall. apply (Hall _ Hin).
      + reflexivity. }
  clear Hd Hall Hl. f_equal. f_equal.
  induction es as [|e es IH]; [reflexivity |].
  cbn [sum_entries fold_right]. fold (sum_entries reached_in es).
  rewrite (Hch e (or_introl eq_refl)), IH; [reflexivity |].
  intros e' He'. apply Hch. right. exact He'.
Qed.

Lemma get_folder_size_adds_up_witness :
  get_folder_size Temp (quiet (volume one_locked))
  = (Returns (10 + (20 + (measured (os_path_join Temp "cache")
                                   (quiet (volume one_locked)) + 0))),
     quiet (volume one_locked)).
Proof.
  exact (get_folder_size_adds_up Temp (quiet (volume one_locked)) false false _
           eq_refl eq_refl).
Defined.



(** ** Reporter: further properties *)



(** X15. The unit changes at 1 GiB and the rounding makes the change
    visible: every count in the last 5242 bytes below [2^30] is rendered
    ["1024.00 MB"], and the count 5242 bytes above it, the first ones from
    [2^30] on, ["1.00 GB"]. *)
Theorem format_size_below_one_GiB (n : Z) :
  2 ^ 30 - 5242 <= n < 2 ^ 30 ->
  format_size n = Returns (py "1024.00 MB") /\
  format_size (n + 5242) = Returns (py "1.00 GB").
Proof.
  intros Hn. split.
  - rewrite format_size_cases.
    replace (n >=? 1024 * 1024 * 1024) with false
      by (symmetry; rewrite Z.geb_leb; apply Z.leb_gt; lia).
    rewrite small_fits by lia.
    destruct (format_round_2 n (1024 * 1024)) as (h & H0 & Hb & E).
    rewrite E. change (Zpos (1024 * 1024)) with 1048576 in Hb.
    assert (Hh : h = 102400) by lia. subst h.
    replace (n <? 0) with false by (symmetry; apply Z.ltb_ge; lia).
    vm_compute. reflexivity.
  - rewrite format_size_cases.
    replace (n + 5242 >=? 1024 * 1024 * 1024) with true
      by (symmetry; rewrite Z.geb_leb; apply Z.leb_le; lia).
    rewrite small_fits by lia.
    destruct (format_round_2 (n + 5242) (1024 * 1024 * 1024))
      as (h & H0 & Hb & E).
    rewrite E. change (Zpos (1024 * 1024 * 1024)) with 1073741824 in Hb.
    assert (Hh : h = 100) by lia. subst h.
    replace (n + 5242 <? 0) with false by (symmetry; apply Z.ltb_ge; lia).
    vm_compute. reflexivity.
Qed.

Lemma format_size_below_one_GiB_witness :
  2 ^ 30 - 5242 <= 1073741823 < 2 ^ 30 /\
  format_size 1073741823 = Returns (py "1024.00 MB") /\
  format_size (1073741823 + 5242) = Returns (py "1.00 GB").
Proof.
  assert (H : 2 ^ 30 - 5242 <= 1073741823 < 2 ^ 30) by lia.
  split; [exact H |]. exact (format_size_below_one_GiB 1073741823 H).
Defined.

(** X16. A count of at most 5242 bytes, freed or lost, is shown as zero:
    ["0.00 MB"] from 0 to 5242 and ["-0.00 MB"] from -5242 to -1. *)
Theorem format_size_rounds_to_zero (n : Z) :
  -5242 <= n <= 5242 ->
  format_size n = Returns (if n <? 0 then py "-0.00 MB" else py "0.00 MB").
Proof.
  intros Hn. rewrite format_size_cases.
  replace (n >=? 1024 * 1024 * 1024) with false
    by (symmetry; rewrite Z.geb_leb; apply Z.leb_gt; lia).
  rewrite small_fits by lia.
  destruct (format_round_2 n (1024 * 1024)) as (h & H0 & Hb & E).
  rewrite E. change (Zpos (1024 * 1024)) with 1048576 in Hb.
  assert (Hh : h = 0) by lia. subst h.
  destruct (n <? 0); vm_compute; reflexivity.
Qed.

Lemma format_size_rounds_to_zero_witness :
  -5242 <= -4096 <= 5242 /\ format_size (-4096) = Returns (py "-0.00 MB").
Proof.
  assert (H : -5242 <= -4096 <= 5242) by lia.
  split; [exact H |]. exact (format_size_rounds_to_zero (-4096) H).
Defined.

Lemma summary_percentage_range (freed initial : Z) :
  0 <= freed <= initial ->
  (0 <= summary_percentage freed initial <= 100)%Q.
Proof.
  intros [H0 H1]. unfold summary_percentage.
  destruct (Z.gtb_spec initial 0) as [Hi|Hi]; [| split; discriminate].
  assert (Hiq : (0 < inject_Z initial)%Q) by (unfold Qlt; cbn; lia).
  assert (Hlo : (0 <= inject_Z freed / inject_Z initial)%Q).
  { apply Qle_shift_div_l; [exact Hiq |]. rewrite Qmult_0_l.
    unfold Qle; cbn; lia. }
  assert (Hhi : (inject_Z freed / inject_Z initial <= 1)%Q).
  { apply Qle_shift_div_r; [exact Hiq |]. rewrite Qmult_1_l.
    unfold Qle; cbn; lia. }
  split; lra.
Qed.

Lemma progress_bar_width (percentage : pyfloat) (width : Z) :
  (0 <= fval percentage <= 100)%Q -> 0 <= width ->
  glyphs (progress_bar percentage width) = Z.to_nat width.
Proof.
  intros Hp Hw. unfold glyphs.
  destruct (progress_bar_counts percentage width) as [Hf He].
  cbv zeta in Hf, He. rewrite Hf, He.
  rewrite (filled_width_floor percentage width (proj1 Hp) Hw).
  pose proof (filled_width_range (fval percentage) width Hp Hw). lia.
Qed.
(** X17. When each target frees between nothing and its initial size, the
    three percentages of the summary lie between 0 and 100 and the three
    bars have exactly their width in glyphs: 30, 30 and 40.  The summary
    is printed whole when the three amounts can be rendered; an amount
    beyond the range of a float ends it with [OverflowError]. *)
Theorem display_cleanup_results_bars
    (user_temp_freed system_temp_freed user_temp_initial system_temp_initial : Z)
    (w : world) :
  0 <= user_temp_freed <= user_temp_initial ->
  0 <= system_temp_freed <= system_temp_initial ->
  exists user_percentage system_percentage total_percentage,
    match format_size user_temp_freed, format_size system_temp_freed,
          format_size (user_temp_freed + system_temp_freed) with
    | Returns user_amount, Returns system_amount, Returns total_amount =>
        display_cleanup_results user_temp_freed system_temp_freed
                                user_temp_initial system_temp_initial w
        = (Returns tt,
           mkworld (fs w)
             (stdout w ++
              [ResultsBanner; Blank;
               Heading "User Temp Folder:";
               Bar (progress_bar user_percentage 30);
               Recovered user_amount; Blank;
               Heading "System Temp Folder:";
               Bar (progress_bar system_percentage 30);
               Recovered system_amount; Blank;
               Heading "Total Cleanup:";
               Bar (progress_bar total_percentage 40);
               TotalRecovered total_amount;
               Blank; SummaryHeading; SummaryProcessed;
               Efficiency (format_f 1 total_percentage); SummaryComplete])
             (others w))
    | _, _, _ =>
        fst (display_cleanup_results user_temp_freed system_temp_freed
                                     user_temp_initial system_temp_initial w)
        = Raises OverflowError
    end /\
    (0 <= fval user_percentage <= 100)%Q /\
    (0 <= fval system_percentage <= 100)%Q /\
    (0 <= fval total_percentage <= 100)%Q /\
    glyphs (progress_bar user_percentage 30) = 30%nat /\
    glyphs (progress_bar system_percentage 30) = 30%nat /\
    glyphs (progress_bar total_percentage 40) = 40%nat.
Proof.
  intros Hu Hs.
  destruct (percentage_returns (St := world) user_temp_freed
              user_temp_initial Hu) as (pu & Eu & Epu).
  destruct (percentage_returns (St := world) system_temp_freed
              system_temp_initial Hs) as (ps & Es & Eps).
  destruct (percentage_returns (St := world)
              (user_temp_freed + system_temp_freed)
              (user_temp_initial + system_temp_initial) ltac:(lia))
    as (pt & Et & Ept).
  assert (Ru : (0 <= fval pu <= 100)%Q).
  { rewrite Epu. apply summary_percentage_range. exact Hu. }
  assert (Rs : (0 <= fval ps <= 100)%Q).
  { rewrite Eps. apply summary_percentage_range. exact Hs. }
  assert (Rt : (0 <= fval pt <= 100)%Q).
  { rewrite Ept. apply summary_percentage_range. lia. }
  exists pu, ps, pt.
  split; [| split; [exact Ru | split; [exact Rs | split; [exact Rt |
    split; [| split]; apply progress_bar_width; (assumption || lia)]]]].
  pose proof (format_size_raises user_temp_freed) as Ha.
  pose proof (format_size_raises system_temp_freed) as Hb.
  pose proof (format_size_raises (user_temp_freed + system_temp_freed)) as Hc.
  pose proof (display_cleanup_results_run user_temp_freed system_temp_freed
                user_temp_initial system_temp_initial w pu ps pt) as Hrun.
  rewrite display_cleanup_results_steps. cbv zeta.
  rewrite display_cleanup_results_steps in Hrun. cbv zeta in Hrun.
  rewrite Eu.
  destruct (format_size user_temp_freed) as [a|ea];
    [| rewrite (Ha ea eq_refl);
       destruct (format_size system_temp_freed);
       destruct (format_size (user_temp_freed + system_temp_freed));
       reflexivity].
  rewrite Es.
  destruct (format_size system_temp_freed) as [b|eb];
    [| rewrite (Hb eb eq_refl);
       destruct (format_size (user_temp_freed + system_temp_freed));
       reflexivity].
  rewrite Et.
  destruct (format_size (user_temp_freed + system_temp_freed)) as [c|ec];
    [| rewrite (Hc ec eq_refl); reflexivity].
  repeat rewrite <- app_assoc. reflexivity.
Qed.

Lemma display_cleanup_results_bars_witness :
  0 <= 30 <= 60 /\ 0 <= 0 <= 0 /\
  exists user_percentage system_percentage total_percentage,
    display_cleanup_results 30 0 60 0 (quiet (volume three_files))
    = (Returns tt,
       mkworld (volume three_files)
         ([] ++
          [ResultsBanner; Blank;
           Heading "User Temp Folder:";
           Bar (progress_bar user_percentage 30);
           Recovered (py "0.00 MB"); Blank;
           Heading "System Temp Folder:";
           Bar (progress_bar system_percentage 30);
           Recovered (py "0.00 MB"); Blank;
           Heading "Total Cleanup:";
           Bar (progress_bar total_percentage 40);
           TotalRecovered (py "0.00 MB");
           Blank; SummaryHeading; SummaryProcessed;
           Efficiency (format_f 1 total_percentage); SummaryComplete])
         (fun n => n)) /\
    (0 <= fval user_percentage <= 100)%Q /\
    (0 <= fval system_percentage <= 100)%Q /\
    (0 <= fval total_percentage <= 100)%Q /\
    glyphs (progress_bar user_percentage 30) = 30%nat /\
    glyphs (progress_bar system_percentage 30) = 30%nat /\
    glyphs (progress_bar total_percentage 40) = 40%nat.
Proof.
  assert (Hu : 0 <= 30 <= 60) by lia.
  assert (Hs : 0 <= 0 <= 0) by lia.
  split; [exact Hu |]. split; [exact Hs |].
  exact (display_cleanup_results_bars 30 0 60 0 (quiet (volume three_files))
           Hu Hs).
Defined.

(** ** System information: the disk panel *)

Lemma say_then {A} (l : info_line) (k : Info A) (out : list info_line) :
  (say l ;; k) out = k (out ++ [l]).
Proof. reflexivity. Qed.

(** The panel, step by step. *)
Lemma display_system_info_steps (total used free : Z)
    (out : list info_line) :
  0 < total ->
  display_system_info (Usage total used free) out
  = let out1 := out ++ [ToolBanner; InfoBlank] in
    if fits_float used total
    then
      let used_percentage :=
        fmul_int 100 (mkfloat (xorb (used <? 0) (total <? 0))
                              (Qabs (inject_Z used) / Qabs (inject_Z total))) in
      let out2 := out1 ++ [DriveHeading;
                           DriveBar (progress_bar used_percentage 30)] in
      match format_size used with
      | Raises e => (Raises e, out2)
      | Returns used_amount =>
      match format_size total with
      | Raises e => (Raises e, out2)
      | Returns total_amount =>
      match format_size free with
      | Raises e => (Raises e, out2 ++ [DriveUsed used_amount total_amount])
      | Returns free_amount =>
          (Returns tt,
           out2 ++ [DriveUsed used_amount total_amount;
                    DriveFree free_amount; InfoBlank])
      end end end
    else (Raises OverflowError, out1).
Proof.
  intros Ht. cbv zeta. unfold display_system_info, get_disk_usage.
  rewrite !say_then. unfold bind at 1. unfold ret at 1.
  replace (total >? 0) with true by (symmetry; apply Z.gtb_lt; lia).
  unfold truediv.
  replace (total =? 0) with false by (symmetry; apply Z.eqb_neq; lia).
  destruct (fits_float used total).
  - unfold bind at 1. unfold ret at 1.
    rewrite !say_then, eval_then.
    destruct (format_size used) as [a|e];
      [| repeat rewrite <- app_assoc; reflexivity].
    rewrite eval_then.
    destruct (format_size total) as [b|e];
      [| repeat rewrite <- app_assoc; reflexivity].
    rewrite say_then, eval_then.
    destruct (format_size free) as [c|e];
      [| repeat rewrite <- app_assoc; reflexivity].
    rewrite say_then. unfold say.
    repeat rewrite <- app_assoc. reflexivity.
  - unfold bind, raise. repeat rewrite <- app_assoc. reflexivity.
Qed.

(** X18. [display_system_info] never divides by zero, whatever [psutil]
    does.  It prints the banner; the note appears exactly when [psutil]
    cannot be imported; without [psutil], or with a total that is not
    above 0, nothing else is printed.  With a total above 0 and used bytes
    between 0 and the total, the percentage lies between 0 and 100, the bar
    of the panel has exactly 30 glyphs, and the panel is printed whole when
    the three sizes can be rendered. *)
Theorem display_system_info_degrades (machine : psutil)
    (out : list info_line) :
  fst (display_system_info machine out) <> Raises ZeroDivisionError /\
  match machine with
  | ImportError =>
      display_system_info machine out
      = (Returns tt, out ++ [ToolBanner; InfoBlank; PsutilNote])
  | OtherError =>
      display_system_info machine out
      = (Returns tt, out ++ [ToolBanner; InfoBlank])
  | Usage total used free =>
      if total >? 0
      then 0 <= used <= total ->
           exists used_percentage,
             (0 <= fval used_percentage <= 100)%Q /\
             glyphs (progress_bar used_percentage 30) = 30%nat /\
             match format_size used, format_size total, format_size free with
             | Returns used_amount, Returns total_amount,
               Returns free_amount =>
                 display_system_info machine out
                 = (Returns tt,
                    out ++ [ToolBanner; InfoBlank; DriveHeading;
                            DriveBar (progress_bar used_percentage 30);
                            DriveUsed used_amount total_amount;
                            DriveFree free_amount; InfoBlank])
             | _, _, _ =>
                 fst (display_system_info machine out) = Raises OverflowError
             end
      else display_system_info machine out
           = (Returns tt, out ++ [ToolBanner; InfoBlank])
  end.
Proof.
  destruct machine as [total used free| |].
  - destruct (Z.gtb_spec total 0) as [Ht|Ht].
    + pose proof (format_size_raises used) as Ha.
      pose proof (format_size_raises total) as Hb.
      pose proof (format_size_raises free) as Hc.
      rewrite (display_system_info_steps total used free out Ht). cbv zeta.
      split.
      * destruct (fits_float used total); [| discriminate].
        destruct (format_size used) as [a|ea];
          [| rewrite (Ha ea eq_refl); discriminate].
        destruct (format_size total) as [b|eb];
          [| rewrite (Hb eb eq_refl); discriminate].
        destruct (format_size free) as [c|ec];
          [| rewrite (Hc ec eq_refl); discriminate].
        discriminate.
      * intros Hu. rewrite (fits_float_ratio used total) by lia.
        eexists. split; [| split].
        -- rewrite (truediv_value used total Ht).
           pose proof (summary_percentage_range used total Hu) as Hr.
           unfold summary_percentage in Hr.
           replace (total >? 0) with true in Hr
             by (symmetry; apply Z.gtb_lt; lia).
           exact Hr.
        -- apply progress_bar_width; [| lia].
           rewrite (truediv_value used total Ht).
           pose proof (summary_percentage_range used total Hu) as Hr.
           unfold summary_percentage in Hr.
           replace (total >? 0) with true in Hr
             by (symmetry; apply Z.gtb_lt; lia).
           exact Hr.
        -- destruct (format_size used) as [a|ea];
             [| rewrite (Ha ea eq_refl);
                destruct (format_size total); destruct (format_size free);
                reflexivity].
           destruct (format_size total) as [b|eb];
             [| rewrite (Hb eb eq_refl); destruct (format_size free);
                reflexivity].
           destruct (format_size free) as [c|ec];
             [| rewrite (Hc ec eq_refl); reflexivity].
           repeat rewrite <- app_assoc. reflexivity.
    + assert (E : display_system_info (Usage total used free) out
                  = (Returns tt, out ++ [ToolBanner; InfoBlank])).
      { unfold display_system_info, get_disk_usage, say, bind, ret.
        replace (total >? 0) with false
          by (symmetry; rewrite Z.gtb_ltb; apply Z.ltb_ge; lia).
        repeat rewrite <- app_assoc. reflexivity. }
      rewrite E. split; [discriminate | reflexivity].
  - assert (E : display_system_info ImportError out
                = (Returns tt, out ++ [ToolBanner; InfoBlank; PsutilNote])).
    { unfold display_system_info, get_disk_usage, say, bind, ret.
      cbn. repeat rewrite <- app_assoc. reflexivity. }
    rewrite E. split; [discriminate | reflexivity].
  - assert (E : display_system_info OtherError out
                = (Returns tt, out ++ [ToolBanner; InfoBlank])).
    { unfold display_system_info, get_disk_usage, say, bind, ret.
      cbn. repeat rewrite <- app_assoc. reflexivity. }
    rewrite E. split; [discriminate | reflexivity].
Qed.

(** ** Cleaner: what a skipped item loses *)

Lemma left_over_failed (ch : node) :
  removal_fails ch = true ->
  exists x, left_over ch = Some x /\ is_dir_node x = is_dir_node ch /\
            (is_dir_node ch = false -> x = ch).
Proof.
  destruct ch as [s ro iu|ro iu ls sub| |j ro ls sub];
    cbn [removal_fails left_over]; intros H.
  - rewrite H. eexists. repeat split.
  - pose proof (rm_result_removable (Dir ro iu ls sub)) as Hrm.
    pose proof (rm_result_raises_some (Dir ro iu ls sub)) as Hsome.
    apply negb_true_iff in H.
    destruct (rm_result (Dir ro iu ls sub)) as [[[]|e] r]; cbn [fst snd] in *.
    + rewrite (proj1 Hrm eq_refl) in H. discriminate.
    + destruct (Hsome e eq_refl) as [x [Hx Hd]]. exists x.
      split; [exact Hx |]. split; [exact Hd | discriminate].
  - discriminate.
  - discriminate.
Qed.

(** X19. An item reported as skipped is still there when the loop ends: a
    skipped file is exactly as it was, a skipped directory is still a
    directory.  But a skipped directory is not left as it was: what
    [shutil.rmtree] removed before it met the first entry in use is gone,
    and the file in use has lost its read-only attribute. *)
Theorem clean_temp_folder_skipped_stays (folder_path : fspath)
    (location_name : string) (w : world) ro iu es :
  lookup (fs w) folder_path = Some (Dir ro iu true es) ->
  distinct (map fst es) = true ->
  exists bytes_freed after_loop out,
    clean_temp_folder folder_path location_name w
    = (Returns bytes_freed, mkworld (others w after_loop) out (others w)) /\
    (forall name ch,
        In (name, ch) es -> removal_fails ch = true ->
        In (Skipped name) out /\
        exists x,
          lookup after_loop (os_path_join folder_path name) = Some x /\
          is_dir_node x = is_dir_node ch /\
          (is_dir_node ch = false -> x = ch)) /\
    (forall sub sub_ro gone name size file_ro rest,
        In (sub, Dir sub_ro false true
                     (gone ++ (name, File size file_ro true) :: rest)) es ->
        forallb (fun e => tree_removable (snd e)) gone = true ->
        lookup after_loop (os_path_join folder_path sub)
        = Some (Dir sub_ro false true ((name, File size false true) :: rest))).
Proof.
  intros Hl Hd.
  pose proof (clean_temp_folder_unique folder_path location_name w ro iu es
                Hl Hd) as Hrun.
  cbv zeta in Hrun.
  eexists _, _, _. split; [exact Hrun |]. split.
  - intros name ch Hin Hf. split.
    + apply in_or_app. right. apply in_or_app. right.
      apply in_or_app. left. unfold skipped_lines.
      apply (in_map (fun e => Skipped (fst e)) _ (name, ch)).
      apply filter_In. split; [exact Hin | exact Hf].
    + rewrite (lookup_after _ _ _ _ _ _ _ Hl).
      rewrite (assoc_leftovers _ _ _ (distinct_NoDup _ Hd) Hin).
      apply left_over_failed. exact Hf.
  - intros sub sub_ro gone name size file_ro rest Hin Hgone.
    rewrite (lookup_after _ _ _ _ _ _ _ Hl).
    rewrite (assoc_leftovers _ _ _ (distinct_NoDup _ Hd) Hin).
    cbn [left_over]. rewrite rm_result_dir.
    rewrite (rm_entries_after_removable _ _ Hgone).
    reflexivity.
Qed.

Lemma clean_temp_folder_skipped_stays_witness :
  distinct (map fst [("cache"%string,
                      folder [("a.tmp"%string, plain 10);
                              ("open.log"%string, File 20 true true);
                              ("b.tmp"%string, plain 30)])]) = true /\
  exists bytes_freed after_loop out,
    clean_temp_folder Temp "User Temp folder"
      (quiet (volume (folder
         [("cache"%string,
           folder [("a.tmp"%string, plain 10);
                   ("open.log"%string, File 20 true true);
                   ("b.tmp"%string, plain 30)])])))
    = (Returns bytes_freed, mkworld after_loop out (fun n => n)) /\
    In (Skipped "cache") out /\
    lookup after_loop (os_path_join Temp "cache")
    = Some (folder [("open.log"%string, File 20 false true);
                    ("b.tmp"%string, plain 30)]).
Proof.
  split; [reflexivity |].
  destruct (clean_temp_folder_skipped_stays Temp "User Temp folder"
              (quiet (volume (folder
                 [("cache"%string,
                   folder [("a.tmp"%string, plain 10);
                           ("open.log"%string, File 20 true true);
                           ("b.tmp"%string, plain 30)])])))
              false false _ eq_refl eq_refl)
    as (bytes_freed & after_loop & out & Hrun & Hstay & Hpart).
  exists bytes_freed, after_loop, out. split; [exact Hrun |]. split.
  - apply (Hstay "cache"%string
             (folder [("a.tmp"%string, plain 10);
                      ("open.log"%string, File 20 true true);
                      ("b.tmp"%string, plain 30)])).
    + left. reflexivity.
    + reflexivity.
  - apply (Hpart "cache"%string false [("a.tmp"%string, plain 10)]
             "open.log"%string 20%N true [("b.tmp"%string, plain 30)]).
    + left. reflexivity.
    + reflexivity.
Defined.

(** ** Cleaner and SizeProbe: two targets in a row *)



(** ** Cleaner: links to directories *)

Lemma skipped_lines_in (es : list (string * node)) (name : string) :
  In (Skipped name) (skipped_lines es) ->
  exists ch, In (name, ch) es /\ removal_fails ch = true.
Proof.
  unfold skipped_lines. intros H. apply in_map_iff in H as ([k v] & E & Hin).
  apply filter_In in Hin as [Hin Hf]. cbn [fst snd] in *.
  inversion E; subst. exists v. split; assumption.
Qed.

(** X21. A child of the target that is a live link to a directory (a
    symbolic link or a junction) is counted among the deleted folders
    although nothing is removed: [is_dir()] is true of it, [rmtree] refuses
    it, the handler takes the error and returns, and the counter is
    incremented.  When the loop ends the link is still there (with its
    read-only attribute cleared) and so is what it leads to; no "skipped"
    line is printed for it.  The number reported as "Folders deleted" is
    the number of directories removed plus the number of such links. *)
Theorem clean_temp_folder_counts_links (folder_path : fspath)
    (location_name : string) (w : world) ro iu es :
  lookup (fs w) folder_path = Some (Dir ro iu true es) ->
  distinct (map fst es) = true ->
  exists bytes_freed after_loop,
    clean_temp_folder folder_path location_name w
    = (Returns bytes_freed,
       mkworld (others w after_loop)
         (stdout w ++ [Cleaning location_name] ++ skipped_lines es ++
          report (mkcounters (count unlinked es)
                             (count tree_removed es + count link_refused es)
                             (count removal_fails es)))
         (others w)) /\
    forall name junction read_only listable entries,
      In (name, DirLink junction read_only listable entries) es ->
      lookup after_loop (os_path_join folder_path name)
      = Some (DirLink junction false listable entries) /\
      ~ In (Skipped name) (skipped_lines es).
Proof.
  intros Hl Hd.
  pose proof (clean_temp_folder_unique folder_path location_name w ro iu es
                Hl Hd) as Hrun.
  cbv zeta in Hrun.
  eexists _, _. split; [exact Hrun |].
  intros name j lro ls sub Hin. split.
  - rewrite (lookup_after _ _ _ _ _ _ _ Hl).
    rewrite (assoc_leftovers _ _ _ (distinct_NoDup _ Hd) Hin). reflexivity.
  - intros Hs. apply skipped_lines_in in Hs as (ch & Hch & Hf).
    pose proof (assoc_in_nodup _ _ _ (distinct_NoDup _ Hd) Hin) as E1.
    pose proof (assoc_in_nodup _ _ _ (distinct_NoDup _ Hd) Hch) as E2.
    rewrite E1 in E2. inversion E2; subst ch. discriminate.
Qed.

Lemma clean_temp_folder_counts_links_witness :
  distinct (map fst [("a.tmp"%string, plain 10);
                     ("elsewhere"%string,
                      DirLink true true true [("x.bin"%string, plain 7)])])
  = true /\
  exists bytes_freed after_loop,
    clean_temp_folder Temp "User Temp folder" (quiet (volume linked_folder))
    = (Returns bytes_freed,
       mkworld after_loop
         [Cleaning "User Temp folder"; FilesDeleted 1; FoldersDeleted 1]
         (fun n => n)) /\
    lookup after_loop (os_path_join Temp "elsewhere")
    = Some (DirLink true false true [("x.bin"%string, plain 7)]).
Proof.
  split; [reflexivity |].
  destruct (clean_temp_folder_counts_links Temp "User Temp folder"
              (quiet (volume linked_folder)) false false _ eq_refl eq_refl)
    as (bytes_freed & after_loop & Hrun & Hlink).
  exists bytes_freed, after_loop. split; [exact Hrun |].
  exact (proj1 (Hlink "elsewhere"%string true true true
                  [("x.bin"%string, plain 7)] (or_intror (or_introl eq_refl)))).
Defined.
